(** * Slide Surgeon: the orchestration and compositing logic of [index.tsx]

    A shallow embedding of the single-page application's state handlers
    ([handleImageUpload], [handleGenerateVariants], [handleApplyTweak],
    [handleImproveSlide], [onExportPng]) and of the image compositor
    ([processFinalImage]).

    - React component state is the record [AppState]; a setter call is a
      [SetState] node of the program.
    - An [async] function is a tree ([Async]) whose nodes are setter calls and
      interactions with the browser or the remote service ([Action]); a
      promise is described by when and how it settles ([Promise]).
    - A JavaScript number is a rational; the result of every arithmetic
      operation is rounded by [fl] to 53 significant bits, to nearest and
      ties to even, as binary64 does. The exponent range of binary64 is not
      modelled: the numbers at hand are sizes in pixels, their quotients and
      products, far from underflow and overflow. *)

From Stdlib Require Import ZArith QArith Qminmax Qabs Qround Qpower Lqa Lia.
From Stdlib Require Import String Ascii List Bool DecimalString.
From stdpp Require Import gmap strings list fin_maps.

Local Open Scope string_scope.
Set Warnings "-register-all".

(** ** JavaScript strings *)

Module JsString.

(** The quotation mark, for texts that contain it. *)
Definition dquote : string := String (ascii_of_nat 34) EmptyString.

(** [s.length > 0]: the truthiness of a string. *)
Definition truthy (s : string) : bool :=
  match s with
  | EmptyString => false
  | String _ _ => true
  end.

Fixpoint drop (n : nat) (s : string) : string :=
  match n, s with
  | O, _ => s
  | S n', String _ s' => drop n' s'
  | S _, EmptyString => EmptyString
  end.

(** The text before and after the first occurrence of [pat] in [s]. *)
Fixpoint split_first (pat s : string) : option (string * string) :=
  if String.prefix pat s then Some (EmptyString, drop (String.length pat) s)
  else
    match s with
    | EmptyString => None
    | String c s' =>
        match split_first pat s' with
        | Some (before, after) => Some (String c before, after)
        | None => None
        end
    end.

(** The replacement text of [String.prototype.replace] when the pattern is a
    string: [$$] is a dollar sign, [$&] the matched text, [$`] the text before
    the match and [$'] the text after it; with no capture groups every other
    [$] stands for itself. *)
Fixpoint expand_replacement (repl matched before after : string) : string :=
  match repl with
  | EmptyString => EmptyString
  | String "$" (String "$" r) => String "$" (expand_replacement r matched before after)
  | String "$" (String "&" r) => matched ++ expand_replacement r matched before after
  | String "$" (String "`" r) => before ++ expand_replacement r matched before after
  | String "$" (String "'" r) => after ++ expand_replacement r matched before after
  | String c r => String c (expand_replacement r matched before after)
  end.

(** [s.replace(pat, repl)] for a string pattern: the first occurrence only. *)
Definition replace (pat repl s : string) : string :=
  match split_first pat s with
  | Some (before, after) => before ++ expand_replacement repl pat before after ++ after
  | None => s
  end.

(** Line terminators, which [.] does not match in a regular expression: LF,
    CR, and U+2028 and U+2029 (in a string of UTF-8 bytes, E2 80 A8 and
    E2 80 A9). *)
Fixpoint has_line_terminator (s : string) : bool :=
  match s with
  | EmptyString => false
  | String c s' =>
      if (Nat.eqb (nat_of_ascii c) 10 || Nat.eqb (nat_of_ascii c) 13)%bool then true
      else if (Nat.eqb (nat_of_ascii c) 226
               && (String.prefix (String (ascii_of_nat 128) (String (ascii_of_nat 168) EmptyString)) s'
                   || String.prefix (String (ascii_of_nat 128) (String (ascii_of_nat 169) EmptyString)) s'))%bool
      then true
      else has_line_terminator s'
  end.

(** The split of [s] at the last occurrence of [sep] that leaves a non-empty
    text after it. *)
Fixpoint split_last (sep s : string) : option (string * string) :=
  let here :=
    if String.prefix sep s then
      let d := drop (String.length sep) s in
      if truthy d then Some (EmptyString, d) else None
    else None in
  match s with
  | EmptyString => here
  | String c s' =>
      match split_last sep s' with
      | Some (m, d) => Some (String c m, d)
      | None => here
      end
  end.

(** [url.match(/^data:(.+);base64,(.+)$/)]: the two groups. Both are greedy
    and non-empty, so the first takes everything up to the last [;base64,]
    that still leaves a character for the second. *)
Definition match_data_url (url : string) : option (string * string) :=
  if String.prefix "data:" url then
    match drop 5 url with
    | EmptyString => None
    | String c rest =>
        if has_line_terminator (String c rest) then None
        else
          match split_last ";base64," rest with
          | Some (m, d) => Some (String c m, d)
          | None => None
          end
    end
  else None.

(** [s.split(c)] for a separator of one character. *)
Fixpoint split_char (c : ascii) (s : string) : list string :=
  match s with
  | EmptyString => [EmptyString]
  | String a s' =>
      if Ascii.eqb a c then EmptyString :: split_char c s'
      else
        match split_char c s' with
        | piece :: pieces => String a piece :: pieces
        | [] => [String a EmptyString]
        end
  end.

(** A template literal prints a missing value as [undefined]. *)
Definition interpolate (v : option string) : string :=
  match v with
  | Some s => s
  | None => "undefined"
  end.

End JsString.

(** ** JSON values *)

Inductive Json : Type :=
| JNull
| JBool (b : bool)
| JNum (q : Q)
| JStr (s : string)
| JArr (items : list Json)
| JObj (fields : list (string * Json)).

Module JsValue.

(** Truthiness of a JSON value. *)
Definition truthy (j : Json) : bool :=
  match j with
  | JNull => false
  | JBool b => b
  | JNum q => negb (Qeq_bool q 0)
  | JStr s => JsString.truthy s
  | JArr _ => true
  | JObj _ => true
  end.

(** The value of a key in an object: the last binding wins. *)
Fixpoint field (k : string) (fields : list (string * Json)) : option Json :=
  match fields with
  | [] => None
  | (k', v) :: rest =>
      match field k rest with
      | Some v' => Some v'
      | None => if String.eqb k k' then Some v else None
      end
  end.

(** Reading the property [j.error]: [None] when the read throws (a property
    of [null]), otherwise the truthiness of what is read ([undefined] when
    the value is not an object or has no such key). *)
Definition error_property_truthy (j : Json) : option bool :=
  match j with
  | JNull => None
  | JObj fields =>
      match field "error" fields with
      | Some v => Some (truthy v)
      | None => Some false
      end
  | _ => Some false
  end.

End JsValue.

(** ** The data model of [index.tsx] *)

Inductive TruthLockStatus : Type := verifying | verified | modified.

Record Variant : Type := {
  id : string;
  sourceGraphicUrl : string;
  displayImageUrl : string;
  truthLockStatus : TruthLockStatus
}.

Inductive StylePreset : Type := Executive | Workshop | Investor.

Definition StylePreset_text (p : StylePreset) : string :=
  match p with
  | Executive => "Executive"
  | Workshop => "Workshop"
  | Investor => "Investor"
  end.

(** What the handlers read of an uploaded [File]. *)
Record File : Type := { name : string; type : string }.

(** The [useState] cells of [App]. *)
Record AppState : Type := {
  originalImage : option File;
  stylePreset : StylePreset;
  variants : list Variant;
  isLoading : bool;
  isTweaking : bool;
  tweakRequest : string;
  error : option string;
  compareOn : bool
}.

Definition initialState : AppState :=
  {| originalImage := None; stylePreset := Workshop; variants := [];
     isLoading := false; isTweaking := false; tweakRequest := EmptyString;
     error := None; compareOn := false |}.

(** The setters; each takes the update as a function of the current value,
    as React applies it. *)
Definition setOriginalImage (f : option File -> option File) (s : AppState) : AppState :=
  {| originalImage := f (originalImage s); stylePreset := stylePreset s;
     variants := variants s; isLoading := isLoading s; isTweaking := isTweaking s;
     tweakRequest := tweakRequest s; error := error s; compareOn := compareOn s |}.

Definition setStylePreset (f : StylePreset -> StylePreset) (s : AppState) : AppState :=
  {| originalImage := originalImage s; stylePreset := f (stylePreset s);
     variants := variants s; isLoading := isLoading s; isTweaking := isTweaking s;
     tweakRequest := tweakRequest s; error := error s; compareOn := compareOn s |}.

Definition setVariants (f : list Variant -> list Variant) (s : AppState) : AppState :=
  {| originalImage := originalImage s; stylePreset := stylePreset s;
     variants := f (variants s); isLoading := isLoading s; isTweaking := isTweaking s;
     tweakRequest := tweakRequest s; error := error s; compareOn := compareOn s |}.

Definition setIsLoading (f : bool -> bool) (s : AppState) : AppState :=
  {| originalImage := originalImage s; stylePreset := stylePreset s;
     variants := variants s; isLoading := f (isLoading s); isTweaking := isTweaking s;
     tweakRequest := tweakRequest s; error := error s; compareOn := compareOn s |}.

Definition setIsTweaking (f : bool -> bool) (s : AppState) : AppState :=
  {| originalImage := originalImage s; stylePreset := stylePreset s;
     variants := variants s; isLoading := isLoading s; isTweaking := f (isTweaking s);
     tweakRequest := tweakRequest s; error := error s; compareOn := compareOn s |}.

Definition setTweakRequest (f : string -> string) (s : AppState) : AppState :=
  {| originalImage := originalImage s; stylePreset := stylePreset s;
     variants := variants s; isLoading := isLoading s; isTweaking := isTweaking s;
     tweakRequest := f (tweakRequest s); error := error s; compareOn := compareOn s |}.

Definition setError (f : option string -> option string) (s : AppState) : AppState :=
  {| originalImage := originalImage s; stylePreset := stylePreset s;
     variants := variants s; isLoading := isLoading s; isTweaking := isTweaking s;
     tweakRequest := tweakRequest s; error := f (error s); compareOn := compareOn s |}.

Definition setCompareOn (f : bool -> bool) (s : AppState) : AppState :=
  {| originalImage := originalImage s; stylePreset := stylePreset s;
     variants := variants s; isLoading := isLoading s; isTweaking := isTweaking s;
     tweakRequest := tweakRequest s; error := error s; compareOn := f (compareOn s) |}.

(** ** The generation service's messages (the parts of [@google/genai] used) *)

(** [inlineData]: both fields are optional in the library's type. *)
Record Blob : Type := { mimeType : option string; data : option string }.

Record Part : Type := { text : option string; inlineData : option Blob }.

Definition textPart (t : string) : Part := {| text := Some t; inlineData := None |}.
Definition imagePart (b : Blob) : Part := {| text := None; inlineData := Some b |}.

Record Content : Type := { parts : option (list Part) }.
Record Candidate : Type := { content : option Content }.
Record GenerateContentResponse : Type := { candidates : option (list Candidate) }.

Inductive Modality : Type := IMAGE | TEXT.

Inductive GenerateContentConfig : Type :=
| responseMimeType (mime : string)
| responseModalities (ms : list Modality).

Record GenerateContentParameters : Type := {
  model : string;
  contents : list Part;
  config : GenerateContentConfig
}.

(** A thrown or rejected value: what the handlers read of it is [message]. *)
Record JsError : Type := { message : option string }.

Definition Error (msg : string) : JsError := {| message := Some msg |}.

(** ** Promises *)

(** A promise, described by its fate: it settles [at_ms] milliseconds after
    it was created, fulfilled ([inr]) or rejected ([inl]), or it never
    settles. *)
Inductive Promise (X : Type) : Type :=
| Settles (at_ms : N) (outcome : JsError + X)
| Pending.
Arguments Settles {X} at_ms outcome.
Arguments Pending {X}.

(** [new Promise((_, reject) => setTimeout(() => reject(e), ms))]. *)
Definition rejectAfter {X : Type} (ms : N) (e : JsError) : Promise X :=
  Settles ms (inl e).

(** Of two promises created together, the one that settles first; the one
    listed first when both settle in the same millisecond. *)
Definition race2 {X : Type} (p q : Promise X) : Promise X :=
  match p, q with
  | Settles t _, Settles t' _ => if (t <=? t')%N then p else q
  | Settles _ _, Pending => p
  | Pending, _ => q
  end.

(** [Promise.race(ps)]. *)
Definition Promise_race {X : Type} (ps : list (Promise X)) : Promise X :=
  fold_right race2 Pending ps.

(** ** The canvas *)

Module Image.
(** A decoded image: its natural size in pixels. *)
Record t : Type := { width : positive; height : positive }.
End Image.

Module Canvas.

Inductive Command : Type :=
| fillRect (fillStyle : string) (x y w h : Q)
| drawImage (src : string) (sx sy sWidth sHeight dx dy dWidth dHeight : Q).

Record t : Type := { width : Z; height : Z; commands : list Command }.

(** The conversion of a number to [unsigned long]: truncated towards zero,
    modulo 2^32. *)
Definition to_unsigned_long (x : Q) : Z :=
  (if Qle_bool 0 x then Qfloor x else Qceiling x) mod 4294967296.

(** Setting the [width] or [height] attribute: a value up to 2^31 - 1 is
    stored, any other is replaced by the attribute's default. *)
Definition dimension (default : Z) (x : Q) : Z :=
  let v := to_unsigned_long x in
  if (v <=? 2147483647)%Z then v else default.

(** [document.createElement('canvas')] followed by the two assignments. *)
Definition create (w h : Q) : t :=
  {| width := dimension 300 w; height := dimension 150 h; commands := [] |}.

Definition draw (c : t) (cmd : Command) : t :=
  {| width := width c; height := height c; commands := commands c ++ [cmd] |}.

End Canvas.

(** ** JavaScript numbers *)

(** The integer nearest to [y], the even one of the two when [y] is half way
    between them. *)
Definition nearest_even (y : Q) : Z :=
  let f := Qfloor y in
  match Qcompare (y - inject_Z f) (1 # 2) with
  | Lt => f
  | Gt => (f + 1)%Z
  | Eq => if Z.even f then f else (f + 1)%Z
  end.

(** For [x] other than zero, the integer [e] with [2^e <= |x| < 2^(e+1)]. *)
Definition exponent (x : Q) : Z :=
  let k := (Z.log2 (Z.abs (Qnum x)) - Z.log2 (Zpos (Qden x)))%Z in
  if Qle_bool (2 ^ k) (Qabs x) then k else (k - 1)%Z.

(** The number a real result is rounded to: the nearest multiple of the unit
    in the last place, which leaves 53 significant bits. *)
Definition fl (x : Q) : Q :=
  if Qeq_bool x 0 then 0%Q
  else
    let ulp := (2 ^ (exponent x - 52))%Q in
    (inject_Z (nearest_even (x / ulp)) * ulp)%Q.

(** ** The JavaScript runtime *)

(** The deterministic functions of the runtime and of the client library
    that the handlers call. *)
Class JsRuntime : Type := {
  (** [JSON.stringify(v, null, 2)] *)
  JSON_stringify : Json -> string;
  (** [JSON.parse(s)]; [inl e] when it throws [e] *)
  JSON_parse : string -> JsError + Json;
  (** [s.trim()] *)
  trim : string -> string;
  (** the getter [response.text] of the client library *)
  response_text : GenerateContentResponse -> option string;
  (** [canvas.toDataURL('image/png')] *)
  toDataURL : Canvas.t -> string;
  (** the [TypeError] of reading a property of [null] or [undefined] *)
  typeError : JsError
}.

(** The interactions whose result the program does not determine. *)
Inductive Action : Type :=
| NewGoogleGenAI
| ReadAsDataURL (file : File)
| GenerateContent (params : GenerateContentParameters)
| GetContext2d
| LoadImage (src : string)
| RandomUUID
| ClickDownloadLink (href download : string).

(** What each interaction gives back: [new GoogleGenAI(...)] the exception
    it threw, if any; [FileReader.readAsDataURL] and
    [ai.models.generateContent] a promise; [canvas.getContext('2d')] a
    context or [null]; an [Image] whose [src] is set, the promise of its
    [onload] (fulfilled) or [onerror] (rejected) event;
    [crypto.randomUUID()] a string; the click on the download link, the
    exception it threw, if any. *)
Definition Reply (a : Action) : Type :=
  match a with
  | NewGoogleGenAI => option JsError
  | ReadAsDataURL _ => Promise string
  | GenerateContent _ => Promise GenerateContentResponse
  | GetContext2d => bool
  | LoadImage _ => Promise Image.t
  | RandomUUID => string
  | ClickDownloadLink _ _ => option JsError
  end.

(** ** Asynchronous programs *)

(** The body of a handler: it returns, calls a setter, interacts, or waits
    for a promise that never settles. *)
Inductive Async (A : Type) : Type :=
| Ret (a : A)
| SetState (f : AppState -> AppState) (k : Async A)
| Act (a : Action) (k : Reply a -> Async A)
| Hang.
Arguments Ret {A} a.
Arguments SetState {A} f k.
Arguments Act {A} a k.
Arguments Hang {A}.

Fixpoint bind {A B : Type} (m : Async A) (k : A -> Async B) : Async B :=
  match m with
  | Ret a => k a
  | SetState f m' => SetState f (bind m' k)
  | Act a h => Act a (fun r => bind (h r) k)
  | Hang => Hang
  end.

Notation "x <- m ;; k" := (bind m (fun x => k))
  (at level 62, m at next level, right associativity).
Notation "m ;;; k" := (bind m (fun _ => k))
  (at level 62, right associativity).

Definition set (f : AppState -> AppState) : Async unit := SetState f (Ret tt).
Definition act (a : Action) : Async (Reply a) := Act a Ret.

(** A program that may throw: [inl e] is the exception. *)
Definition throw {A : Type} (e : JsError) : Async (JsError + A) := Ret (inl e).
Definition ok {A : Type} (a : A) : Async (JsError + A) := Ret (inr a).

Definition bindE {A B : Type} (m : Async (JsError + A)) (k : A -> Async (JsError + B))
  : Async (JsError + B) :=
  r <- m ;;
  match r with
  | inl e => throw e
  | inr a => k a
  end.

Notation "x <-? m ;; k" := (bindE m (fun x => k))
  (at level 62, m at next level, right associativity).

(** [await p]. *)
Definition await {X : Type} (p : Promise X) : Async (JsError + X) :=
  match p with
  | Settles _ outcome => Ret outcome
  | Pending => Hang
  end.

(** [try { body } catch (e) { handler(e) }]. *)
Definition try_catch {A : Type} (body : Async (JsError + A)) (handler : JsError -> Async (JsError + A))
  : Async (JsError + A) :=
  r <- body ;;
  match r with
  | inl e => handler e
  | inr a => ok a
  end.

(** [try { body } finally { cleanup }], for a [cleanup] that does not throw. *)
Definition try_finally {A : Type} (body : Async (JsError + A)) (cleanup : Async unit)
  : Async (JsError + A) :=
  r <- body ;; cleanup ;;; Ret r.

(** ** Running a program *)

(** The result of every interaction of a run. *)
Definition Oracle : Type := forall a : Action, Reply a.

(** [run o p s]: the states the setter calls of [p] produce one after the
    other from [s], the interactions performed, and the result ([None] when
    the program is left waiting for ever). *)
Fixpoint run {A : Type} (o : Oracle) (p : Async A) (s : AppState)
  : list AppState * list Action * option A :=
  match p with
  | Ret a => ([], [], Some a)
  | SetState f k =>
      let '(states, acts, r) := run o k (f s) in (f s :: states, acts, r)
  | Act a k =>
      let '(states, acts, r) := run o (k (o a)) s in (states, a :: acts, r)
  | Hang => ([], [], None)
  end.

Definition states_of {A : Type} (o : Oracle) (p : Async A) (s : AppState) : list AppState :=
  fst (fst (run o p s)).
Definition actions_of {A : Type} (o : Oracle) (p : Async A) (s : AppState) : list Action :=
  snd (fst (run o p s)).
Definition result_of {A : Type} (o : Oracle) (p : Async A) (s : AppState) : option A :=
  snd (run o p s).
(** The state when the run stops. *)
Definition final_state {A : Type} (o : Oracle) (p : Async A) (s : AppState) : AppState :=
  List.last (states_of o p s) s.

(** ** The prompts *)

Definition MASTER_RECONSTRUCT_PROMPT : string :=
  "
  Persona: You are a world-class information designer and visual artist at a top-tier consulting firm.

  Task: Your task is to create a single, stunning, and clear visual representation of the provided JSON data. Do not show the JSON data itself; visualize the information it contains.

  Design System Rules:
  -   Adhere to a strict 8pt grid for all spacing and alignment.
  -   Use a professional and clean sans-serif font like "
  ++ JsString.dquote
  ++ "Inter"
  ++ JsString.dquote
  ++ ".
  -   Typographic Scale: Headline (32px, Bold), Label (14px, Medium), Caption (12px, Regular).
  -   Use high-quality, single-color, line-art icons (like Material Symbols) to represent concepts where appropriate.

  Data Visualization Best Practices:
  -   Maximize the data-ink ratio. Remove all unnecessary chart junk.
  -   Use color strategically to highlight key insights, but maintain a professional and clean aesthetic.

  Critical Constraints:
  -   Render the final graphic on a pure white (#FFFFFF) background. Do not draw or simulate transparency (no gray/white checkerboards). Do not add any drop shadows or watermarks.
  -   You MUST propose a new, concise headline for the visual as a separate piece of text. The headline MUST NOT be rendered on the image itself.

  Context:
  -   Style Preset: {{stylePreset}} (Use this to guide your color palette and overall aesthetic: 'Executive' is formal and minimalist, 'Workshop' is collaborative and colorful, 'Investor' is data-dense and impactful).
  -   JSON Data to Visualize:
      ```json
      {{jsonData}}
      ```

  Format:
  -   Your response MUST contain two distinct parts:
      1. A single line of text for the proposed title.
      2. The generated image file.
".

Definition ocrPrompt : string :=
  "Analyze the provided slide image. Deconstruct it into a structured JSON object. The JSON should capture the core informational content, not just the text. Infer the structure (e.g., list, hierarchy, table). For charts, extract data points, labels, and the chart type.

      Example for a simple list:
      { "
  ++ JsString.dquote
  ++ "type"
  ++ JsString.dquote
  ++ ": "
  ++ JsString.dquote
  ++ "list"
  ++ JsString.dquote
  ++ ", "
  ++ JsString.dquote
  ++ "title"
  ++ JsString.dquote
  ++ ": "
  ++ JsString.dquote
  ++ "Key Takeaways"
  ++ JsString.dquote
  ++ ", "
  ++ JsString.dquote
  ++ "items"
  ++ JsString.dquote
  ++ ": ["
  ++ JsString.dquote
  ++ "First point"
  ++ JsString.dquote
  ++ ", "
  ++ JsString.dquote
  ++ "Second point"
  ++ JsString.dquote
  ++ "] }

      Example for a bar chart:
      { "
  ++ JsString.dquote
  ++ "type"
  ++ JsString.dquote
  ++ ": "
  ++ JsString.dquote
  ++ "bar_chart"
  ++ JsString.dquote
  ++ ", "
  ++ JsString.dquote
  ++ "title"
  ++ JsString.dquote
  ++ ": "
  ++ JsString.dquote
  ++ "Q3 Performance"
  ++ JsString.dquote
  ++ ", "
  ++ JsString.dquote
  ++ "data"
  ++ JsString.dquote
  ++ ": [{"
  ++ JsString.dquote
  ++ "label"
  ++ JsString.dquote
  ++ ": "
  ++ JsString.dquote
  ++ "Product A"
  ++ JsString.dquote
  ++ ", "
  ++ JsString.dquote
  ++ "value"
  ++ JsString.dquote
  ++ ": 75}, {"
  ++ JsString.dquote
  ++ "label"
  ++ JsString.dquote
  ++ ": "
  ++ JsString.dquote
  ++ "Product B"
  ++ JsString.dquote
  ++ ", "
  ++ JsString.dquote
  ++ "value"
  ++ JsString.dquote
  ++ ": 50}] }

      Return ONLY the raw JSON object.".

Definition tweakPrompt : string :=
  "
          You are an AI design assistant specializing in presentation slides.
          A user wants to apply a specific change to the provided image.
          Analyze the user's request and modify the image accordingly.

          Critical Constraints:
          - Your ONLY output must be the newly modified image file.
          - The output image MUST be rendered on a pure white (#FFFFFF) background. Do not draw or simulate transparency (no gray/white checkerboards). Do not add any drop shadows or watermarks.
          - Do not output any text, commentary, or markdown.
        ".

(** ** The image compositor: [processFinalImage] *)

Section Handlers.
Context {runtime : JsRuntime}.

(** Where the image is drawn (lines 57-68): [ratio], the two shifts, and the
    drawn size [img.width * ratio] by [img.height * ratio]. *)
Record Placement : Type := {
  ratio : Q;
  centerShift_x : Q;
  centerShift_y : Q;
  drawnWidth : Q;
  drawnHeight : Q
}.

Definition placement (canvas : Canvas.t) (img : Image.t) : Placement :=
  let canvas_width := inject_Z (Canvas.width canvas) in
  let canvas_height := inject_Z (Canvas.height canvas) in
  let img_width := inject_Z (Zpos (Image.width img)) in
  let img_height := inject_Z (Zpos (Image.height img)) in
  let hRatio := fl (canvas_width / img_width) in
  let vRatio := fl (canvas_height / img_height) in
  let ratio := Qmin hRatio vRatio in
  {| ratio := ratio;
     centerShift_x := fl (fl (canvas_width - fl (img_width * ratio)) / 2);
     centerShift_y := fl (fl (canvas_height - fl (img_height * ratio)) / 2);
     drawnWidth := fl (img_width * ratio);
     drawnHeight := fl (img_height * ratio) |}.

(** The canvas of lines 39-43, before anything is drawn. *)
Definition blankCanvas (targetWidth : Z) : Canvas.t :=
  let targetHeight := fl (fl (inject_Z targetWidth / 16) * 9) in
  Canvas.create (inject_Z targetWidth) targetHeight.

(** The canvas when [toDataURL] is called on it. *)
Definition composite (imageDataUrl backgroundColor : string) (targetWidth : Z) (img : Image.t)
  : Canvas.t :=
  let canvas := blankCanvas targetWidth in
  let canvas :=
    Canvas.draw canvas
      (Canvas.fillRect backgroundColor 0 0
         (inject_Z (Canvas.width canvas)) (inject_Z (Canvas.height canvas))) in
  let p := placement canvas img in
  Canvas.draw canvas
    (Canvas.drawImage imageDataUrl
       0 0 (inject_Z (Zpos (Image.width img))) (inject_Z (Zpos (Image.height img)))
       (centerShift_x p) (centerShift_y p) (drawnWidth p) (drawnHeight p)).

Definition processFinalImage (imageDataUrl backgroundColor : string) (targetWidth : Z)
  : Async (JsError + string) :=
  ctx <- act GetContext2d ;;
  if negb ctx then throw (Error "Could not get canvas context")
  else
    loaded <- act (LoadImage imageDataUrl) ;;
    match loaded with
    | Settles _ (inr img) =>
        ok (toDataURL (composite imageDataUrl backgroundColor targetWidth img))
    | Settles _ (inl _) => throw (Error "Failed to load image for processing.")
    | Pending => Hang
    end.

(** The call with the default background and width, as every caller makes it. *)
Definition processFinalImage_default (imageDataUrl : string) : Async (JsError + string) :=
  processFinalImage imageDataUrl "#FFFFFF" 1920.

(** ** The content extractor: [runOcrOnImage] *)

Definition fileToBase64 (file : File) : Async (JsError + option string) :=
  reader <- act (ReadAsDataURL file) ;;
  result <-? await reader ;;
  ok (nth_error (JsString.split_char "," result) 1).

Definition ocrFailure : Json :=
  JObj [("error", JStr "OCR failed to produce valid JSON.");
        ("extractedContent", JArr []);
        ("notes", JStr "This data was extracted via a failed OCR attempt. Reconstruct the most logical visual representation of an empty slide.")].

Definition ocrRequest (base64ImageData : option string) (imageFile : File)
  : GenerateContentParameters :=
  let imagePart := imagePart {| data := base64ImageData; mimeType := Some (type imageFile) |} in
  let textPart := textPart ocrPrompt in
  {| model := "gemini-2.5-flash";
     contents := [imagePart; textPart];
     config := responseMimeType "application/json" |}.

Definition runOcrOnImage (imageFile : File) : Async Json :=
  r <- (ai <- act NewGoogleGenAI ;;
        match ai with
        | Some e => throw e
        | None =>
            base64ImageData <-? fileToBase64 imageFile ;;
            pending <- act (GenerateContent (ocrRequest base64ImageData imageFile)) ;;
            response <-? await pending ;;
            match response_text response with
            | None => throw typeError
            | Some t => Ret (JSON_parse (trim t))
            end
        end) ;;
  match r with
  | inr json => Ret json
  | inl _ => Ret ocrFailure
  end.

(** ** The generation flow: [handleGenerateVariants] *)

(** The fixture table of [demo-data.ts], from file names to extracted
    content. *)
Context (DEMO_DATA : gmap string Json).

Definition GENERATION_TIMEOUT_MS : N := 60000.

Definition MSG_UPLOAD_FIRST : string := "Please upload an image first.".
Definition MSG_OCR_FAILED : string :=
  "Smart OCR failed to extract structured content from the slide. Please try a different image.".
Definition MSG_TIMED_OUT : string :=
  "Generation timed out. The request took too long, please try again.".
Definition MSG_NOT_BOTH : string :=
  "Sorry, the model didn't return both a title and an image. Please try again.".
Definition MSG_MISSING_EITHER : string :=
  "The model response was missing either the text or image part.".
Definition MSG_GENERATE_DEFAULT : string :=
  "An error occurred while generating variants. Please check the console.".

(** Lines 236-248. [Object.keys(DEMO_DATA).includes(name)] holds exactly when
    the table has the key, and [DEMO_DATA[name]] is then its value. *)
Definition extractStructuredJson (originalImage : File) : Async (JsError + Json) :=
  match DEMO_DATA !! name originalImage with
  | Some fixture => ok fixture
  | None =>
      structuredJson <- runOcrOnImage originalImage ;;
      match JsValue.error_property_truthy structuredJson with
      | None => throw typeError
      | Some true => throw (Error MSG_OCR_FAILED)
      | Some false => ok structuredJson
      end
  end.

(** Lines 250-252. *)
Definition finalPrompt (stylePreset : StylePreset) (structuredJson : Json) : string :=
  JsString.replace "{{jsonData}}" (JSON_stringify structuredJson)
    (JsString.replace "{{stylePreset}}" (StylePreset_text stylePreset)
       MASTER_RECONSTRUCT_PROMPT).

Definition generationRequest (stylePreset : StylePreset) (structuredJson : Json)
  : GenerateContentParameters :=
  let textPart := textPart (finalPrompt stylePreset structuredJson) in
  {| model := "gemini-2.5-flash-image-preview";
     contents := [textPart];
     config := responseModalities [IMAGE; TEXT] |}.

(** [response.candidates?.[0]?.content?.parts]. *)
Definition response_parts (response : GenerateContentResponse) : option (list Part) :=
  match candidates response with
  | Some (candidate :: _) =>
      match content candidate with
      | Some c => parts c
      | None => None
      end
  | _ => None
  end.

(** The predicates of the two [find] calls: [part.text] and
    [part.inlineData] read as booleans. *)
Definition has_text (part : Part) : bool :=
  match text part with
  | Some t => JsString.truthy t
  | None => false
  end.

Definition has_inlineData (part : Part) : bool :=
  match inlineData part with
  | Some _ => true
  | None => false
  end.

Definition dataUrl (blob : Blob) : string :=
  "data:" ++ JsString.interpolate (mimeType blob) ++ ";base64," ++ JsString.interpolate (data blob).

(** Lines 272-298: from the response to the published variant. *)
Definition publishFromResponse (response : GenerateContentResponse) : Async (JsError + unit) :=
  match response_parts response with
  | None => throw (Error MSG_NOT_BOTH)
  | Some parts =>
      if (length parts <? 2)%nat then throw (Error MSG_NOT_BOTH)
      else
        match List.find has_text parts, List.find has_inlineData parts with
        | Some textPartResponse, Some imagePartResponse =>
            match inlineData imagePartResponse with
            | None => throw typeError
            | Some blob =>
                let sourceGraphicUrl := dataUrl blob in
                displayImageUrl <-? processFinalImage_default sourceGraphicUrl ;;
                uuid <- act RandomUUID ;;
                let finalVariant :=
                  {| id := uuid;
                     sourceGraphicUrl := sourceGraphicUrl;
                     displayImageUrl := displayImageUrl;
                     truthLockStatus := verified |} in
                set (setVariants (fun _ => [finalVariant])) ;;;
                ok tt
            end
        | _, _ => throw (Error MSG_MISSING_EITHER)
        end
  end.

(** Lines 250-270: the request, raced against the timer. *)
Definition generate (stylePreset : StylePreset) (structuredJson : Json)
  : Async (JsError + GenerateContentResponse) :=
  ai <- act NewGoogleGenAI ;;
  match ai with
  | Some e => throw e
  | None =>
      generationPromise <- act (GenerateContent (generationRequest stylePreset structuredJson)) ;;
      let timeoutPromise := rejectAfter GENERATION_TIMEOUT_MS (Error MSG_TIMED_OUT) in
      await (Promise_race [generationPromise; timeoutPromise])
  end.

(** [e.message || fallback]. *)
Definition message_or (e : JsError) (fallback : string) : string :=
  match message e with
  | Some m => if JsString.truthy m then m else fallback
  | None => fallback
  end.

(** The [try] block of the handler: up to the response (lines 236-270), and
    all of it. *)
Definition requestGeneration (originalImage : File) (stylePreset : StylePreset)
  : Async (JsError + GenerateContentResponse) :=
  structuredJson <-? extractStructuredJson originalImage ;;
  generate stylePreset structuredJson.

Definition generateVariantsBody (originalImage : File) (stylePreset : StylePreset)
  : Async (JsError + unit) :=
  response <-? requestGeneration originalImage stylePreset ;;
  publishFromResponse response.

(** The handler closes over the state of the render it was created in:
    [snap]. *)
Definition handleGenerateVariants (snap : AppState) : Async unit :=
  match originalImage snap with
  | None => set (setError (fun _ => Some MSG_UPLOAD_FIRST))
  | Some originalImage =>
      set (setIsLoading (fun _ => true)) ;;;
      set (setCompareOn (fun _ => false)) ;;;
      set (setError (fun _ => None)) ;;;
      set (setVariants (fun _ => [])) ;;;
      try_finally
        (try_catch (generateVariantsBody originalImage (stylePreset snap))
           (fun e => set (setError (fun _ => Some (message_or e MSG_GENERATE_DEFAULT))) ;;; ok tt))
        (set (setIsLoading (fun _ => false))) ;;;
      Ret tt
  end.

(** ** The edit flow: [handleApplyTweak] *)

Definition MSG_TWEAK_NOT_FOUND : string := "Could not find the variant to tweak.".
Definition MSG_INVALID_DATA_URL : string := "Invalid data URL format for the variant image.".
Definition MSG_NO_NEW_IMAGE : string := "The model did not return a new image for the tweak.".
Definition MSG_TWEAK_FAILED : string := "Sorry, the tweak could not be applied. Please try again.".

Definition tweakRequestParameters (mimeType base64ImageData tweakText : string)
  : GenerateContentParameters :=
  let originalImagePart := imagePart {| data := Some base64ImageData; mimeType := Some mimeType |} in
  let promptPart := textPart tweakPrompt in
  let tweakRequestPart := textPart tweakText in
  {| model := "gemini-2.5-flash-image-preview";
     contents := [promptPart; originalImagePart; tweakRequestPart];
     config := responseModalities [IMAGE; TEXT] |}.

(** [response.candidates?.[0]?.content?.parts?.find(p => p.inlineData)]
    followed by [imagePart?.inlineData]. *)
Definition response_image (response : GenerateContentResponse) : option Blob :=
  match response_parts response with
  | Some parts =>
      match List.find has_inlineData parts with
      | Some imagePart => inlineData imagePart
      | None => None
      end
  | None => None
  end.

(** The update passed to [setVariants] (lines 363-374). *)
Definition applyTweak (variantId newSourceGraphicUrl newDisplayImageUrl : string)
  (currentVariants : list Variant) : list Variant :=
  List.map
    (fun v =>
       if String.eqb (id v) variantId then
         {| id := id v;
            sourceGraphicUrl := newSourceGraphicUrl;
            displayImageUrl := newDisplayImageUrl;
            truthLockStatus := modified |}
       else v)
    currentVariants.

(** The [try] block of the handler: up to the response (lines 321-354), what
    is done with it (lines 356-377), and all of it. *)
Definition requestTweak (variantToTweak : Variant) (tweakText : string)
  : Async (JsError + GenerateContentResponse) :=
  ai <- act NewGoogleGenAI ;;
  match ai with
  | Some e => throw e
  | None =>
      match JsString.match_data_url (sourceGraphicUrl variantToTweak) with
      | None => throw (Error MSG_INVALID_DATA_URL)
      | Some (mimeType, base64ImageData) =>
          pending <- act (GenerateContent (tweakRequestParameters mimeType base64ImageData tweakText)) ;;
          await pending
      end
  end.

Definition applyResponse (variantId : string) (response : GenerateContentResponse)
  : Async (JsError + unit) :=
  match response_image response with
  | Some blob =>
      let newSourceGraphicUrl := dataUrl blob in
      newDisplayImageUrl <-? processFinalImage_default newSourceGraphicUrl ;;
      set (setVariants (applyTweak variantId newSourceGraphicUrl newDisplayImageUrl)) ;;;
      ok tt
  | None => throw (Error MSG_NO_NEW_IMAGE)
  end.

Definition applyTweakBody (variantToTweak : Variant) (variantId tweakText : string)
  : Async (JsError + unit) :=
  response <-? requestTweak variantToTweak tweakText ;;
  applyResponse variantId response.

Definition handleApplyTweak (variantId tweakText : string) (snap : AppState) : Async unit :=
  set (setIsTweaking (fun _ => true)) ;;;
  set (setError (fun _ => None)) ;;;
  match List.find (fun v => String.eqb (id v) variantId) (variants snap) with
  | None =>
      set (setError (fun _ => Some MSG_TWEAK_NOT_FOUND)) ;;;
      set (setIsTweaking (fun _ => false))
  | Some variantToTweak =>
      try_finally
        (try_catch (applyTweakBody variantToTweak variantId tweakText)
           (fun _ => set (setError (fun _ => Some MSG_TWEAK_FAILED)) ;;; ok tt))
        (set (setIsTweaking (fun _ => false))) ;;;
      Ret tt
  end.

(** ** The other handlers *)

Definition handleImageUpload (files : option (list File)) : Async unit :=
  set (setError (fun _ => None)) ;;;
  set (setVariants (fun _ => [])) ;;;
  set (setCompareOn (fun _ => false)) ;;;
  match files with
  | Some (file :: _) => set (setOriginalImage (fun _ => Some file))
  | _ => Ret tt
  end.

Definition handleStylePresetChange (preset : StylePreset) : Async unit :=
  set (setStylePreset (fun _ => preset)).

Definition onCompareToggle : Async unit := set (setCompareOn negb).

Definition handleImproveSlide (snap : AppState) : Async unit :=
  match variants snap with
  | first :: _ =>
      if JsString.truthy (trim (tweakRequest snap))
      then handleApplyTweak (id first) (tweakRequest snap) snap
      else handleGenerateVariants snap
  | [] => handleGenerateVariants snap
  end.

Definition MSG_EXPORT_NOT_FOUND : string := "Could not find the specified variant to export.".
Definition MSG_EXPORT_PROCESS : string := "Could not process the image for export. Please try again.".
Definition MSG_EXPORT_FAILED : string := "Could not export the image. Please try again.".

Definition clickDownload (exportUrl : string) : Async unit :=
  thrown <- act (ClickDownloadLink exportUrl "slide_surgeon_export.png") ;;
  match thrown with
  | Some _ => set (setError (fun _ => Some MSG_EXPORT_FAILED))
  | None => Ret tt
  end.

Definition onExportPng (variantId : string) (snap : AppState) : Async unit :=
  match List.find (fun v => String.eqb (id v) variantId) (variants snap) with
  | None => set (setError (fun _ => Some MSG_EXPORT_NOT_FOUND))
  | Some variantToExport =>
      if JsString.truthy (displayImageUrl variantToExport)
      then clickDownload (displayImageUrl variantToExport)
      else
        fallback <- processFinalImage_default (sourceGraphicUrl variantToExport) ;;
        match fallback with
        | inr exportUrl => clickDownload exportUrl
        | inl _ => set (setError (fun _ => Some MSG_EXPORT_PROCESS))
        end
  end.

(** ** The application as a transition system *)

(** What the user can do: each event calls one handler of [App] with the
    state of the latest render. *)
Inductive Event : Type :=
| FileChange (files : option (list File))
| StyleChange (preset : StylePreset)
| CompareToggle
| TweakChange (value : string)
| Improve
| ExportClick.

Definition handler (ev : Event) (snap : AppState) : Async unit :=
  match ev with
  | FileChange files => handleImageUpload files
  | StyleChange preset => handleStylePresetChange preset
  | CompareToggle => onCompareToggle
  | TweakChange value => set (setTweakRequest (fun _ => value))
  | Improve => handleImproveSlide snap
  | ExportClick =>
      match variants snap with
      | first :: _ => onExportPng (id first) snap
      | [] => Ret tt
      end
  end.

(** The component state and the handler invocations still under way. *)
Record System : Type := { state : AppState; tasks : list (Async unit) }.

Definition initialSystem : System := {| state := initialState; tasks := [] |}.

(** One step: the user does something, or one invocation goes on by a setter
    call, by the result of an interaction, or by returning. Invocations
    interleave freely; nothing is assumed of what the runtime answers. *)
Inductive step : System -> System -> Prop :=
| step_event (sys : System) (ev : Event) :
    step sys {| state := state sys; tasks := tasks sys ++ [handler ev (state sys)] |}
| step_set (sys : System) (i : nat) (f : AppState -> AppState) (k : Async unit) :
    tasks sys !! i = Some (SetState f k) ->
    step sys {| state := f (state sys); tasks := <[i := k]> (tasks sys) |}
| step_act (sys : System) (i : nat) (a : Action) (k : Reply a -> Async unit) (r : Reply a) :
    tasks sys !! i = Some (Act a k) ->
    step sys {| state := state sys; tasks := <[i := k r]> (tasks sys) |}
| step_ret (sys : System) (i : nat) :
    tasks sys !! i = Some (Ret tt) ->
    step sys {| state := state sys; tasks := delete i (tasks sys) |}.

Inductive reachable : System -> Prop :=
| reachable_initial : reachable initialSystem
| reachable_step (sys sys' : System) : reachable sys -> step sys sys' -> reachable sys'.

End Handlers.

(** ** The fixtures of [demo-data.ts] *)

Definition roadmap_task (taskName owner timeline status : string) : Json :=
  JObj [("taskName", JStr taskName); ("owner", JStr owner);
        ("timeline", JStr timeline); ("status", JStr status)].

Definition roadmap_png : Json :=
  JObj [("tasks", JArr [
    roadmap_task "Launch Beta Program" "Product Team" "Q1 2024" "Completed";
    roadmap_task "User Feedback Analysis" "UX Research" "Q2 2024" "In Progress";
    roadmap_task "V2 Feature Planning" "Product Team" "Q3 2024" "Not Started";
    roadmap_task "Public Launch Campaign" "Marketing" "Q4 2024" "Not Started"])].

Definition survey_datum (label : string) (value : Q) : Json :=
  JObj [("label", JStr label); ("value", JNum value)].

Definition survey_png : Json :=
  JObj [("questions", JArr [
    JObj [("questionText", JStr "How satisfied are you with our product?");
          ("data", JArr [survey_datum "Very Satisfied" 45; survey_datum "Satisfied" 30;
                         survey_datum "Neutral" 15; survey_datum "Unsatisfied" 10])];
    JObj [("questionText", JStr "Which feature is most important to you?");
          ("data", JArr [survey_datum "Reporting" 55; survey_datum "Integrations" 25;
                         survey_datum "UI/UX" 15; survey_datum "Support" 5])]])].

Definition flowchart_node (id label : string) : Json :=
  JObj [("id", JStr id); ("label", JStr label)].

Definition flowchart_edge (source target : string) : Json :=
  JObj [("source", JStr source); ("target", JStr target)].

(** The file at hand ends after the fifth edge; [more_edges] stands for the
    rest of the list. *)
Definition flowchart_png (more_edges : list Json) : Json :=
  JObj [("nodes", JArr [
          flowchart_node "start" "User Submits Request";
          flowchart_node "approval" "Manager Approval?";
          flowchart_node "process" "Process Request";
          flowchart_node "notify_approved" "Notify User (Approved)";
          flowchart_node "notify_denied" "Notify User (Denied)";
          flowchart_node "end" "End"]);
        ("edges", JArr ([
          flowchart_edge "start" "approval";
          flowchart_edge "approval" "process";
          flowchart_edge "approval" "notify_denied";
          flowchart_edge "process" "notify_approved";
          flowchart_edge "notify_approved" "end"] ++ more_edges))].

(** The object literal [DEMO_DATA]: a later entry of the same name replaces
    an earlier one. [more_entries] stands for what may follow
    [flowchart.png] in the part of the file that is not at hand. *)
Definition DEMO_DATA (more_edges : list Json) (more_entries : list (string * Json))
  : gmap string Json :=
  foldl (fun m entry => <[entry.1 := entry.2]> m) ∅
    ([("roadmap.png", roadmap_png);
      ("survey.png", survey_png);
      ("flowchart.png", flowchart_png more_edges)] ++ more_entries).

(** ** Vocabulary of the properties *)

(** [all_updates P p]: every update [p] can pass to a setter satisfies [P]. *)
Fixpoint all_updates {A : Type} (P : (AppState -> AppState) -> Prop) (p : Async A) : Prop :=
  match p with
  | Ret _ => True
  | SetState f k => P f /\ all_updates P k
  | Act a k => forall r : Reply a, all_updates P (k r)
  | Hang => True
  end.

(** A program that calls no setter. *)
Definition silent {A : Type} (p : Async A) : Prop := all_updates (fun _ => False) p.

(** The variant the generation flow publishes for the image part [blob] of
    the response, decoded as [img]. *)
Definition publishedVariant {runtime : JsRuntime} (o : Oracle) (blob : Blob) (img : Image.t) : Variant :=
  {| id := o RandomUUID;
     sourceGraphicUrl := dataUrl blob;
     displayImageUrl := toDataURL (composite (dataUrl blob) "#FFFFFF" 1920 img);
     truthLockStatus := verified |}.

(** The state in which the [try] block of [handleGenerateVariants] starts:
    after the four setter calls of lines 230-233. *)
Definition generationStarted (s : AppState) : AppState :=
  setVariants (fun _ => [])
    (setError (fun _ => None)
       (setCompareOn (fun _ => false)
          (setIsLoading (fun _ => true) s))).

(** A response lacks the title when no part has a non-empty [text], and the
    image when no part has [inlineData]; a response with no list of parts
    lacks both. *)
Definition lacks_text (response : GenerateContentResponse) : bool :=
  match response_parts response with
  | Some ps => negb (existsb has_text ps)
  | None => true
  end.

Definition lacks_image (response : GenerateContentResponse) : bool :=
  match response_parts response with
  | Some ps => negb (existsb has_inlineData ps)
  | None => true
  end.

(** [!parts || parts.length < 2]. *)
Definition fewer_than_two_parts (response : GenerateContentResponse) : bool :=
  match response_parts response with
  | Some ps => (length ps <? 2)%nat
  | None => true
  end.


(** The states [handleGenerateVariants] goes through when its [try] block
    throws an exception with the message [msg], started with an image in
    state [s]. *)
Definition failedGeneration (msg : string) (s : AppState) : list AppState :=
  let s1 := setIsLoading (fun _ => true) s in
  let s2 := setCompareOn (fun _ => false) s1 in
  let s3 := setError (fun _ => None) s2 in
  let s4 := setVariants (fun _ => []) s3 in
  let s5 := setError (fun _ => Some msg) s4 in
  let s6 := setIsLoading (fun _ => false) s5 in
  [s1; s2; s3; s4; s5; s6].

(** The interactions of the Content Extractor: reading the uploaded file and
    the request to the extraction model. *)
Definition is_extractor_action (a : Action) : bool :=
  match a with
  | ReadAsDataURL _ => true
  | GenerateContent params => String.eqb (model params) "gemini-2.5-flash"
  | _ => false
  end.

(** What the flow may do once the structured description is at hand. *)
Definition generator_side {runtime : JsRuntime} (style : StylePreset) (structuredJson : Json) (a : Action) : Prop :=
  match a with
  | NewGoogleGenAI | GetContext2d | LoadImage _ | RandomUUID => True
  | GenerateContent params => params = generationRequest style structuredJson
  | _ => False
  end.

(** An update keeps an invariant of the state. *)
Definition keeps (Inv : AppState -> Prop) (f : AppState -> AppState) : Prop :=
  forall x, Inv x -> Inv (f x).

(** The list of variants has length zero or one. *)
Definition at_most_one (s : AppState) : Prop := (length (variants s) <= 1)%nat.

(** Every variant held is [verified] or [modified]. *)
Definition settled (s : AppState) : Prop :=
  Forall (fun v => truthLockStatus v = verified \/ truthLockStatus v = modified) (variants s).

(** There is no variant unless an image was uploaded. *)
Definition image_before_variant (s : AppState) : Prop :=
  originalImage s = None -> variants s = [].

Definition has_image (s : AppState) : Prop := originalImage s <> None.

(** The unit roundoff of binary64. *)
Definition eps : Q := 1 # 9007199254740992.

(** A rational that needs no rounding: [m * 2^z] with [|m| < 2^53]. *)
Definition representable (x : Q) : Prop :=
  exists m z : Z, (Z.abs m < 2 ^ 53)%Z /\ (x == inject_Z m * 2 ^ z)%Q.

(** A millionth of a pixel. *)
Definition tolerance : Q := 1 # 1000000.

(** [s] holds the character [c]. *)
Fixpoint has_char (c : ascii) (s : string) : bool :=
  match s with
  | EmptyString => false
  | String a s' => if Ascii.eqb a c then true else has_char c s'
  end.

(** [p] can return [a]: it does for some answers of the runtime. *)
Fixpoint returns {A : Type} (p : Async A) (a : A) : Prop :=
  match p with
  | Ret x => x = a
  | SetState _ k => returns k a
  | Act act h => exists r : Reply act, returns (h r) a
  | Hang => False
  end.

(** The two images of a variant belong together: the raw image is the data
    URL of an image part, and the display image is what the compositor made
    of that raw image at the default background and width. *)
Definition composed {runtime : JsRuntime} (v : Variant) : Prop :=
  (exists blob : Blob, sourceGraphicUrl v = dataUrl blob) /\
  (exists img : Image.t,
      displayImageUrl v = toDataURL (composite (sourceGraphicUrl v) "#FFFFFF" 1920 img)).

Definition well_composed {runtime : JsRuntime} (s : AppState) : Prop :=
  Forall composed (variants s).

(** ** Sample inputs *)

(** A runtime with stand-ins for the library functions. *)
Definition sampleRuntime : JsRuntime :=
  {| JSON_stringify := fun _ => "{}";
     JSON_parse := fun _ => inr (JObj []);
     trim := fun t => t;
     response_text := fun _ => Some "{}";
     toDataURL := fun _ => "data:image/png;base64,iVBORw0KGgo=";
     typeError := Error "TypeError" |}.

Definition responseWith (ps : list Part) : GenerateContentResponse :=
  {| candidates := Some [{| content := Some {| parts := Some ps |} |}] |}.

Definition pngBlob : Blob := {| mimeType := Some "image/png"; data := Some "iVBORw0KGgo=" |}.

(** A run in which everything works and the generation service answers as
    [generation] says. *)
Definition oracleWith (generation : Promise GenerateContentResponse) : Oracle :=
  fun a =>
    match a return Reply a with
    | NewGoogleGenAI => None
    | ReadAsDataURL _ => Settles 5 (inr "data:image/png;base64,iVBORw0KGgo=")
    | GenerateContent _ => generation
    | GetContext2d => true
    | LoadImage _ => Settles 1 (inr {| Image.width := 1024; Image.height := 1024 |})
    | RandomUUID => "123e4567-e89b-12d3-a456-426614174000"
    | ClickDownloadLink _ _ => None
    end.

Definition roadmapFile : File := {| name := "roadmap.png"; type := "image/png" |}.
Definition photoFile : File := {| name := "photo.png"; type := "image/png" |}.

Definition uploaded (f : File) : AppState := setOriginalImage (fun _ => Some f) initialState.

(** The table with nothing after what the file at hand shows. *)
Definition shownFixtures : gmap string Json := DEMO_DATA [] [].

Definition titlePart : Part := textPart "Product roadmap 2024".

(** Responses: title and image, image alone, title alone, no part. *)
Definition fullResponse : GenerateContentResponse := responseWith [titlePart; imagePart pngBlob].
Definition imageOnlyResponse : GenerateContentResponse := responseWith [imagePart pngBlob].
Definition titleOnlyResponse : GenerateContentResponse := responseWith [titlePart].
Definition emptyResponse : GenerateContentResponse := responseWith [].

(** The service answers after 1.2 seconds, or after 61 seconds. *)
Definition promptOracle (response : GenerateContentResponse) : Oracle :=
  oracleWith (Settles 1200 (inr response)).

(** The state once [roadmap.png] was uploaded and a variant generated. *)
Definition generatedState : AppState :=
  final_state (promptOracle fullResponse)
    (handleGenerateVariants (runtime := sampleRuntime) shownFixtures (uploaded roadmapFile))
    (uploaded roadmapFile).

Definition squareImage : Image.t := {| Image.width := 1024; Image.height := 1024 |}.

Definition sampleId : string := "123e4567-e89b-12d3-a456-426614174000".

(** The variant of [generatedState]. *)
Definition generatedVariant : Variant :=
  publishedVariant (runtime := sampleRuntime) (promptOracle fullResponse) pngBlob squareImage.

(** An edit of the generated variant, answered by [response]. *)
Definition sampleEdit : AppState -> Async unit :=
  handleApplyTweak (runtime := sampleRuntime) sampleId "make the bars blue".

(** The application after the upload and after the generation. *)
Definition uploadedSystem : System := {| state := uploaded roadmapFile; tasks := [] |}.
Definition generatedSystem : System := {| state := generatedState; tasks := [] |}.

(** A run in which the uploaded file cannot be read. *)
Definition unreadableOracle : Oracle :=
  fun a =>
    match a return Reply a with
    | ReadAsDataURL _ => Settles 5 (inl (Error "NotReadableError"))
    | other => promptOracle fullResponse other
    end.

(** [JSON.stringify(v, null, 2)] for the values of the samples: objects
    whose keys are distinct and not array indices, and numbers that are
    integers (another number is beyond this stand-in and printed as [null]).
    A string is quoted with the escapes of JSON. *)
Definition hexDigit (n : nat) : string :=
  String.substring n 1 "0123456789abcdef".

Definition quoteJsonChar (c : ascii) : string :=
  let n := nat_of_ascii c in
  if Nat.eqb n 34 then String "\" JsString.dquote
  else if Nat.eqb n 92 then "\\"
  else if Nat.eqb n 8 then "\b"
  else if Nat.eqb n 9 then "\t"
  else if Nat.eqb n 10 then "\n"
  else if Nat.eqb n 12 then "\f"
  else if Nat.eqb n 13 then "\r"
  else if Nat.ltb n 32 then "\u00" ++ hexDigit (Nat.div n 16) ++ hexDigit (Nat.modulo n 16)
  else String c EmptyString.

Fixpoint quoteJsonText (s : string) : string :=
  match s with
  | EmptyString => EmptyString
  | String c s' => quoteJsonChar c ++ quoteJsonText s'
  end.

Definition quoteJson (s : string) : string :=
  JsString.dquote ++ quoteJsonText s ++ JsString.dquote.

Definition newline : string := String (ascii_of_nat 10) EmptyString.

Fixpoint join (sep : string) (pieces : list string) : string :=
  match pieces with
  | [] => EmptyString
  | [piece] => piece
  | piece :: rest => piece ++ sep ++ join sep rest
  end.

Fixpoint stringify (indent : string) (j : Json) {struct j} : string :=
  let inner := indent ++ "  " in
  match j with
  | JNull => "null"
  | JBool b => if b then "true" else "false"
  | JNum q =>
      match Qden (Qred q) with
      | xH => NilZero.string_of_int (Z.to_int (Qnum (Qred q)))
      | _ => "null"
      end
  | JStr s => quoteJson s
  | JArr [] => "[]"
  | JArr items =>
      "[" ++ newline ++ inner
        ++ join ("," ++ newline ++ inner) (List.map (stringify inner) items)
        ++ newline ++ indent ++ "]"
  | JObj [] => "{}"
  | JObj fields =>
      "{" ++ newline ++ inner
        ++ join ("," ++ newline ++ inner)
             (List.map (fun field => quoteJson (fst field) ++ ": " ++ stringify inner (snd field))
                fields)
        ++ newline ++ indent ++ "}"
  end.

(** A runtime that prints JSON, with stand-ins for the rest. *)
Definition printingRuntime : JsRuntime :=
  {| JSON_stringify := stringify EmptyString;
     JSON_parse := fun _ => inr (JObj []);
     trim := fun t => t;
     response_text := fun _ => Some "{}";
     toDataURL := fun _ => "data:image/png;base64,iVBORw0KGgo=";
     typeError := Error "TypeError" |}.

(** The generation service never answers. *)
Definition stalledOracle : Oracle := oracleWith Pending.

(** The generation service rejects the request with an error that has no
    message. *)
Definition refusingOracle : Oracle := oracleWith (Settles 10 (inl {| message := None |})).

(** The image of the response never finishes loading. *)
Definition undecodedOracle : Oracle :=
  fun a =>
    match a return Reply a with
    | LoadImage _ => Pending
    | other => promptOracle fullResponse other
    end.

(** No drawing context is to be had. *)
Definition contextlessOracle : Oracle :=
  fun a =>
    match a return Reply a with
    | GetContext2d => false
    | other => promptOracle fullResponse other
    end.

(** A runtime in which the extraction model answers [null]. *)
Definition nullRuntime : JsRuntime :=
  {| JSON_stringify := fun _ => "null";
     JSON_parse := fun _ => inr JNull;
     trim := fun t => t;
     response_text := fun _ => Some "null";
     toDataURL := fun _ => "data:image/png;base64,iVBORw0KGgo=";
     typeError := Error "Cannot read properties of null (reading 'error')" |}.

(** The generated state with an instruction typed in. *)
Definition instructedState : AppState :=
  setTweakRequest (fun _ => "make the bars blue") generatedState.

(** A variant whose display image is missing, and a state that holds it. *)
Definition bareVariant : Variant :=
  {| id := sampleId;
     sourceGraphicUrl := "data:image/png;base64,iVBORw0KGgo=";
     displayImageUrl := EmptyString;
     truthLockStatus := verified |}.

Definition bareState : AppState := setVariants (fun _ => [bareVariant]) (uploaded roadmapFile).

(** * Properties *)

Local Open Scope list_scope.

(** ** String functions *)

Lemma append_cons (x : ascii) (a b : string) :
  (String x a ++ b)%string = String x (a ++ b)%string.
Proof. reflexivity. Qed.

Lemma append_nil (b : string) : (EmptyString ++ b)%string = b.
Proof. reflexivity. Qed.

Lemma string_app_assoc (a b c : string) : ((a ++ b) ++ c = a ++ (b ++ c))%string.
Proof.
  induction a as [|x a IH]; rewrite ?append_cons, ?append_nil; [reflexivity|].
  f_equal. exact IH.
Qed.

Lemma prefix_app (p a : string) : String.prefix p (p ++ a)%string = true.
Proof.
  induction p as [|c p IH]; rewrite ?append_cons, ?append_nil; simpl; [destruct a; reflexivity|].
  destruct (ascii_dec c c) as [_|Hne]; [exact IH|contradiction].
Qed.

Lemma prefix_at_start (p s a : string) : s = (p ++ a)%string -> String.prefix p s = true.
Proof. intros ->. apply prefix_app. Qed.

Lemma prefix_split (p s : string) :
  String.prefix p s = true -> s = (p ++ JsString.drop (String.length p) s)%string.
Proof.
  revert s. induction p as [|c p IH]; intros s; simpl; [reflexivity|].
  destruct s as [|a s]; simpl; [discriminate|].
  destruct (ascii_dec c a) as [->|Hne]; [|discriminate].
  intros Hp. rewrite append_cons, <- (IH s Hp). reflexivity.
Qed.

Lemma drop_app (p a : string) : JsString.drop (String.length p) (p ++ a)%string = a.
Proof. induction p as [|c p IH]; rewrite ?append_cons, ?append_nil; simpl; [destruct a; reflexivity|exact IH]. Qed.

Lemma split_first_spec (pat s : string) :
  match JsString.split_first pat s with
  | Some (before, after) =>
      s = (before ++ pat ++ after)%string /\
      forall before' after', s = (before' ++ pat ++ after')%string ->
        (String.length before <= String.length before')%nat
  | None => forall before' after', s <> (before' ++ pat ++ after')%string
  end.
Proof.
  induction s as [|c s IH].
  - cbn [JsString.split_first]. destruct (String.prefix pat "") eqn:Hp; cbv beta iota.
    + split; [apply (prefix_split pat "" Hp)|]. intros; simpl; lia.
    + intros b a Heq. destruct b as [|x b]; [|discriminate].
      rewrite append_nil in Heq. rewrite (prefix_at_start pat _ a Heq) in Hp. discriminate.
  - cbn [JsString.split_first].
    destruct (String.prefix pat (String c s)) eqn:Hp; cbv beta iota.
    + split; [apply (prefix_split pat _ Hp)|]. intros; simpl; lia.
    + destruct (JsString.split_first pat s) as [[before after]|].
      * destruct IH as [Heq Hmin]. split; [rewrite append_cons, <- Heq; reflexivity|].
        intros [|x b'] a' Heq'.
        -- rewrite append_nil in Heq'. rewrite (prefix_at_start pat _ a' Heq') in Hp. discriminate.
        -- rewrite append_cons in Heq'. injection Heq' as _ Heq'. simpl.
           specialize (Hmin b' a' Heq'). lia.
      * intros [|x b'] a' Heq'.
        -- rewrite append_nil in Heq'. rewrite (prefix_at_start pat _ a' Heq') in Hp. discriminate.
        -- rewrite append_cons in Heq'. injection Heq' as _ Heq'. exact (IH b' a' Heq').
Qed.

Lemma expand_replacement_plain (repl matched before after : string) :
  has_char "$" repl = false ->
  JsString.expand_replacement repl matched before after = repl.
Proof.
  induction repl as [|c r IH]; [reflexivity|].
  cbn [has_char]. destruct (Ascii.eqb c "$") eqn:Hc; [discriminate|].
  intros Hr. apply Ascii.eqb_neq in Hc.
  assert (Hstep : JsString.expand_replacement (String c r) matched before after
                  = String c (JsString.expand_replacement r matched before after)).
  { destruct c as [[] [] [] [] [] [] [] []]; try reflexivity. contradiction Hc. reflexivity. }
  rewrite Hstep, (IH Hr). reflexivity.
Qed.

(** X6. [replace] with a string pattern changes the first occurrence of the
    pattern and nothing else: a text without the pattern is returned as it
    is, and otherwise the text before the first occurrence and all the text
    after it stay, later occurrences included. The replacement is inserted
    verbatim when it holds no dollar sign. *)
Theorem replace_changes_first_occurrence_only (pat repl s : string) :
  has_char "$" repl = false ->
  ((forall before after, s <> (before ++ pat ++ after)%string) /\
   JsString.replace pat repl s = s)
  \/ exists before after,
       s = (before ++ pat ++ after)%string /\
       (forall before' after', s = (before' ++ pat ++ after')%string ->
          (String.length before <= String.length before')%nat) /\
       JsString.replace pat repl s = (before ++ repl ++ after)%string.
Proof.
  intros Hplain. unfold JsString.replace.
  pose proof (split_first_spec pat s) as Hspec.
  destruct (JsString.split_first pat s) as [[before after]|].
  - right. exists before, after. destruct Hspec as [Heq Hmin].
    rewrite (expand_replacement_plain _ _ _ _ Hplain). auto.
  - left. auto.
Qed.

Lemma drop_nil (n : nat) : JsString.drop n EmptyString = EmptyString.
Proof. destruct n; reflexivity. Qed.

Lemma truthy_nonempty (d : string) : JsString.truthy d = true <-> d <> EmptyString.
Proof. destruct d; simpl; split; congruence. Qed.

Lemma truthy_empty (d : string) : JsString.truthy d = false -> d = EmptyString.
Proof. destruct d; simpl; congruence. Qed.

Lemma split_last_spec (sep s : string) :
  match JsString.split_last sep s with
  | Some (m, d) =>
      s = (m ++ sep ++ d)%string /\ d <> EmptyString /\
      forall m' d', s = (m' ++ sep ++ d')%string -> d' <> EmptyString ->
        (String.length m' <= String.length m)%nat
  | None => forall m' d', s = (m' ++ sep ++ d')%string -> d' = EmptyString
  end.
Proof.
  induction s as [|c s IH].
  - assert (Hnone : JsString.split_last sep "" = None).
    { cbn [JsString.split_last]. rewrite drop_nil. destruct (String.prefix sep ""); reflexivity. }
    rewrite Hnone. intros [|x m'] d' Heq; [|discriminate].
    rewrite append_nil in Heq. destruct sep; [|discriminate].
    rewrite append_nil in Heq. congruence.
  - cbn [JsString.split_last].
    destruct (JsString.split_last sep s) as [[m1 d1]|].
    + destruct IH as (Heq & Hd & Hmax). split; [rewrite append_cons, <- Heq; reflexivity|].
      split; [exact Hd|]. intros [|x m'] d' Heq' Hd'; [simpl; lia|].
      rewrite append_cons in Heq'. injection Heq' as _ Heq'.
      simpl. specialize (Hmax m' d' Heq' Hd'). lia.
    + destruct (String.prefix sep (String c s)) eqn:Hp.
      * destruct (JsString.truthy (JsString.drop (String.length sep) (String c s))) eqn:Hd.
        -- split; [rewrite append_nil; apply (prefix_split _ _ Hp)|].
           split; [apply truthy_nonempty; exact Hd|].
           intros [|x m'] d' Heq' Hd'; [simpl; lia|].
           rewrite append_cons in Heq'. injection Heq' as _ Heq'.
           contradiction (Hd' (IH m' d' Heq')).
        -- intros [|x m'] d' Heq'.
           ++ rewrite append_nil in Heq'. apply truthy_empty in Hd.
              rewrite Heq', drop_app in Hd. exact Hd.
           ++ rewrite append_cons in Heq'. injection Heq' as _ Heq'. exact (IH m' d' Heq').
      * intros [|x m'] d' Heq'.
        -- rewrite append_nil in Heq'. rewrite (prefix_at_start sep _ d' Heq') in Hp. discriminate.
        -- rewrite append_cons in Heq'. injection Heq' as _ Heq'. exact (IH m' d' Heq').
Qed.

Lemma append_inv_head (p a b : string) : (p ++ a)%string = (p ++ b)%string -> a = b.
Proof.
  induction p as [|c p IH]; rewrite ?append_cons, ?append_nil; [auto|].
  intros Heq. injection Heq as Heq. exact (IH Heq).
Qed.

(** X7. What the pattern of the edit flow accepts is a data URL, and its two
    groups are the parts of it: the text is [data:], the first group,
    [;base64,] and the second group; both groups are non-empty and hold no
    line break; and the first group is greedy, no other reading of the text
    gives a longer one. *)
Theorem match_data_url_sound (url m d : string) :
  JsString.match_data_url url = Some (m, d) ->
  url = ("data:" ++ m ++ ";base64," ++ d)%string /\
  m <> EmptyString /\ d <> EmptyString /\
  JsString.has_line_terminator (m ++ ";base64," ++ d) = false /\
  forall m' d', url = ("data:" ++ m' ++ ";base64," ++ d')%string ->
    m' <> EmptyString -> d' <> EmptyString -> (String.length m' <= String.length m)%nat.
Proof.
  unfold JsString.match_data_url.
  destruct (String.prefix "data:" url) eqn:Hp; [|discriminate].
  pose proof (prefix_split _ _ Hp) as Hurl.
  change (String.length "data:") with 5%nat in Hurl.
  destruct (JsString.drop 5 url) as [|c rest]; [discriminate|].
  destruct (JsString.has_line_terminator (String c rest)) eqn:Hlt; [discriminate|].
  pose proof (split_last_spec ";base64," rest) as Hspec.
  destruct (JsString.split_last ";base64," rest) as [[m1 d1]|]; [|discriminate].
  intros Heq. injection Heq as <- <-.
  destruct Hspec as (Hrest & Hd & Hmax).
  assert (Hbody : (String c m1 ++ ";base64," ++ d1)%string = String c rest).
  { rewrite Hrest. reflexivity. }
  rewrite Hbody.
  split; [exact Hurl|]. split; [discriminate|]. split; [exact Hd|]. split; [exact Hlt|].
  intros [|x m'] d' Heq' Hm' Hd'; [contradiction|].
  rewrite Hurl in Heq'. apply append_inv_head in Heq'.
  rewrite append_cons in Heq'. injection Heq' as _ Heq'.
  simpl. specialize (Hmax m' d' Heq' Hd'). lia.
Qed.

Lemma split_last_without_semicolon (t : string) :
  has_char ";" t = false -> JsString.split_last ";base64," t = None.
Proof.
  induction t as [|a t IH]; [reflexivity|].
  cbn [has_char]. destruct (Ascii.eqb a ";") eqn:Ha; [discriminate|].
  intros Ht. cbn [JsString.split_last]. rewrite (IH Ht).
  apply Ascii.eqb_neq in Ha.
  assert (Hp : String.prefix ";base64," (String a t) = false).
  { cbn [String.prefix]. destruct (ascii_dec ";" a) as [<-|_]; [contradiction|reflexivity]. }
  rewrite Hp. reflexivity.
Qed.

Lemma split_last_data (m d : string) :
  d <> EmptyString -> has_char ";" d = false ->
  JsString.split_last ";base64," (m ++ ";base64," ++ d) = Some (m, d).
Proof.
  intros Hd Hsemi. induction m as [|c m IH].
  - rewrite append_nil.
    assert (Hrest : JsString.split_last ";base64," ("base64," ++ d)%string = None).
    { apply split_last_without_semicolon. exact Hsemi. }
    change (";base64," ++ d)%string with (String ";" ("base64," ++ d)%string).
    cbn [JsString.split_last]. rewrite Hrest.
    change (String ";" ("base64," ++ d)%string) with (";base64," ++ d)%string.
    rewrite prefix_app, drop_app.
    apply truthy_nonempty in Hd. rewrite Hd. reflexivity.
  - rewrite append_cons. cbn [JsString.split_last]. rewrite IH. reflexivity.
Qed.

Lemma match_data_url_of_parts (m d : string) :
  m <> EmptyString -> d <> EmptyString ->
  has_char ";" d = false ->
  JsString.has_line_terminator (m ++ ";base64," ++ d) = false ->
  JsString.match_data_url ("data:" ++ m ++ ";base64," ++ d) = Some (m, d).
Proof.
  intros Hm Hd Hsemi Hlt. unfold JsString.match_data_url.
  rewrite prefix_app.
  change 5%nat with (String.length "data:"). rewrite drop_app.
  destruct m as [|c m]; [contradiction|].
  rewrite append_cons in *. rewrite Hlt, (split_last_data m d Hd Hsemi). reflexivity.
Qed.

Lemma split_char_app (c : ascii) (a b : string) :
  has_char c a = false ->
  JsString.split_char c (a ++ String c b) = a :: JsString.split_char c b.
Proof.
  induction a as [|x a IH]; intros Ha.
  - rewrite append_nil. cbn [JsString.split_char]. rewrite Ascii.eqb_refl. reflexivity.
  - cbn [has_char] in Ha. destruct (Ascii.eqb x c) eqn:Hx; [discriminate|].
    rewrite append_cons. cbn [JsString.split_char]. rewrite Hx, (IH Ha). reflexivity.
Qed.

Lemma split_char_whole (c : ascii) (a : string) :
  has_char c a = false -> JsString.split_char c a = [a].
Proof.
  induction a as [|x a IH]; intros Ha; [reflexivity|].
  cbn [has_char] in Ha. destruct (Ascii.eqb x c) eqn:Hx; [discriminate|].
  cbn [JsString.split_char]. rewrite Hx, (IH Ha). reflexivity.
Qed.

(** X8. The data URL the flows build from an image part is read back by the
    pattern of the edit flow as the same MIME type and the same data, when
    both are non-empty, the data holds no semicolon (base64 text holds none)
    and there is no line break in either. *)
Theorem data_url_round_trip (m d : string) :
  m <> EmptyString -> d <> EmptyString ->
  has_char ";" d = false ->
  JsString.has_line_terminator (m ++ ";base64," ++ d) = false ->
  JsString.match_data_url (dataUrl {| mimeType := Some m; data := Some d |}) = Some (m, d).
Proof. intros Hm Hd Hsemi Hlt. apply match_data_url_of_parts; assumption. Qed.

Lemma StylePreset_text_plain (style : StylePreset) :
  has_char "$" (StylePreset_text style) = false.
Proof. destruct style; reflexivity. Qed.

(** ** Runs of composed programs *)

Lemma last_cons {A : Type} (x d : A) (l : list A) : List.last (x :: l) d = List.last l x.
Proof.
  revert x d. induction l as [|y l IH]; intros x d; [reflexivity|].
  change (List.last (x :: y :: l) d) with (List.last (y :: l) d).
  rewrite !IH. reflexivity.
Qed.

Lemma last_app_state {A : Type} (l l' : list A) (d : A) :
  List.last (l ++ l') d = List.last l' (List.last l d).
Proof.
  revert d. induction l as [|x l IH]; intros d; [reflexivity|].
  rewrite <- app_comm_cons, !last_cons. apply IH.
Qed.

Lemma run_bind {A B : Type} (o : Oracle) (m : Async A) (k : A -> Async B) (s : AppState) :
  run o (bind m k) s =
  match run o m s with
  | (states, acts, Some a) =>
      let '(states', acts', r) := run o (k a) (List.last states s) in
      ((states ++ states')%list, (acts ++ acts')%list, r)
  | (states, acts, None) => (states, acts, None)
  end.
Proof.
  revert s. induction m as [a|f m IH|a h IH|]; intros s; simpl.
  - destruct (run o (k a) s) as [[? ?] ?]. reflexivity.
  - rewrite IH. destruct (run o m (f s)) as [[states acts] [a|]]; [|reflexivity].
    rewrite last_cons.
    destruct (run o (k a) (List.last states (f s))) as [[? ?] ?]. reflexivity.
  - rewrite IH. destruct (run o (h (o a)) s) as [[states acts] [x|]]; [|reflexivity].
    destruct (run o (k x) (List.last states s)) as [[? ?] ?]. reflexivity.
  - reflexivity.
Qed.

Lemma run_bindE {A B : Type} (o : Oracle) (m : Async (JsError + A))
  (k : A -> Async (JsError + B)) (s : AppState) :
  run o (bindE m k) s =
  match run o m s with
  | (states, acts, Some (inr a)) =>
      let '(states', acts', r) := run o (k a) (List.last states s) in
      ((states ++ states')%list, (acts ++ acts')%list, r)
  | (states, acts, Some (inl e)) => (states, acts, Some (inl e))
  | (states, acts, None) => (states, acts, None)
  end.
Proof.
  unfold bindE. rewrite run_bind.
  destruct (run o m s) as [[states acts] [[e|a]|]]; try reflexivity.
  simpl. rewrite !app_nil_r. reflexivity.
Qed.

(** ** What the setter calls of a program are *)

Lemma all_updates_bind {A B : Type} P (m : Async A) (k : A -> Async B) :
  all_updates P m -> (forall a, all_updates P (k a)) -> all_updates P (bind m k).
Proof.
  intros Hm Hk. induction m as [a|f m IH|a h IH|]; simpl in *.
  - apply Hk.
  - destruct Hm as [Hf Hm]. split; [exact Hf | exact (IH Hm)].
  - intros r. apply IH, Hm.
  - exact I.
Qed.

Lemma all_updates_bindE {A B : Type} P (m : Async (JsError + A)) (k : A -> Async (JsError + B)) :
  all_updates P m -> (forall a, all_updates P (k a)) -> all_updates P (bindE m k).
Proof.
  intros Hm Hk. apply all_updates_bind; [exact Hm|].
  intros [e|a]; [exact I | apply Hk].
Qed.

Lemma all_updates_weaken {A : Type} (P P' : (AppState -> AppState) -> Prop) (p : Async A) :
  (forall f, P f -> P' f) -> all_updates P p -> all_updates P' p.
Proof.
  intros HPP'. induction p as [a|f p IH|a h IH|]; simpl; auto.
  intros [Hf Hp]. split; auto.
Qed.

Lemma all_updates_await {X : Type} P (p : Promise X) : all_updates P (await p).
Proof. destruct p; exact I. Qed.

Lemma silent_run {A : Type} (o : Oracle) (p : Async A) (s : AppState) :
  silent p -> states_of o p s = [].
Proof.
  unfold states_of. revert s.
  induction p as [a|f p IH|a h IH|]; intros s Hp; simpl in *.
  - reflexivity.
  - destruct Hp as [[] _].
  - specialize (IH (o a) s (Hp (o a))).
    destruct (run o (h (o a)) s) as [[states acts] r]. exact IH.
  - reflexivity.
Qed.

(** Along a run, an invariant that every update keeps holds in every state. *)
Lemma all_updates_run {A : Type} (Inv : AppState -> Prop) (o : Oracle) (p : Async A) (s : AppState) :
  all_updates (fun f => forall x, Inv x -> Inv (f x)) p ->
  Inv s -> Forall Inv (states_of o p s).
Proof.
  unfold states_of. revert s.
  induction p as [a|f p IH|a h IH|]; intros s Hp Hs; simpl in *.
  - constructor.
  - destruct Hp as [Hf Hp]. specialize (IH (f s) Hp (Hf s Hs)).
    destruct (run o p (f s)) as [[states acts] r]. constructor; auto.
  - specialize (IH (o a) s (Hp (o a)) Hs).
    destruct (run o (h (o a)) s) as [[states acts] r]. exact IH.
  - constructor.
Qed.

Lemma last_Forall_state {A : Type} (P : A -> Prop) (l : list A) (d : A) :
  Forall P l -> P d -> P (List.last l d).
Proof.
  intros Hl. revert d. induction Hl as [|x l Hx Hl IH]; intros d Hd; [exact Hd|].
  rewrite last_cons. apply IH. exact Hx.
Qed.

(** ** The shape of [try]/[catch]/[finally] *)

Lemma run_guarded (o : Oracle) (body : Async (JsError + unit))
  (recover : JsError -> AppState -> AppState) (cleanup : AppState -> AppState) (s : AppState) :
  run o (try_finally (try_catch body (fun e => set (recover e) ;;; ok tt)) (set cleanup) ;;; Ret tt) s =
  match run o body s with
  | (states, acts, Some (inr _)) =>
      ((states ++ [cleanup (List.last states s)])%list, acts, Some tt)
  | (states, acts, Some (inl e)) =>
      let s' := recover e (List.last states s) in
      ((states ++ [s'; cleanup s'])%list, acts, Some tt)
  | (states, acts, None) => (states, acts, None)
  end.
Proof.
  unfold try_finally, try_catch. rewrite !run_bind.
  destruct (run o body s) as [[states acts] [[e|[]]|]]; simpl;
    rewrite ?app_nil_r, ?last_app_state; simpl; rewrite ?app_nil_r;
    try reflexivity.
  rewrite <- app_assoc. reflexivity.
Qed.

(** ** The flows, piece by piece *)

Ltac updates_step :=
  match goal with
  | |- silent _ => unfold silent
  | |- all_updates _ (bind _ _) => apply all_updates_bind
  | |- all_updates _ (bindE _ _) => apply all_updates_bindE
  | |- all_updates _ (await _) => apply all_updates_await
  | |- all_updates _ (match ?x with _ => _ end) => destruct x
  | |- all_updates _ (if ?x then _ else _) => destruct x
  | |- all_updates _ (set _) => split
  | |- all_updates _ (act _) => intro
  | |- all_updates _ (throw _) => exact I
  | |- all_updates _ (ok _) => exact I
  | |- all_updates _ (Ret _) => exact I
  | |- all_updates _ Hang => exact I
  | |- forall _, _ => intro
  | |- _ /\ _ => split
  | |- True => exact I
  end.

Section FlowFacts.
Context {runtime : JsRuntime} (table : gmap string Json).

Lemma processFinalImage_silent (src bg : string) (w : Z) : silent (processFinalImage src bg w).
Proof. unfold processFinalImage. repeat updates_step. Qed.

Lemma runOcrOnImage_silent (f : File) : silent (runOcrOnImage f).
Proof. unfold runOcrOnImage, fileToBase64. repeat updates_step. Qed.

Lemma requestGeneration_silent (f : File) (style : StylePreset) :
  silent (requestGeneration table f style).
Proof.
  unfold requestGeneration, extractStructuredJson, generate.
  repeat updates_step; try apply runOcrOnImage_silent; repeat updates_step.
Qed.

Lemma requestTweak_silent (v : Variant) (tweakText : string) : silent (requestTweak v tweakText).
Proof. unfold requestTweak. repeat updates_step. Qed.


(** A program cannot read the state: what it does and returns depends on
    the oracle alone. *)
Lemma run_state_independent {A : Type} (o : Oracle) (p : Async A) (s s' : AppState) :
  actions_of o p s = actions_of o p s' /\ result_of o p s = result_of o p s'.
Proof.
  unfold actions_of, result_of. revert s s'.
  induction p as [a|f p IH|a h IH|]; intros s s'; simpl.
  - split; reflexivity.
  - specialize (IH (f s) (f s')).
    destruct (run o p (f s)) as [[? ?] ?], (run o p (f s')) as [[? ?] ?]. exact IH.
  - specialize (IH (o a) s s').
    destruct (run o (h (o a)) s) as [[? ?] ?], (run o (h (o a)) s') as [[? ?] ?].
    simpl in *. destruct IH as [-> ->]. split; reflexivity.
  - split; reflexivity.
Qed.

Lemma result_of_state {A : Type} (o : Oracle) (p : Async A) (s s' : AppState) :
  result_of o p s = result_of o p s'.
Proof. apply run_state_independent. Qed.

Lemma run_silent {A : Type} (o : Oracle) (p : Async A) (s : AppState) :
  silent p -> run o p s = ([], actions_of o p s, result_of o p s).
Proof.
  intros Hp. pose proof (silent_run o p s Hp) as Hs.
  unfold states_of, actions_of, result_of in *.
  destruct (run o p s) as [[? ?] ?]. simpl in *. subst. reflexivity.
Qed.

Lemma processFinalImage_run (o : Oracle) (src bg : string) (w : Z) (s : AppState) :
  run o (processFinalImage src bg w) s =
  if o GetContext2d then
    ([], [GetContext2d; LoadImage src],
     match o (LoadImage src) with
     | Settles _ (inr img) => Some (inr (toDataURL (composite src bg w img)))
     | Settles _ (inl _) => Some (inl (Error "Failed to load image for processing."))
     | Pending => None
     end)
  else ([], [GetContext2d], Some (inl (Error "Could not get canvas context"))).
Proof.
  unfold processFinalImage. simpl.
  destruct (o GetContext2d); simpl; [|reflexivity].
  destruct (o (LoadImage src)) as [t [e|img]|]; reflexivity.
Qed.

(** What [publishFromResponse] does, by the shape of the response. *)
Lemma publishFromResponse_run (o : Oracle) (response : GenerateContentResponse) (s : AppState) :
  (exists blob t img,
      response_image response = Some blob /\
      o (LoadImage (dataUrl blob)) = Settles t (inr img) /\
      states_of o (publishFromResponse response) s
        = [setVariants (fun _ => [publishedVariant o blob img]) s] /\
      result_of o (publishFromResponse response) s = Some (inr tt))
  \/ (states_of o (publishFromResponse response) s = [] /\
      result_of o (publishFromResponse response) s = None)
  \/ (exists e, states_of o (publishFromResponse response) s = [] /\
      result_of o (publishFromResponse response) s = Some (inl e)).
Proof.
  unfold publishFromResponse, response_image, states_of, result_of.
  destruct (response_parts response) as [ps|]; [|right; right; eexists; split; reflexivity].
  destruct (length ps <? 2)%nat; [right; right; eexists; split; reflexivity|].
  destruct (List.find has_text ps) as [tp|];
    [|destruct (List.find has_inlineData ps); right; right; eexists; split; reflexivity].
  destruct (List.find has_inlineData ps) as [ip|];
    [|right; right; eexists; split; reflexivity].
  destruct (inlineData ip) as [blob|]; [|right; right; eexists; split; reflexivity].
  rewrite run_bindE. unfold processFinalImage_default. rewrite processFinalImage_run.
  destruct (o GetContext2d); [|right; right; eexists; split; reflexivity].
  destruct (o (LoadImage (dataUrl blob))) as [t [e|img]|] eqn:Hload.
  - right; right; eexists; split; reflexivity.
  - left. exists blob, t, img.
    split; [reflexivity|]. split; [exact Hload|]. split; reflexivity.
  - right; left. split; reflexivity.
Qed.

Lemma run_set_bind {A : Type} (o : Oracle) (f : AppState -> AppState) (k : Async A) (s : AppState) :
  run o (set f ;;; k) s =
  let '(states, acts, r) := run o k (f s) in (f s :: states, acts, r).
Proof. reflexivity. Qed.

Lemma handleGenerateVariants_run (o : Oracle) (s : AppState) (f : File) :
  originalImage s = Some f ->
  run o (handleGenerateVariants table s) s =
  let s1 := setIsLoading (fun _ => true) s in
  let s2 := setCompareOn (fun _ => false) s1 in
  let s3 := setError (fun _ => None) s2 in
  let s4 := generationStarted s in
  match run o (generateVariantsBody table f (stylePreset s)) s4 with
  | (states, acts, Some (inr _)) =>
      (s1 :: s2 :: s3 :: s4 :: (states ++ [setIsLoading (fun _ => false) (List.last states s4)])%list,
       acts, Some tt)
  | (states, acts, Some (inl e)) =>
      let s' := setError (fun _ => Some (message_or e MSG_GENERATE_DEFAULT)) (List.last states s4) in
      (s1 :: s2 :: s3 :: s4 :: (states ++ [s'; setIsLoading (fun _ => false) s'])%list,
       acts, Some tt)
  | (states, acts, None) => (s1 :: s2 :: s3 :: s4 :: states, acts, None)
  end.
Proof.
  intros Hf. unfold handleGenerateVariants. rewrite Hf.
  rewrite !run_set_bind.
  rewrite (run_guarded o _ (fun e => setError (fun _ => Some (message_or e MSG_GENERATE_DEFAULT)))).
  fold (generationStarted s).
  destruct (run o (generateVariantsBody table f (stylePreset s)) (generationStarted s))
    as [[states acts] [[e|[]]|]]; reflexivity.
Qed.

Lemma generateVariantsBody_run (o : Oracle) (f : File) (style : StylePreset) (s : AppState) :
  run o (generateVariantsBody table f style) s =
  match result_of o (requestGeneration table f style) s with
  | Some (inr response) =>
      let '(states, acts, r) := run o (publishFromResponse response) s in
      (states, (actions_of o (requestGeneration table f style) s ++ acts)%list, r)
  | Some (inl e) => ([], actions_of o (requestGeneration table f style) s, Some (inl e))
  | None => ([], actions_of o (requestGeneration table f style) s, None)
  end.
Proof.
  unfold generateVariantsBody. rewrite run_bindE.
  rewrite (run_silent o _ s (requestGeneration_silent f style)).
  destruct (result_of o (requestGeneration table f style) s) as [[e|response]|]; reflexivity.
Qed.

Lemma find_none_existsb {A : Type} (p : A -> bool) (l : list A) :
  List.find p l = None <-> existsb p l = false.
Proof.
  induction l as [|x l IH]; simpl; [tauto|].
  destruct (p x); simpl; [split; discriminate | exact IH].
Qed.

Lemma publishFromResponse_missing (o : Oracle) (response : GenerateContentResponse) (s : AppState) :
  lacks_text response = true \/ lacks_image response = true ->
  run o (publishFromResponse response) s =
  ([], [], Some (inl (Error (if fewer_than_two_parts response
                             then MSG_NOT_BOTH else MSG_MISSING_EITHER)))).
Proof.
  unfold lacks_text, lacks_image, fewer_than_two_parts, publishFromResponse.
  destruct (response_parts response) as [ps|]; [|reflexivity].
  destruct (length ps <? 2)%nat; [reflexivity|].
  rewrite !negb_true_iff, <- !find_none_existsb.
  intros [-> | ->]; [reflexivity|].
  destruct (List.find has_text ps); reflexivity.
Qed.

Lemma MSG_NOT_BOTH_neq_MSG_MISSING_EITHER : MSG_NOT_BOTH <> MSG_MISSING_EITHER.
Proof. unfold MSG_NOT_BOTH, MSG_MISSING_EITHER. discriminate. Qed.

(** C1, as amended. In the generation flow, when the response of the Visual
    Generator lacks the title part or the image part, the flow ends in Error
    (the message set, no variant, the loading flag cleared). The message is
    chosen by the number of parts and not by what is missing: it is
    [MSG_NOT_BOTH] when the response has no list of parts or fewer than two
    parts, [MSG_MISSING_EITHER] when it has two or more; the two messages
    differ. *)
Theorem generation_rejects_incomplete_response
  (o : Oracle) (s : AppState) (f : File) (response : GenerateContentResponse) :
  originalImage s = Some f ->
  result_of o (requestGeneration table f (stylePreset s)) s = Some (inr response) ->
  lacks_text response = true \/ lacks_image response = true ->
  result_of o (handleGenerateVariants table s) s = Some tt /\
  error (final_state o (handleGenerateVariants table s) s)
    = Some (if fewer_than_two_parts response then MSG_NOT_BOTH else MSG_MISSING_EITHER) /\
  variants (final_state o (handleGenerateVariants table s) s) = [] /\
  isLoading (final_state o (handleGenerateVariants table s) s) = false /\
  MSG_NOT_BOTH <> MSG_MISSING_EITHER.
Proof.
  intros Hf Hresponse Hmissing.
  unfold final_state, states_of, result_of.
  rewrite (handleGenerateVariants_run o s f Hf). cbv zeta.
  rewrite generateVariantsBody_run.
  rewrite (result_of_state o _ (generationStarted s) s), Hresponse.
  rewrite (publishFromResponse_missing o response _ Hmissing).
  cbn [fst snd app List.last].
  repeat split; try reflexivity.
  - destruct (fewer_than_two_parts response); reflexivity.
  - apply MSG_NOT_BOTH_neq_MSG_MISSING_EITHER.
Qed.

(** ** The race against the timer *)


Lemma race_won {X : Type} (p : Promise X) (t : N) (out : JsError + X) (ms : N) (e : JsError) :
  p = Settles t out -> (t <= ms)%N ->
  Promise_race [p; rejectAfter ms e] = Settles t out.
Proof.
  intros -> Ht. unfold Promise_race, rejectAfter. simpl.
  apply N.leb_le in Ht. rewrite Ht. reflexivity.
Qed.

Lemma requestGeneration_after_extraction
  (o : Oracle) (f : File) (style : StylePreset) (s : AppState) (structuredJson : Json) :
  result_of o (extractStructuredJson table f) s = Some (inr structuredJson) ->
  result_of o (requestGeneration table f style) s = result_of o (generate style structuredJson) s.
Proof.
  intros Hextract. unfold requestGeneration, result_of in *. rewrite run_bindE.
  destruct (run o (extractStructuredJson table f) s) as [[states acts] r].
  simpl in Hextract. subst r.
  pose proof (result_of_state o (generate style structuredJson) (List.last states s) s) as Hind.
  unfold result_of in Hind.
  destruct (run o (generate style structuredJson) (List.last states s)) as [[? ?] ?].
  simpl in *. exact Hind.
Qed.



(** ** The interactions of a run *)

Lemma actions_of_bind {A B : Type} (o : Oracle) (m : Async A) (k : A -> Async B) (s : AppState) :
  actions_of o (bind m k) s =
  (actions_of o m s ++
   match result_of o m s with
   | Some a => actions_of o (k a) s
   | None => []
   end)%list.
Proof.
  unfold actions_of, result_of. rewrite run_bind.
  destruct (run o m s) as [[states acts] [a|]]; simpl; [|rewrite app_nil_r; reflexivity].
  pose proof (proj1 (run_state_independent o (k a) (List.last states s) s)) as Hind.
  unfold actions_of in Hind.
  destruct (run o (k a) (List.last states s)) as [[? ?] ?]. simpl in *.
  rewrite Hind. reflexivity.
Qed.

Lemma actions_of_bindE {A B : Type} (o : Oracle) (m : Async (JsError + A))
  (k : A -> Async (JsError + B)) (s : AppState) :
  actions_of o (bindE m k) s =
  (actions_of o m s ++
   match result_of o m s with
   | Some (inr a) => actions_of o (k a) s
   | _ => []
   end)%list.
Proof.
  unfold bindE. rewrite actions_of_bind.
  destruct (result_of o m s) as [[e|a]|]; reflexivity.
Qed.

Lemma actions_of_handleGenerateVariants (o : Oracle) (s : AppState) (f : File) :
  originalImage s = Some f ->
  actions_of o (handleGenerateVariants table s) s
  = actions_of o (generateVariantsBody table f (stylePreset s)) s.
Proof.
  intros Hf.
  rewrite (proj1 (run_state_independent o (generateVariantsBody table f (stylePreset s))
                    s (generationStarted s))).
  unfold actions_of. rewrite (handleGenerateVariants_run o s f Hf). cbv zeta.
  destruct (run o (generateVariantsBody table f (stylePreset s)) (generationStarted s))
    as [[states acts] [[e|[]]|]]; reflexivity.
Qed.

Lemma generate_actions (o : Oracle) (style : StylePreset) (structuredJson : Json) (s : AppState) :
  actions_of o (generate style structuredJson) s =
  match o NewGoogleGenAI with
  | Some _ => [NewGoogleGenAI]
  | None => [NewGoogleGenAI; GenerateContent (generationRequest style structuredJson)]
  end.
Proof.
  unfold generate, actions_of. cbn [run bind act].
  destruct (o NewGoogleGenAI); [reflexivity|].
  cbn [run bind act].
  destruct (Promise_race _) as [t [e|r]|]; reflexivity.
Qed.

Lemma publishFromResponse_actions (o : Oracle) (response : GenerateContentResponse)
  (style : StylePreset) (structuredJson : Json) (s : AppState) :
  Forall (generator_side style structuredJson) (actions_of o (publishFromResponse response) s).
Proof.
  unfold publishFromResponse, actions_of.
  destruct (response_parts response) as [ps|]; [|constructor].
  destruct (length ps <? 2)%nat; [constructor|].
  destruct (List.find has_text ps), (List.find has_inlineData ps) as [ip|]; try constructor.
  destruct (inlineData ip) as [blob|]; [|constructor].
  rewrite run_bindE. unfold processFinalImage_default. rewrite processFinalImage_run.
  destruct (o GetContext2d); [|repeat constructor].
  destruct (o (LoadImage (dataUrl blob))) as [t [e|img]|]; repeat constructor.
Qed.

Lemma runOcrOnImage_actions (o : Oracle) (f : File) (s : AppState) :
  exists rest, actions_of o (runOcrOnImage f) s = NewGoogleGenAI :: rest /\
    (o NewGoogleGenAI = None -> exists rest', rest = ReadAsDataURL f :: rest').
Proof.
  unfold runOcrOnImage, fileToBase64, actions_of, bindE, await, throw, ok. simpl.
  destruct (o NewGoogleGenAI) as [e|]; simpl.
  - eexists. split; [reflexivity|discriminate].
  - destruct (o (ReadAsDataURL f)) as [t [e|x]|]; simpl;
      try (eexists; split; [reflexivity|]; intros _; eexists; reflexivity).
    match goal with
    | |- context [o (GenerateContent ?p)] => destruct (o (GenerateContent p)) as [t' [e|r]|]
    end; simpl;
      try (eexists; split; [reflexivity|]; intros _; eexists; reflexivity).
    destruct (response_text r) as [answer|]; simpl;
      try (eexists; split; [reflexivity|]; intros _; eexists; reflexivity).
    destruct (JSON_parse (trim answer)); simpl;
      (eexists; split; [reflexivity|]; intros _; eexists; reflexivity).
Qed.

Lemma generator_side_not_extractor (style : StylePreset) (structuredJson : Json) (a : Action) :
  generator_side style structuredJson a -> is_extractor_action a = false.
Proof. destruct a; simpl; try tauto; intros ->; reflexivity. Qed.

Lemma generateVariantsBody_actions (o : Oracle) (f : File) (style : StylePreset) (s : AppState) :
  actions_of o (generateVariantsBody table f style) s =
  (actions_of o (requestGeneration table f style) s ++
   match result_of o (requestGeneration table f style) s with
   | Some (inr response) => actions_of o (publishFromResponse response) s
   | _ => []
   end)%list.
Proof. unfold generateVariantsBody. apply actions_of_bindE. Qed.

Lemma requestGeneration_actions (o : Oracle) (f : File) (style : StylePreset) (s : AppState) :
  actions_of o (requestGeneration table f style) s =
  (actions_of o (extractStructuredJson table f) s ++
   match result_of o (extractStructuredJson table f) s with
   | Some (inr structuredJson) => actions_of o (generate style structuredJson) s
   | _ => []
   end)%list.
Proof. unfold requestGeneration. apply actions_of_bindE. Qed.

Lemma fixture_actions (o : Oracle) (s : AppState) (f : File) (fixture : Json) :
  originalImage s = Some f ->
  table !! name f = Some fixture ->
  exists rest,
    actions_of o (handleGenerateVariants table s) s
    = (actions_of o (generate (stylePreset s) fixture) s ++ rest)%list /\
    Forall (generator_side (stylePreset s) fixture) rest.
Proof.
  intros Hf Hfix.
  rewrite (actions_of_handleGenerateVariants o s f Hf).
  rewrite generateVariantsBody_actions, requestGeneration_actions.
  unfold extractStructuredJson at 1 2. rewrite Hfix.
  change (actions_of o (ok fixture) s) with (@nil Action).
  change (result_of o (@ok Json fixture) s) with (Some (@inr JsError Json fixture)).
  rewrite app_nil_l.
  assert (Hreq : result_of o (requestGeneration table f (stylePreset s)) s
                 = result_of o (generate (stylePreset s) fixture) s).
  { apply requestGeneration_after_extraction.
    unfold extractStructuredJson. rewrite Hfix. reflexivity. }
  rewrite Hreq.
  eexists. split; [reflexivity|].
  destruct (result_of o (generate (stylePreset s) fixture) s) as [[e|response]|];
    try constructor.
  apply publishFromResponse_actions.
Qed.

(** The text of the request to the Visual Generator: the master prompt with
    the name of the style in the place of its first placeholder and, in the
    place of the second, the JSON text as [replace] expands it. *)
Lemma finalPrompt_text :
  exists head middle tail : string,
    MASTER_RECONSTRUCT_PROMPT
      = (head ++ "{{stylePreset}}" ++ middle ++ "{{jsonData}}" ++ tail)%string /\
    forall (style : StylePreset) (structuredJson : Json),
      finalPrompt style structuredJson
      = (head ++ StylePreset_text style ++ middle
           ++ JsString.expand_replacement (JSON_stringify structuredJson) "{{jsonData}}"
                (head ++ StylePreset_text style ++ middle) tail
           ++ tail)%string.
Proof.
  destruct (JsString.split_first "{{stylePreset}}" MASTER_RECONSTRUCT_PROMPT)
    as [[head rest]|] eqn:Hfirst; [|vm_compute in Hfirst; discriminate].
  destruct (JsString.split_first "{{jsonData}}" rest)
    as [[middle tail]|] eqn:Hsecond.
  2: { vm_compute in Hfirst. injection Hfirst as <- <-. vm_compute in Hsecond. discriminate. }
  exists head, middle, tail.
  pose proof (split_first_spec "{{stylePreset}}" MASTER_RECONSTRUCT_PROMPT) as Hmaster.
  rewrite Hfirst in Hmaster. destruct Hmaster as [Hmaster _].
  pose proof (split_first_spec "{{jsonData}}" rest) as Hrest.
  rewrite Hsecond in Hrest. destruct Hrest as [Hrest _].
  split; [rewrite <- Hrest; exact Hmaster|].
  intros style structuredJson. unfold finalPrompt.
  assert (Hstyled : JsString.replace "{{stylePreset}}" (StylePreset_text style)
                      MASTER_RECONSTRUCT_PROMPT
                    = (head ++ StylePreset_text style ++ rest)%string).
  { unfold JsString.replace. rewrite Hfirst.
    rewrite (expand_replacement_plain _ _ _ _ (StylePreset_text_plain style)). reflexivity. }
  rewrite Hstyled.
  assert (Hdata : JsString.split_first "{{jsonData}}" (head ++ StylePreset_text style ++ rest)
                  = Some ((head ++ StylePreset_text style ++ middle)%string, tail)).
  { vm_compute in Hfirst. injection Hfirst as <- <-.
    vm_compute in Hsecond. injection Hsecond as <- <-.
    destruct style; vm_compute; reflexivity. }
  unfold JsString.replace. rewrite Hdata.
  rewrite !string_app_assoc. reflexivity.
Qed.

(** The interactions of [runOcrOnImage] once the client is set up and the
    file is read: the request to the extraction model follows, whatever
    becomes of it. *)
Lemma runOcrOnImage_asks (o : Oracle) (f : File) (s : AppState) (t : N) (url : string) :
  o NewGoogleGenAI = None ->
  o (ReadAsDataURL f) = Settles t (inr url) ->
  actions_of o (runOcrOnImage f) s
  = [NewGoogleGenAI; ReadAsDataURL f;
     GenerateContent (ocrRequest (nth_error (JsString.split_char "," url) 1) f)].
Proof.
  intros Hai Hread.
  unfold runOcrOnImage, fileToBase64, actions_of, bindE, await, throw, ok.
  cbn [run bind act]. rewrite Hai. cbn [run bind act]. rewrite Hread. cbn [run bind act].
  destruct (o (GenerateContent (ocrRequest (nth_error (JsString.split_char "," url) 1) f)))
    as [t' [e|response]|]; cbn [run bind act]; try reflexivity.
  destruct (response_text response) as [answer|]; cbn [run bind act]; [|reflexivity].
  destruct (JSON_parse (trim answer)); reflexivity.
Qed.

(** C3. When the name of the uploaded file is a key of the fixture table,
    the generation flow performs no interaction of the Content Extractor
    (it neither reads the file nor calls the extraction model), and every
    request it makes to the Visual Generator is the one that carries the
    fixture: to the image model, with the two modalities, and with one text
    part, the master prompt in which the name of the style stands for the
    first placeholder and the JSON text of the fixture for the second. The
    JSON text stands there as [replace] expands it, which is verbatim when
    it holds no dollar sign: then what is submitted is the fixture's content
    exactly. That request is made once the client is set up. For every other
    file name the flow starts by running [runOcrOnImage] on the uploaded
    file: its interactions come first, the set-up of the client, the reading
    of the file and then, when the file was read, the request to the
    extraction model with the data of the file, its type and the extraction
    prompt. *)
Theorem fixture_bypasses_extractor (o : Oracle) (s : AppState) (f : File) :
  originalImage s = Some f ->
  match table !! name f with
  | Some fixture =>
      Forall (fun a => is_extractor_action a = false)
        (actions_of o (handleGenerateVariants table s) s) /\
      (forall params,
          In (GenerateContent params) (actions_of o (handleGenerateVariants table s) s) ->
          params = generationRequest (stylePreset s) fixture) /\
      (o NewGoogleGenAI = None ->
       In (GenerateContent (generationRequest (stylePreset s) fixture))
         (actions_of o (handleGenerateVariants table s) s)) /\
      (exists head middle tail submitted : string,
          MASTER_RECONSTRUCT_PROMPT
            = (head ++ "{{stylePreset}}" ++ middle ++ "{{jsonData}}" ++ tail)%string /\
          submitted
            = JsString.expand_replacement (JSON_stringify fixture) "{{jsonData}}"
                (head ++ StylePreset_text (stylePreset s) ++ middle) tail /\
          (has_char "$" (JSON_stringify fixture) = false ->
           submitted = JSON_stringify fixture) /\
          forall params,
            In (GenerateContent params) (actions_of o (handleGenerateVariants table s) s) ->
            params
            = {| model := "gemini-2.5-flash-image-preview";
                 contents :=
                   [textPart (head ++ StylePreset_text (stylePreset s) ++ middle
                                ++ submitted ++ tail)];
                 config := responseModalities [IMAGE; TEXT] |})
  | None =>
      exists ocr rest,
        actions_of o (runOcrOnImage f) s = NewGoogleGenAI :: ocr /\
        actions_of o (handleGenerateVariants table s) s = (NewGoogleGenAI :: ocr ++ rest)%list /\
        (o NewGoogleGenAI = None -> exists ocr', ocr = ReadAsDataURL f :: ocr') /\
        (forall (t : N) (url : string),
            o NewGoogleGenAI = None ->
            o (ReadAsDataURL f) = Settles t (inr url) ->
            let extraction :=
              GenerateContent
                {| model := "gemini-2.5-flash";
                   contents :=
                     [imagePart {| mimeType := Some (type f);
                                   data := nth_error (JsString.split_char "," url) 1 |};
                      textPart ocrPrompt];
                   config := responseMimeType "application/json" |} in
            ocr = [ReadAsDataURL f; extraction] /\
            is_extractor_action extraction = true /\
            In extraction (actions_of o (handleGenerateVariants table s) s))
  end.
Proof.
  intros Hf. destruct (table !! name f) as [fixture|] eqn:Hfix.
  - destruct (fixture_actions o s f fixture Hf Hfix) as (rest & Hacts & Hrest).
    assert (Hall : Forall (generator_side (stylePreset s) fixture)
                     (actions_of o (handleGenerateVariants table s) s)).
    { rewrite Hacts. apply Forall_app. split; [|exact Hrest].
      rewrite generate_actions. destruct (o NewGoogleGenAI); repeat constructor. }
    assert (Hrequests : forall params,
               In (GenerateContent params) (actions_of o (handleGenerateVariants table s) s) ->
               params = generationRequest (stylePreset s) fixture).
    { intros params Hin. rewrite List.Forall_forall in Hall. exact (Hall _ Hin). }
    split; [|split; [exact Hrequests|split]].
    + eapply List.Forall_impl; [|exact Hall].
      intros a. apply generator_side_not_extractor.
    + intros Hai. rewrite Hacts, generate_actions, Hai.
      simpl. right. left. reflexivity.
    + destruct finalPrompt_text as (head & middle & tail & Hmaster & Hprompt).
      exists head, middle, tail. eexists.
      split; [exact Hmaster|]. split; [reflexivity|]. split.
      * intros Hplain. apply expand_replacement_plain. exact Hplain.
      * intros params Hin. rewrite (Hrequests params Hin).
        unfold generationRequest. rewrite Hprompt. reflexivity.
  - destruct (runOcrOnImage_actions o f s) as (ocr & Hocr & Hread).
    assert (Hflow : actions_of o (handleGenerateVariants table s) s
                    = (NewGoogleGenAI :: ocr
                       ++ match result_of o (runOcrOnImage f) s with
                          | Some a =>
                              actions_of o
                                match JsValue.error_property_truthy a with
                                | Some true => throw (Error MSG_OCR_FAILED)
                                | Some false => ok a
                                | None => throw typeError
                                end s
                          | None => []
                          end
                       ++ match result_of o (extractStructuredJson table f) s with
                          | Some (inr structuredJson) =>
                              actions_of o (generate (stylePreset s) structuredJson) s
                          | _ => []
                          end
                       ++ match result_of o (requestGeneration table f (stylePreset s)) s with
                          | Some (inr response) => actions_of o (publishFromResponse response) s
                          | _ => []
                          end)%list).
    { rewrite (actions_of_handleGenerateVariants o s f Hf).
      rewrite generateVariantsBody_actions, requestGeneration_actions.
      unfold extractStructuredJson at 1. rewrite Hfix.
      rewrite actions_of_bind, Hocr.
      rewrite <- !app_assoc. reflexivity. }
    eexists ocr, _. split; [exact Hocr|]. split; [exact Hflow|]. split; [exact Hread|].
    intros t url Hai Hfile. cbv zeta.
    pose proof (runOcrOnImage_asks o f s t url Hai Hfile) as Hasks.
    rewrite Hocr in Hasks. injection Hasks as Hasks.
    split; [exact Hasks|]. split; [reflexivity|].
    rewrite Hflow, Hasks. right. right. left. reflexivity.
Qed.

(** ** All or nothing *)

Lemma run_eta {A : Type} (o : Oracle) (p : Async A) (s : AppState) :
  run o p s = (states_of o p s, actions_of o p s, result_of o p s).
Proof. unfold states_of, actions_of, result_of. destruct (run o p s) as [[? ?] ?]. reflexivity. Qed.

(** The three ways the [try] block of the generation flow can go: it throws
    or is left waiting without a setter call, or it returns after the one
    call that publishes the variant. *)
Lemma generateVariantsBody_cases (o : Oracle) (f : File) (style : StylePreset) (s : AppState) :
  (exists e, states_of o (generateVariantsBody table f style) s = [] /\
             result_of o (generateVariantsBody table f style) s = Some (inl e))
  \/ (states_of o (generateVariantsBody table f style) s = [] /\
      result_of o (generateVariantsBody table f style) s = None)
  \/ (exists blob t img,
        o (LoadImage (dataUrl blob)) = Settles t (inr img) /\
        states_of o (generateVariantsBody table f style) s
          = [setVariants (fun _ => [publishedVariant o blob img]) s] /\
        result_of o (generateVariantsBody table f style) s = Some (inr tt)).
Proof.
  unfold states_of at 1 2 3, result_of at 1 2 3.
  rewrite generateVariantsBody_run.
  destruct (result_of o (requestGeneration table f style) s) as [[e|response]|].
  - left. exists e. split; reflexivity.
  - rewrite run_eta. cbn [fst snd].
    destruct (publishFromResponse_run o response s)
      as [(blob & t & img & _ & Hload & Hstates & Hresult)
         | [[Hstates Hresult] | (e & Hstates & Hresult)]].
    + right; right. exists blob, t, img. auto.
    + right; left. auto.
    + left. exists e. auto.
  - right; left. split; reflexivity.
Qed.

(** The three ways the generation flow can go once an image is there. *)
Lemma generation_outcomes (o : Oracle) (s : AppState) (f : File) :
  originalImage s = Some f ->
  let flow := handleGenerateVariants table s in
  let prior := variants s in
  (exists msg,
      result_of o flow s = Some tt /\
      error (final_state o flow s) = Some msg /\
      variants (final_state o flow s) = [] /\
      List.map variants (states_of o flow s) = [prior; prior; prior; []; []; []])
  \/ (result_of o flow s = None /\
      error (final_state o flow s) = None /\
      variants (final_state o flow s) = [] /\
      List.map variants (states_of o flow s) = [prior; prior; prior; []])
  \/ (exists blob t img,
        result_of o flow s = Some tt /\
        error (final_state o flow s) = None /\
        o (LoadImage (dataUrl blob)) = Settles t (inr img) /\
        variants (final_state o flow s) = [publishedVariant o blob img] /\
        List.map variants (states_of o flow s)
          = [prior; prior; prior; []; [publishedVariant o blob img]; [publishedVariant o blob img]]).
Proof.
  intros Hf. cbv zeta.
  unfold final_state, states_of, result_of.
  rewrite (handleGenerateVariants_run o s f Hf). cbv zeta.
  rewrite run_eta.
  destruct (generateVariantsBody_cases o f (stylePreset s) (generationStarted s))
    as [(e & -> & ->) | [[-> ->] | (blob & t & img & Hload & -> & ->)]].
  - left. eexists. repeat split; reflexivity.
  - right; left. repeat split; reflexivity.
  - right; right. exists blob, t, img. repeat split; try reflexivity. exact Hload.
Qed.

(** C6. A run of the generation flow, started in a state that has no variant
    unless an image was uploaded, goes one of three ways. It fails: an error
    message is set and the slot is empty from the clearing call on, to the
    end (without an image the flow makes no clearing call, and the slot was
    empty already). It is left waiting for a promise that never settles: the
    slot is empty from the clearing call on. Or it publishes: the slot is
    empty from the clearing call until one setter call stores the single
    variant [publishedVariant o blob img], whose three fields (raw image,
    display image, status [verified]) are set together; only the reset of
    the loading flag follows. Before the clearing call the slot holds what it
    held. *)
Theorem generation_publishes_all_or_nothing (o : Oracle) (s : AppState) :
  image_before_variant s ->
  let flow := handleGenerateVariants table s in
  let prior := variants s in
  (exists msg,
      result_of o flow s = Some tt /\
      error (final_state o flow s) = Some msg /\
      variants (final_state o flow s) = [] /\
      (List.map variants (states_of o flow s) = [prior; prior; prior; []; []; []] \/
       originalImage s = None /\ List.map variants (states_of o flow s) = [[]]))
  \/ (result_of o flow s = None /\
      error (final_state o flow s) = None /\
      variants (final_state o flow s) = [] /\
      List.map variants (states_of o flow s) = [prior; prior; prior; []])
  \/ (exists blob t img,
        result_of o flow s = Some tt /\
        error (final_state o flow s) = None /\
        o (LoadImage (dataUrl blob)) = Settles t (inr img) /\
        variants (final_state o flow s) = [publishedVariant o blob img] /\
        truthLockStatus (publishedVariant o blob img) = verified /\
        List.map variants (states_of o flow s)
          = [prior; prior; prior; []; [publishedVariant o blob img]; [publishedVariant o blob img]]).
Proof.
  intros Hprior. cbv zeta.
  destruct (originalImage s) as [f|] eqn:Hf.
  - destruct (generation_outcomes o s f Hf)
      as [(msg & Hr & He & Hv & Hh) | [(Hr & He & Hv & Hh)
         | (blob & t & img & Hr & He & Hl & Hv & Hh)]].
    + left. exists msg. auto.
    + right; left. auto.
    + right; right. exists blob, t, img. repeat split; auto.
  - left. exists MSG_UPLOAD_FIRST.
    unfold handleGenerateVariants, final_state, states_of, result_of. rewrite Hf.
    simpl. rewrite (Hprior Hf).
    repeat split; try reflexivity. right. split; reflexivity.
Qed.

(** ** The edit flow *)

Lemma handleApplyTweak_run (o : Oracle) (variantId tweakText : string) (s : AppState) :
  run o (handleApplyTweak variantId tweakText s) s =
  let s1 := setIsTweaking (fun _ => true) s in
  let s2 := setError (fun _ => None) s1 in
  match List.find (fun v => String.eqb (id v) variantId) (variants s) with
  | None =>
      let s3 := setError (fun _ => Some MSG_TWEAK_NOT_FOUND) s2 in
      ([s1; s2; s3; setIsTweaking (fun _ => false) s3], [], Some tt)
  | Some v =>
      match run o (applyTweakBody v variantId tweakText) s2 with
      | (states, acts, Some (inr _)) =>
          (s1 :: s2 :: (states ++ [setIsTweaking (fun _ => false) (List.last states s2)])%list,
           acts, Some tt)
      | (states, acts, Some (inl e)) =>
          let s' := setError (fun _ => Some MSG_TWEAK_FAILED) (List.last states s2) in
          (s1 :: s2 :: (states ++ [s'; setIsTweaking (fun _ => false) s'])%list, acts, Some tt)
      | (states, acts, None) => (s1 :: s2 :: states, acts, None)
      end
  end.
Proof.
  unfold handleApplyTweak. rewrite !run_set_bind.
  destruct (List.find _ (variants s)) as [v|]; [|reflexivity].
  rewrite (run_guarded o _ (fun _ => setError (fun _ => Some MSG_TWEAK_FAILED))).
  cbv zeta.
  destruct (run o (applyTweakBody v variantId tweakText) _)
    as [[states acts] [[e|[]]|]]; reflexivity.
Qed.

(** What [applyResponse] does, by the response and the compositor. *)
Lemma applyResponse_cases (o : Oracle) (variantId : string)
  (response : GenerateContentResponse) (s : AppState) :
  (exists e, states_of o (applyResponse variantId response) s = [] /\
             result_of o (applyResponse variantId response) s = Some (inl e))
  \/ (states_of o (applyResponse variantId response) s = [] /\
      result_of o (applyResponse variantId response) s = None)
  \/ (exists blob t img,
        response_image response = Some blob /\
        o (LoadImage (dataUrl blob)) = Settles t (inr img) /\
        states_of o (applyResponse variantId response) s
          = [setVariants (applyTweak variantId (dataUrl blob)
                            (toDataURL (composite (dataUrl blob) "#FFFFFF" 1920 img))) s] /\
        result_of o (applyResponse variantId response) s = Some (inr tt)).
Proof.
  unfold applyResponse, states_of, result_of.
  destruct (response_image response) as [blob|]; [|left; eexists; split; reflexivity].
  rewrite run_bindE. unfold processFinalImage_default. rewrite processFinalImage_run.
  destruct (o GetContext2d); [|left; eexists; split; reflexivity].
  destruct (o (LoadImage (dataUrl blob))) as [t [e|img]|] eqn:Hload.
  - left; eexists; split; reflexivity.
  - right; right. exists blob, t, img.
    split; [reflexivity|]. split; [exact Hload|]. split; reflexivity.
  - right; left. split; reflexivity.
Qed.

Lemma applyResponse_no_image (o : Oracle) (variantId : string)
  (response : GenerateContentResponse) (s : AppState) :
  response_image response = None ->
  run o (applyResponse variantId response) s = ([], [], Some (inl (Error MSG_NO_NEW_IMAGE))).
Proof. unfold applyResponse. intros ->. reflexivity. Qed.

Lemma applyTweakBody_run (o : Oracle) (v : Variant) (variantId tweakText : string) (s : AppState) :
  run o (applyTweakBody v variantId tweakText) s =
  match result_of o (requestTweak v tweakText) s with
  | Some (inr response) =>
      let '(states, acts, r) := run o (applyResponse variantId response) s in
      (states, (actions_of o (requestTweak v tweakText) s ++ acts)%list, r)
  | Some (inl e) => ([], actions_of o (requestTweak v tweakText) s, Some (inl e))
  | None => ([], actions_of o (requestTweak v tweakText) s, None)
  end.
Proof.
  unfold applyTweakBody. rewrite run_bindE.
  rewrite (run_silent o _ s (requestTweak_silent v tweakText)).
  destruct (result_of o (requestTweak v tweakText) s) as [[e|response]|]; reflexivity.
Qed.

Lemma applyTweakBody_cases (o : Oracle) (v : Variant) (variantId tweakText : string) (s : AppState) :
  (exists e, states_of o (applyTweakBody v variantId tweakText) s = [] /\
             result_of o (applyTweakBody v variantId tweakText) s = Some (inl e))
  \/ (states_of o (applyTweakBody v variantId tweakText) s = [] /\
      result_of o (applyTweakBody v variantId tweakText) s = None)
  \/ (exists response blob t img,
        result_of o (requestTweak v tweakText) s = Some (inr response) /\
        response_image response = Some blob /\
        o (LoadImage (dataUrl blob)) = Settles t (inr img) /\
        states_of o (applyTweakBody v variantId tweakText) s
          = [setVariants (applyTweak variantId (dataUrl blob)
                            (toDataURL (composite (dataUrl blob) "#FFFFFF" 1920 img))) s] /\
        result_of o (applyTweakBody v variantId tweakText) s = Some (inr tt)).
Proof.
  unfold states_of at 1 2 3, result_of at 1 2 4.
  rewrite applyTweakBody_run.
  destruct (result_of o (requestTweak v tweakText) s) as [[e|response]|] eqn:Hrequest.
  - left. exists e. split; reflexivity.
  - rewrite run_eta. cbn [fst snd].
    destruct (applyResponse_cases o variantId response s)
      as [(e & Hstates & Hresult)
         | [[Hstates Hresult] | (blob & t & img & Himage & Hload & Hstates & Hresult)]].
    + left. exists e. auto.
    + right; left. auto.
    + right; right. exists response, blob, t, img. auto.
  - right; left. split; reflexivity.
Qed.

Lemma applyTweak_lookup (variantId src disp : string) (l : list Variant) (i : nat) :
  applyTweak variantId src disp l !! i =
  match l !! i with
  | Some v =>
      Some (if String.eqb (id v) variantId
            then {| id := id v; sourceGraphicUrl := src; displayImageUrl := disp;
                    truthLockStatus := modified |}
            else v)
  | None => None
  end.
Proof.
  unfold applyTweak. revert i. induction l as [|v l IH]; intros [|i]; simpl; auto.
Qed.

(** The update of a successful edit, variant by variant: the identifier
    stays; the addressed variant becomes [modified]; a [modified] variant
    stays [modified]; a variant that is [verified] afterwards was not
    touched. *)
Lemma applyTweak_status (variantId src disp : string) (l : list Variant) (i : nat) (v : Variant) :
  l !! i = Some v ->
  exists v',
    applyTweak variantId src disp l !! i = Some v' /\
    id v' = id v /\
    (id v = variantId -> truthLockStatus v' = modified) /\
    (truthLockStatus v = modified -> truthLockStatus v' = modified) /\
    (truthLockStatus v' = verified -> v' = v /\ id v <> variantId).
Proof.
  intros Hv. rewrite applyTweak_lookup, Hv.
  destruct (String.eqb (id v) variantId) eqn:Heq; eexists; (split; [reflexivity|]).
  - simpl. repeat split; intros; auto; discriminate.
  - apply String.eqb_neq in Heq. repeat split; intros; auto; contradiction.
Qed.

(** The three ways the edit flow can go. *)
Lemma handleApplyTweak_cases (o : Oracle) (variantId tweakText : string) (s : AppState) :
  let flow := handleApplyTweak variantId tweakText s in
  (exists msg,
      result_of o flow s = Some tt /\
      error (final_state o flow s) = Some msg /\
      isTweaking (final_state o flow s) = false /\
      Forall (fun st => variants st = variants s) (states_of o flow s))
  \/ (result_of o flow s = None /\
      Forall (fun st => variants st = variants s) (states_of o flow s))
  \/ (exists v response blob t img,
        List.find (fun v => String.eqb (id v) variantId) (variants s) = Some v /\
        result_of o (requestTweak v tweakText) s = Some (inr response) /\
        response_image response = Some blob /\
        o (LoadImage (dataUrl blob)) = Settles t (inr img) /\
        result_of o flow s = Some tt /\
        error (final_state o flow s) = None /\
        isTweaking (final_state o flow s) = false /\
        variants (final_state o flow s)
          = applyTweak variantId (dataUrl blob)
              (toDataURL (composite (dataUrl blob) "#FFFFFF" 1920 img)) (variants s)).
Proof.
  cbv zeta. unfold final_state, states_of, result_of.
  rewrite handleApplyTweak_run. cbv zeta.
  destruct (List.find _ (variants s)) as [v|] eqn:Hfind.
  - rewrite run_eta.
    set (s2 := setError (fun _ => None) (setIsTweaking (fun _ => true) s)).
    destruct (applyTweakBody_cases o v variantId tweakText s2)
      as [(e & -> & ->)
         | [[-> ->] | (response & blob & t & img & Hreq & Himage & Hload & -> & ->)]].
    + left. eexists. repeat split; try reflexivity. repeat constructor.
    + right; left. split; [reflexivity|]. repeat constructor.
    + right; right. exists v, response, blob, t, img.
      rewrite (result_of_state o _ s2 s) in Hreq.
      repeat split; auto.
  - left. eexists. repeat split; try reflexivity. repeat constructor.
Qed.

(** C7. A successful edit (the flow ends with no error message) rewrites the
    list of variants by [applyTweak]: at every position the identifier stays,
    the variant the edit addresses ends with status [modified], a variant
    that was [modified] is still [modified], and a variant that is [verified]
    afterwards is one the edit did not touch. So [modified] is never turned
    back into [verified], by this or any later edit. *)
Theorem successful_edit_marks_modified
  (o : Oracle) (variantId tweakText : string) (s : AppState) :
  let flow := handleApplyTweak variantId tweakText s in
  result_of o flow s = Some tt ->
  error (final_state o flow s) = None ->
  (exists target, target ∈ variants s /\ id target = variantId) /\
  length (variants (final_state o flow s)) = length (variants s) /\
  forall (i : nat) (v : Variant),
    variants s !! i = Some v ->
    exists v',
      variants (final_state o flow s) !! i = Some v' /\
      id v' = id v /\
      (id v = variantId -> truthLockStatus v' = modified) /\
      (truthLockStatus v = modified -> truthLockStatus v' = modified) /\
      (truthLockStatus v' = verified -> v' = v /\ id v <> variantId).
Proof.
  cbv zeta. intros Hended Hno_error.
  destruct (handleApplyTweak_cases o variantId tweakText s)
    as [(msg & _ & Herror & _) | [[Hhang _]
       | (v & response & blob & t & img & Hfind & _ & _ & _ & _ & _ & _ & Hvariants)]].
  - rewrite Hno_error in Herror. discriminate.
  - rewrite Hended in Hhang. discriminate.
  - rewrite Hvariants. split; [|split].
    + exists v. apply List.find_some in Hfind. destruct Hfind as [Hin Heq].
      split; [apply list_elem_of_In; exact Hin | apply String.eqb_eq; exact Heq].
    + unfold applyTweak. apply List.length_map.
    + intros i v0 Hv0. apply applyTweak_status. exact Hv0.
Qed.

(** C8. An edit flow that does not succeed leaves the list of variants as it
    was in every state it goes through: when it fails an error message is
    set and the flag [isTweaking] is cleared; the one other case is a flow
    left waiting for a promise that never settles. A flow that ends has
    cleared the flag, whether it failed or succeeded. When the response of
    the Visual Generator has no image part, the flow fails with
    [MSG_TWEAK_FAILED]. *)
Theorem failed_edit_keeps_variant
  (o : Oracle) (variantId tweakText : string) (s : AppState) :
  let flow := handleApplyTweak variantId tweakText s in
  (result_of o flow s = Some tt -> isTweaking (final_state o flow s) = false) /\
  ((exists blob img,
       result_of o flow s = Some tt /\
       error (final_state o flow s) = None /\
       variants (final_state o flow s)
         = applyTweak variantId (dataUrl blob)
             (toDataURL (composite (dataUrl blob) "#FFFFFF" 1920 img)) (variants s))
   \/ (Forall (fun st => variants st = variants s) (states_of o flow s) /\
       variants (final_state o flow s) = variants s /\
       (result_of o flow s = Some tt -> exists msg, error (final_state o flow s) = Some msg))) /\
  (forall (v : Variant) (response : GenerateContentResponse),
      List.find (fun v => String.eqb (id v) variantId) (variants s) = Some v ->
      result_of o (requestTweak v tweakText) s = Some (inr response) ->
      response_image response = None ->
      result_of o flow s = Some tt /\
      error (final_state o flow s) = Some MSG_TWEAK_FAILED /\
      isTweaking (final_state o flow s) = false /\
      Forall (fun st => variants st = variants s) (states_of o flow s)).
Proof.
  cbv zeta. split; [|split].
  - intros Hended.
    destruct (handleApplyTweak_cases o variantId tweakText s)
      as [(msg & _ & _ & Hflag & _) | [[Hhang _]
         | (v & response & blob & t & img & _ & _ & _ & _ & _ & _ & Hflag & _)]]; auto.
    rewrite Hended in Hhang. discriminate.
  - destruct (handleApplyTweak_cases o variantId tweakText s)
      as [(msg & Hended & Herror & _ & Hsame) | [[Hhang Hsame]
         | (v & response & blob & t & img & _ & _ & _ & _ & Hended & Herror & _ & Hvariants)]].
    + right. split; [exact Hsame|]. split; [|eauto].
      unfold final_state. apply (last_Forall_state _ _ _ Hsame). reflexivity.
    + right. split; [exact Hsame|]. split.
      * unfold final_state. apply (last_Forall_state _ _ _ Hsame). reflexivity.
      * rewrite Hhang. discriminate.
    + left. exists blob, img. auto.
  - intros v response Hfind Hreq Himage.
    unfold final_state, states_of, result_of.
    rewrite handleApplyTweak_run. cbv zeta. rewrite Hfind.
    rewrite applyTweakBody_run.
    rewrite (result_of_state o _ _ s), Hreq.
    rewrite (applyResponse_no_image o variantId response _ Himage).
    repeat split; try reflexivity. repeat constructor.
Qed.

(** ** Invariants of the transition system *)

Lemma silent_all_updates {A : Type} (P : (AppState -> AppState) -> Prop) (p : Async A) :
  silent p -> all_updates P p.
Proof. apply all_updates_weaken. intros f []. Qed.

(** The structure of every handler, down to the setter calls. *)
Ltac handler_updates :=
  unfold handler, handleImageUpload, handleStylePresetChange, onCompareToggle,
    handleImproveSlide, handleGenerateVariants, handleApplyTweak, onExportPng,
    clickDownload, try_finally, try_catch, generateVariantsBody, applyTweakBody,
    publishFromResponse, applyResponse, processFinalImage_default;
  repeat first
    [ apply silent_all_updates, requestGeneration_silent
    | apply silent_all_updates, requestTweak_silent
    | apply silent_all_updates, processFinalImage_silent
    | updates_step ].

(** An invariant that holds initially and that every update of every
    handler keeps holds in every reachable state. *)
Lemma reachable_invariant (Inv : AppState -> Prop) :
  Inv initialState ->
  (forall ev snap, all_updates (keeps Inv) (handler table ev snap)) ->
  forall sys, reachable table sys ->
    Inv (state sys) /\ Forall (all_updates (keeps Inv)) (tasks sys).
Proof.
  intros Hinit Hhandlers sys Hreach.
  induction Hreach as [|sys sys' _ [IHstate IHtasks] Hstep]; [split; [exact Hinit|constructor]|].
  destruct Hstep as [sys ev | sys i f k Hi | sys i a k r Hi | sys i Hi]; simpl.
  - split; [exact IHstate|]. apply Forall_app. split; [exact IHtasks|].
    constructor; [apply Hhandlers|constructor].
  - pose proof (Forall_lookup_1 _ _ _ _ IHtasks Hi) as [Hf Hk].
    split; [apply Hf; exact IHstate|]. apply Forall_insert; assumption.
  - pose proof (Forall_lookup_1 _ _ _ _ IHtasks Hi) as Hk. simpl in Hk.
    split; [exact IHstate|]. apply Forall_insert; [assumption|apply Hk].
  - split; [exact IHstate|]. apply Forall_delete. exact IHtasks.
Qed.

Lemma handlers_keep_at_most_one (ev : Event) (snap : AppState) :
  all_updates (keeps at_most_one) (handler table ev snap).
Proof.
  handler_updates;
    try (intros x Hx; unfold at_most_one in *; simpl; auto; fail).
  intros x Hx. unfold at_most_one, applyTweak in *. simpl.
  rewrite List.length_map. exact Hx.
Qed.

Lemma applyTweak_settled (variantId src disp : string) (l : list Variant) :
  Forall (fun v => truthLockStatus v = verified \/ truthLockStatus v = modified) l ->
  Forall (fun v => truthLockStatus v = verified \/ truthLockStatus v = modified)
    (applyTweak variantId src disp l).
Proof.
  unfold applyTweak. induction 1 as [|v l Hv Hl IH]; simpl; constructor; auto.
  destruct (String.eqb (id v) variantId); [right; reflexivity | exact Hv].
Qed.

Lemma handlers_keep_settled (ev : Event) (snap : AppState) :
  all_updates (keeps settled) (handler table ev snap).
Proof.
  handler_updates;
    try (intros x Hx; unfold settled in *; simpl; auto; fail).
  intros x Hx. unfold settled in *. simpl. apply applyTweak_settled. exact Hx.
Qed.

Lemma has_image_image_before_variant (s : AppState) : has_image s -> image_before_variant s.
Proof. unfold has_image, image_before_variant. intros Hs Hnone. contradiction. Qed.

Lemma handlers_keep_has_image (ev : Event) (snap : AppState) :
  all_updates (keeps has_image) (handler table ev snap).
Proof.
  handler_updates; intros x Hx; unfold has_image in *; simpl; first [exact Hx | discriminate].
Qed.

(** Without an image a handler only makes updates that keep the slot empty. *)
Lemma handlers_before_upload (ev : Event) (snap : AppState) :
  image_before_variant snap -> originalImage snap = None ->
  all_updates (keeps image_before_variant) (handler table ev snap).
Proof.
  intros Hsnap Hnone. pose proof (Hsnap Hnone) as Hempty.
  unfold handler, handleImproveSlide, handleGenerateVariants. rewrite Hnone, Hempty.
  destruct ev; handler_updates;
    try (intros x Hx; unfold image_before_variant in *; simpl; auto; fail).
  intros x Hx. unfold image_before_variant. simpl. discriminate.
Qed.

Lemma reachable_image_before_variant (sys : System) :
  reachable table sys ->
  image_before_variant (state sys) /\
  Forall (all_updates (keeps has_image)) (tasks sys) /\
  (has_image (state sys) \/ Forall (all_updates (keeps image_before_variant)) (tasks sys)).
Proof.
  intros Hreach.
  induction Hreach as [|sys sys' _ (IHstate & IHkeep & IHor) Hstep].
  { split; [intros _; reflexivity|]. split; [constructor|right; constructor]. }
  destruct Hstep as [sys ev | sys i f k Hi | sys i a k r Hi | sys i Hi]; simpl.
  - split; [exact IHstate|]. split.
    + apply Forall_app. split; [exact IHkeep|].
      constructor; [apply handlers_keep_has_image|constructor].
    + destruct (originalImage (state sys)) eqn:Himage.
      * left. unfold has_image. rewrite Himage. discriminate.
      * right. destruct IHor as [Hhas|Hall]; [unfold has_image in Hhas; congruence|].
        apply Forall_app. split; [exact Hall|].
        constructor; [apply handlers_before_upload; assumption|constructor].
  - pose proof (Forall_lookup_1 _ _ _ _ IHkeep Hi) as [Hf Hk].
    destruct IHor as [Hhas|Hall].
    + split; [apply has_image_image_before_variant, Hf, Hhas|].
      split; [apply Forall_insert; assumption|left; apply Hf, Hhas].
    + pose proof (Forall_lookup_1 _ _ _ _ Hall Hi) as [Hf' Hk'].
      split; [apply Hf', IHstate|].
      split; [apply Forall_insert; assumption|right; apply Forall_insert; assumption].
  - pose proof (Forall_lookup_1 _ _ _ _ IHkeep Hi) as Hk. simpl in Hk.
    split; [exact IHstate|].
    split; [apply Forall_insert; [assumption|apply Hk]|].
    destruct IHor as [Hhas|Hall]; [left; exact Hhas|right].
    pose proof (Forall_lookup_1 _ _ _ _ Hall Hi) as Hk'. simpl in Hk'.
    apply Forall_insert; [assumption|apply Hk'].
  - split; [exact IHstate|].
    split; [apply Forall_delete; exact IHkeep|].
    destruct IHor as [Hhas|Hall]; [left; exact Hhas|right; apply Forall_delete; exact Hall].
Qed.

Lemma run_SetState {A : Type} (o : Oracle) (f : AppState -> AppState) (p : Async A) (s : AppState) :
  final_state o (SetState f p) s = final_state o p (f s) /\
  result_of o (SetState f p) s = result_of o p (f s).
Proof.
  unfold final_state, states_of, result_of. simpl.
  destruct (run o p (f s)) as [[states acts] r]. cbn [fst snd].
  split; [apply last_cons|reflexivity].
Qed.

Lemma run_Act {A : Type} (o : Oracle) (a : Action) (h : Reply a -> Async A) (s : AppState) :
  final_state o (Act a h) s = final_state o (h (o a)) s /\
  result_of o (Act a h) s = result_of o (h (o a)) s.
Proof.
  unfold final_state, states_of, result_of. simpl.
  destruct (run o (h (o a)) s) as [[states acts] r]. split; reflexivity.
Qed.

Lemma insert_last_task (others : list (Async unit)) (p q : Async unit) :
  <[length others := q]> (others ++ [p]) = others ++ [q].
Proof. induction others as [|x l IH]; simpl; [reflexivity|]. f_equal. exact IH. Qed.

Lemma delete_last_task (others : list (Async unit)) (p : Async unit) :
  delete (length others) (others ++ [p]) = others.
Proof. induction others as [|x l IH]; simpl; [reflexivity|]. f_equal. exact IH. Qed.

Lemma lookup_last_task (others : list (Async unit)) (p : Async unit) :
  (others ++ [p]) !! length others = Some p.
Proof. induction others as [|x l IH]; simpl; [reflexivity|exact IH]. Qed.

(** Every run of a handler is an execution of the transition system. *)
Lemma run_reachable (o : Oracle) (p : Async unit) (s : AppState) (others : list (Async unit)) :
  reachable table {| state := s; tasks := others ++ [p] |} ->
  result_of o p s = Some tt ->
  reachable table {| state := final_state o p s; tasks := others |}.
Proof.
  revert s.
  induction p as [[]|f p IH|a h IH|]; intros s Hreach Hresult.
  - eapply reachable_step; [exact Hreach|].
    pose proof (step_ret table {| state := s; tasks := others ++ [Ret tt] |} (length others)
                  (lookup_last_task others _)) as Hstep.
    simpl in Hstep. rewrite delete_last_task in Hstep. exact Hstep.
  - destruct (run_SetState o f p s) as [-> Hr]. rewrite Hr in Hresult.
    apply IH; [|exact Hresult].
    eapply reachable_step; [exact Hreach|].
    pose proof (step_set table {| state := s; tasks := others ++ [SetState f p] |}
                  (length others) f p (lookup_last_task others _)) as Hstep.
    simpl in Hstep. rewrite insert_last_task in Hstep. exact Hstep.
  - destruct (run_Act o a h s) as [-> Hr]. rewrite Hr in Hresult.
    apply IH; [|exact Hresult].
    eapply reachable_step; [exact Hreach|].
    pose proof (step_act table {| state := s; tasks := others ++ [Act a h] |}
                  (length others) a h (o a) (lookup_last_task others _)) as Hstep.
    simpl in Hstep. rewrite insert_last_task in Hstep. exact Hstep.
  - discriminate.
Qed.

Lemma event_reachable (o : Oracle) (ev : Event) (s : AppState) :
  reachable table {| state := s; tasks := [] |} ->
  result_of o (handler table ev s) s = Some tt ->
  reachable table {| state := final_state o (handler table ev s) s; tasks := [] |}.
Proof.
  intros Hreach Hresult. apply (run_reachable o _ s []); [|exact Hresult].
  eapply reachable_step; [exact Hreach|].
  exact (step_event table {| state := s; tasks := [] |} ev).
Qed.

(** C9. In every reachable state of the application, however the handler
    invocations interleave, the list of variants has length zero or one.
    Operation by operation: an upload empties the list; a generation flow
    started with an image leaves the empty list or the one new variant,
    whatever the list held before; an edit flow leaves a list of the length
    it found. *)
Theorem variant_store_holds_at_most_one :
  (forall sys, reachable table sys -> (length (variants (state sys)) <= 1)%nat) /\
  (forall o files s, variants (final_state o (handleImageUpload files) s) = []) /\
  (forall o s f,
      originalImage s = Some f ->
      variants (final_state o (handleGenerateVariants table s) s) = [] \/
      exists blob img,
        variants (final_state o (handleGenerateVariants table s) s)
        = [publishedVariant o blob img]) /\
  (forall o variantId tweakText s,
      length (variants (final_state o (handleApplyTweak variantId tweakText s) s))
      = length (variants s)).
Proof.
  split; [|split; [|split]].
  - intros sys Hreach.
    exact (proj1 (reachable_invariant at_most_one (Nat.le_0_l 1)
                    handlers_keep_at_most_one sys Hreach)).
  - intros o [[|file files]|] s; reflexivity.
  - intros o s f Hf.
    destruct (generation_outcomes o s f Hf)
      as [(msg & _ & _ & Hv & _) | [(_ & _ & Hv & _)
         | (blob & t & img & _ & _ & _ & Hv & _)]]; eauto.
  - intros o variantId tweakText s.
    destruct (handleApplyTweak_cases o variantId tweakText s)
      as [(msg & _ & _ & _ & Hsame) | [[_ Hsame]
         | (v & response & blob & t & img & _ & _ & _ & _ & _ & _ & _ & ->)]].
    + unfold final_state.
      rewrite (last_Forall_state (fun st => variants st = variants s) _ _ Hsame eq_refl).
      reflexivity.
    + unfold final_state.
      rewrite (last_Forall_state (fun st => variants st = variants s) _ _ Hsame eq_refl).
      reflexivity.
    + unfold applyTweak. apply List.length_map.
Qed.

(** C10. In every reachable state of the application every variant held is
    [verified] or [modified], never [verifying]; and every update that a
    handler invocation under way can still make keeps it so. The variant a
    generation flow publishes is [verified]. *)
Theorem verifying_is_never_stored (sys : System) :
  reachable table sys ->
  Forall (fun v => truthLockStatus v = verified \/ truthLockStatus v = modified)
    (variants (state sys)) /\
  Forall (fun v => truthLockStatus v <> verifying) (variants (state sys)) /\
  Forall (all_updates (keeps settled)) (tasks sys) /\
  (forall o blob img, truthLockStatus (publishedVariant o blob img) = verified).
Proof.
  intros Hreach.
  destruct (reachable_invariant settled (List.Forall_nil _) handlers_keep_settled sys Hreach)
    as [Hstate Htasks].
  split; [exact Hstate|]. split; [|split; [exact Htasks|reflexivity]].
  eapply List.Forall_impl; [|exact Hstate].
  intros v [-> | ->]; discriminate.
Qed.

End FlowFacts.

(** ** Rounding *)

Local Open Scope Q_scope.

Lemma nearest_even_error (y : Q) : Qabs (inject_Z (nearest_even y) - y) <= 1 # 2.
Proof.
  unfold nearest_even. cbv zeta.
  pose proof (Qfloor_le y) as Hlo. pose proof (Qlt_floor y) as Hhi.
  rewrite inject_Z_plus in Hhi. change (inject_Z 1) with 1 in Hhi.
  apply Qabs_Qle_condition.
  destruct (Qcompare_spec (y - inject_Z (Qfloor y)) (1 # 2)) as [Heq|Hlt|Hgt].
  - destruct (Z.even (Qfloor y)); rewrite ?inject_Z_plus; change (inject_Z 1) with 1; split; lra.
  - split; lra.
  - rewrite inject_Z_plus. change (inject_Z 1) with 1. split; lra.
Qed.

Lemma nearest_even_integer (y : Q) (n : Z) : y == inject_Z n -> nearest_even y = n.
Proof.
  intros Hy. unfold nearest_even. cbv zeta.
  assert (Hf : Qfloor y = n) by (rewrite Hy; apply Qfloor_Z).
  rewrite Hf.
  destruct (Qcompare_spec (y - inject_Z n) (1 # 2)) as [Heq|Hlt|Hgt]; [lra|reflexivity|lra].
Qed.

Lemma pow2_pos (k : Z) : 0 < 2 ^ k.
Proof. apply Qpower_0_lt. reflexivity. Qed.

Lemma pow2_succ (k : Z) : 2 ^ (k + 1) == 2 * 2 ^ k.
Proof. rewrite Qpower_plus by discriminate. change (2 ^ 1) with 2. ring. Qed.

Lemma pow2_unique (z : Q) (k k' : Z) :
  2 ^ k <= z -> z < 2 ^ (k + 1) -> 2 ^ k' <= z -> z < 2 ^ (k' + 1) -> k = k'.
Proof.
  intros H1 H2 H3 H4.
  assert (k < k' + 1)%Z.
  { apply (Qpower_lt_compat_l_inv 2); [|reflexivity]. eapply Qle_lt_trans; eassumption. }
  assert (k' < k + 1)%Z.
  { apply (Qpower_lt_compat_l_inv 2); [|reflexivity]. eapply Qle_lt_trans; eassumption. }
  lia.
Qed.

Lemma pow2_inject (k : Z) : (0 <= k)%Z -> inject_Z (2 ^ k) == 2 ^ k.
Proof. intros Hk. rewrite Zpower_Qpower by exact Hk. reflexivity. Qed.

Lemma pow2_minus (a b : Z) : 2 ^ (a - b) * 2 ^ b == 2 ^ a.
Proof.
  rewrite <- Qpower_plus by discriminate.
  replace (a - b + b)%Z with a by ring. reflexivity.
Qed.

Lemma exponent_spec (x : Q) :
  ~ x == 0 -> 2 ^ exponent x <= Qabs x /\ Qabs x < 2 ^ (exponent x + 1).
Proof.
  intros Hx. unfold exponent. cbv zeta.
  destruct x as [n d]. cbn [Qnum Qden].
  assert (Hn : (0 < Z.abs n)%Z).
  { destruct n; [exfalso; apply Hx; reflexivity|reflexivity|reflexivity]. }
  set (a := Z.abs n) in *. set (la := Z.log2 a). set (ld := Z.log2 (Zpos d)).
  destruct (Z.log2_spec a Hn) as [Ha1 Ha2]. fold la in Ha1, Ha2.
  destruct (Z.log2_spec (Zpos d) eq_refl) as [Hd1 Hd2]. fold ld in Hd1, Hd2.
  assert (Hla : (0 <= la)%Z) by apply Z.log2_nonneg.
  assert (Hld : (0 <= ld)%Z) by apply Z.log2_nonneg.
  set (X := Qabs (n # d)).
  assert (HX : X * inject_Z (Zpos d) == inject_Z a).
  { unfold X, a, Qabs, Qeq, Qmult, inject_Z. cbn [Qnum Qden]. rewrite Pos.mul_1_r. ring. }
  rewrite Zle_Qle, pow2_inject in Ha1, Hd1 by assumption.
  rewrite Zlt_Qlt, pow2_inject in Ha2, Hd2 by lia.
  assert (HX0 : 0 < X).
  { unfold X, Qabs, Qlt. cbn [Qnum Qden]. fold a. lia. }
  assert (Hupper : X < 2 ^ (la - ld + 1)).
  { apply (Qmult_lt_r _ _ (2 ^ ld)); [apply pow2_pos|].
    replace (la - ld + 1)%Z with (Z.succ la - ld)%Z by ring.
    rewrite pow2_minus.
    apply Qle_lt_trans with (X * inject_Z (Zpos d)).
    - apply Qmult_le_l; [exact HX0|exact Hd1].
    - rewrite HX. exact Ha2. }
  assert (Hlower : 2 ^ (la - ld - 1) < X).
  { apply (Qmult_lt_r _ _ (2 ^ (Z.succ ld))); [apply pow2_pos|].
    replace (la - ld - 1)%Z with (la - Z.succ ld)%Z by ring.
    rewrite pow2_minus.
    apply Qle_lt_trans with (X * inject_Z (Zpos d)).
    - rewrite HX. exact Ha1.
    - apply Qmult_lt_l; [exact HX0|exact Hd2]. }
  destruct (Qle_bool (2 ^ (la - ld)) X) eqn:Hcmp.
  - apply Qle_bool_iff in Hcmp. split; assumption.
  - assert (Hlt : X < 2 ^ (la - ld)).
    { apply Qnot_le_lt. intros Hle. apply Qle_bool_iff in Hle. congruence. }
    replace (la - ld - 1 + 1)%Z with (la - ld)%Z by ring.
    split; [apply Qlt_le_weak; exact Hlower|exact Hlt].
Qed.

Lemma fl_zero (x : Q) : x == 0 -> fl x = 0.
Proof. intros Hx. unfold fl. apply Qeq_bool_iff in Hx. rewrite Hx. reflexivity. Qed.

Lemma fl_nonzero (x : Q) :
  ~ x == 0 ->
  fl x = inject_Z (nearest_even (x / 2 ^ (exponent x - 52))) * 2 ^ (exponent x - 52).
Proof.
  intros Hx. unfold fl. destruct (Qeq_bool x 0) eqn:Hz; [|reflexivity].
  apply Qeq_bool_iff in Hz. contradiction.
Qed.

Lemma fl_error (x : Q) : Qabs (fl x - x) <= eps * Qabs x.
Proof.
  destruct (Qeq_dec x 0) as [Hx|Hx].
  - rewrite (fl_zero x Hx), Hx. discriminate.
  - rewrite (fl_nonzero x Hx).
    destruct (exponent_spec x Hx) as [Hlo _].
    set (u := 2 ^ (exponent x - 52)) in *.
    assert (Hu : 0 < u) by apply pow2_pos.
    assert (Hscale : 2 ^ exponent x == u * 4503599627370496).
    { unfold u. rewrite <- (pow2_minus (exponent x) 52). reflexivity. }
    rewrite Hscale in Hlo.
    pose proof (nearest_even_error (x / u)) as Hnear.
    set (R := inject_Z (nearest_even (x / u))) in *.
    assert (Hsplit : R * u - x == (R - x / u) * u).
    { field. intros Hzero. rewrite Hzero in Hu. discriminate. }
    rewrite Hsplit, Qabs_Qmult, (Qabs_pos u) by (apply Qlt_le_weak; exact Hu).
    apply Qle_trans with ((1 # 2) * u).
    + apply Qmult_le_compat_r; [exact Hnear|apply Qlt_le_weak; exact Hu].
    + unfold eps. generalize dependent (Qabs x). intros X HX. lra.
Qed.

Lemma fl_exact (x : Q) : representable x -> fl x == x.
Proof.
  intros (m & z & Hm & Hx).
  destruct (Qeq_dec x 0) as [Hzero|Hnonzero].
  - rewrite (fl_zero x Hzero), Hzero. reflexivity.
  - rewrite (fl_nonzero x Hnonzero).
    assert (Hm0 : (0 < Z.abs m)%Z).
    { destruct m; [|reflexivity|reflexivity].
      exfalso. apply Hnonzero. rewrite Hx. apply Qmult_0_l. }
    set (lm := Z.log2 (Z.abs m)).
    destruct (Z.log2_spec (Z.abs m) Hm0) as [Hlo Hhi]. fold lm in Hlo, Hhi.
    assert (Hlm0 : (0 <= lm)%Z) by apply Z.log2_nonneg.
    assert (Hlm : (lm <= 52)%Z).
    { apply Z.lt_succ_r. apply (Z.pow_lt_mono_r_iff 2); lia. }
    assert (Habs : Qabs x == inject_Z (Z.abs m) * 2 ^ z).
    { rewrite Hx, Qabs_Qmult, (Qabs_pos (2 ^ z)) by (apply Qlt_le_weak, pow2_pos).
      reflexivity. }
    rewrite Zle_Qle, pow2_inject in Hlo by assumption.
    rewrite Zlt_Qlt, pow2_inject in Hhi by lia.
    assert (Hexp : exponent x = (lm + z)%Z).
    { destruct (exponent_spec x Hnonzero) as [He1 He2].
      apply (pow2_unique (Qabs x)); try assumption.
      - rewrite Habs, Qpower_plus by discriminate.
        apply Qmult_le_compat_r; [exact Hlo|apply Qlt_le_weak, pow2_pos].
      - rewrite Habs. replace (lm + z + 1)%Z with (Z.succ lm + z)%Z by ring.
        rewrite Qpower_plus by discriminate.
        apply Qmult_lt_r; [apply pow2_pos|exact Hhi]. }
    rewrite Hexp.
    assert (Hpow : 2 ^ (52 - lm) * 2 ^ (lm + z - 52) == 2 ^ z).
    { rewrite <- Qpower_plus by discriminate.
      replace (52 - lm + (lm + z - 52))%Z with z by ring. reflexivity. }
    assert (Hu : ~ 2 ^ (lm + z - 52) == 0).
    { intros Hzero. pose proof (pow2_pos (lm + z - 52)) as Hpos.
      rewrite Hzero in Hpos. discriminate. }
    assert (Hmant : x / 2 ^ (lm + z - 52) == inject_Z (m * 2 ^ (52 - lm))).
    { rewrite inject_Z_mult, pow2_inject by lia.
      rewrite Hx, <- Hpow. field. exact Hu. }
    rewrite (nearest_even_integer _ _ Hmant).
    rewrite inject_Z_mult, pow2_inject by lia.
    rewrite Hx, <- Hpow. ring.
Qed.

(** ** The compositor *)

Section Compositor.
Context {runtime : JsRuntime}.

Lemma dimension_range (default : Z) (x : Q) :
  (0 <= default <= 2147483647)%Z ->
  (0 <= Canvas.dimension default x <= 2147483647)%Z.
Proof.
  intros Hd. unfold Canvas.dimension, Canvas.to_unsigned_long.
  set (v := (_ mod 4294967296)%Z).
  assert (0 <= v < 4294967296)%Z by (apply Z.mod_pos_bound; lia).
  destruct (Z.leb_spec v 2147483647); lia.
Qed.

Lemma dimension_of_fraction (default n : Z) (x : Q) :
  (0 <= n)%Z -> (n / 16 <= 2147483647)%Z ->
  x == inject_Z n / inject_Z 16 ->
  Canvas.dimension default x = (n / 16)%Z.
Proof.
  intros Hn Hmax Hx. unfold Canvas.dimension, Canvas.to_unsigned_long. cbv zeta.
  assert (Hle : Qle_bool 0 x = true).
  { apply Qle_bool_iff. rewrite Hx. apply Qle_shift_div_l; [reflexivity|].
    rewrite Qmult_0_l. change 0%Q with (inject_Z 0). rewrite <- Zle_Qle. exact Hn. }
  assert (Hfloor : Qfloor x = (n / 16)%Z) by (rewrite Hx, <- Zdiv_Qdiv; reflexivity).
  rewrite Hle, Hfloor.
  assert (0 <= n / 16)%Z by (apply Z.div_pos; lia).
  rewrite Z.mod_small by lia.
  destruct (Z.leb_spec (n / 16) 2147483647); [reflexivity|lia].
Qed.

Lemma dimension_of_integer (default n : Z) :
  (0 <= n <= 2147483647)%Z -> Canvas.dimension default (inject_Z n) = n.
Proof.
  intros Hn. unfold Canvas.dimension, Canvas.to_unsigned_long. cbv zeta.
  assert (Hle : Qle_bool 0 (inject_Z n) = true).
  { apply Qle_bool_iff. change 0%Q with (inject_Z 0). rewrite <- Zle_Qle. lia. }
  rewrite Hle, Qfloor_Z, Z.mod_small by lia.
  destruct (Z.leb_spec n 2147483647); [reflexivity|lia].
Qed.

(** [(targetWidth / 16) * 9] is computed without rounding error. *)
Lemma targetHeight_exact (w : Z) :
  (0 <= w <= 2147483647)%Z ->
  fl (fl (inject_Z w / 16) * 9) == inject_Z (9 * w) / inject_Z 16.
Proof.
  intros Hw.
  assert (H16 : fl (inject_Z w / 16) == inject_Z w / 16).
  { apply fl_exact. exists w, (-4)%Z. split; [lia|].
    change (2 ^ (-4)) with (1 # 16). field. }
  assert (H9 : fl (inject_Z w / 16) * 9 == inject_Z (9 * w) / inject_Z 16).
  { rewrite H16, inject_Z_mult.
    change (inject_Z 9) with 9. change (inject_Z 16) with 16. field. }
  rewrite fl_exact; [exact H9|].
  exists (9 * w)%Z, (-4)%Z. split; [lia|].
  rewrite H9. change (2 ^ (-4)) with (1 # 16). change (inject_Z 16) with 16. field.
Qed.

(** C4. For every source image and every target width that a canvas can
    have (an integer from 0 to 2^31 - 1), the canvas [processFinalImage]
    draws on and encodes has the requested width, and its height is
    [9 * width / 16] rounded down to an integer: the height is exactly
    width x 9/16 when 16 divides the width, and otherwise the largest
    integer below it. Every data URL the function resolves with is the
    encoding of such a canvas. *)
Theorem canvas_is_sixteen_by_nine (imageDataUrl backgroundColor : string) (targetWidth : Z) :
  (0 <= targetWidth <= 2147483647)%Z ->
  (forall img : Image.t,
      let canvas := composite imageDataUrl backgroundColor targetWidth img in
      Canvas.width canvas = targetWidth /\
      Canvas.height canvas = (9 * targetWidth / 16)%Z /\
      (16 * Canvas.height canvas <= 9 * targetWidth < 16 * (Canvas.height canvas + 1))%Z /\
      ((targetWidth mod 16 = 0)%Z -> (16 * Canvas.height canvas = 9 * targetWidth)%Z)) /\
  (forall (o : Oracle) (s : AppState) (url : string),
      result_of o (processFinalImage imageDataUrl backgroundColor targetWidth) s = Some (inr url) ->
      exists img : Image.t,
        url = toDataURL (composite imageDataUrl backgroundColor targetWidth img)).
Proof.
  intros Hw. split.
  - intros img. cbv zeta.
    assert (Hwidth : Canvas.width (composite imageDataUrl backgroundColor targetWidth img)
                     = targetWidth).
    { apply dimension_of_integer. exact Hw. }
    assert (Hheight : Canvas.height (composite imageDataUrl backgroundColor targetWidth img)
                      = (9 * targetWidth / 16)%Z).
    { apply dimension_of_fraction; [lia| |apply targetHeight_exact; exact Hw].
      apply Z.div_le_upper_bound; lia. }
    rewrite Hwidth, Hheight.
    split; [reflexivity|]. split; [reflexivity|].
    pose proof (Z.div_mod (9 * targetWidth) 16 ltac:(lia)) as Hdm.
    pose proof (Z.mod_pos_bound (9 * targetWidth) 16 ltac:(lia)) as Hmod.
    split; [lia|].
    intros Hdiv.
    assert ((9 * targetWidth) mod 16 = 0)%Z.
    { rewrite Z.mul_mod, Hdiv by lia. reflexivity. }
    lia.
  - intros o s url. unfold result_of. rewrite processFinalImage_run.
    destruct (o GetContext2d); [|discriminate].
    destruct (o (LoadImage imageDataUrl)) as [t [e|img]|]; try discriminate.
    simpl. intros [= <-]. exists img. reflexivity.
Qed.

Lemma fl_near (x : Q) : 0 <= x -> x * (1 - eps) <= fl x /\ fl x <= x * (1 + eps).
Proof.
  intros Hx. pose proof (fl_error x) as Herr.
  rewrite (Qabs_pos x Hx) in Herr. apply Qabs_Qle_condition in Herr.
  unfold eps in *. lra.
Qed.

Lemma fl_within (x bound : Q) :
  Qabs x <= bound -> - (eps * bound) <= fl x - x /\ fl x - x <= eps * bound.
Proof.
  intros Hx. pose proof (fl_error x) as Herr.
  apply Qabs_Qle_condition in Herr.
  unfold eps in *. lra.
Qed.

(** One axis of the placement: a canvas of [c] pixels and an image whose
    scaled length [x] is at most [c], up to the rounding of the scale. *)
Lemma axis_centred (c x : Q) :
  0 <= c -> c <= 2147483647 -> 0 <= x -> x <= c * (1 + eps) ->
  let d := fl x in
  let shift := fl (fl (c - d) / 2) in
  Qabs (shift - (c - (shift + d))) <= tolerance /\
  - tolerance <= shift /\
  - tolerance <= c - (shift + d).
Proof.
  intros Hc0 Hc Hx0 Hx. cbv zeta.
  destruct (fl_near x Hx0) as [Hd1 Hd2].
  generalize dependent (fl x). intros d Hd1 Hd2.
  assert (HD : Qabs (c - d) <= 2147483648).
  { apply Qabs_Qle_condition. unfold eps in *. split; lra. }
  destruct (fl_within (c - d) _ HD) as [He1 He2].
  generalize dependent (fl (c - d)). intros d1 He1 He2.
  assert (Hhalf : d1 / 2 == d1 * (1 # 2)) by field.
  assert (HH : Qabs (d1 / 2) <= 2147483648).
  { apply Qabs_Qle_condition. rewrite Hhalf. unfold eps in *. split; lra. }
  destruct (fl_within (d1 / 2) _ HH) as [He3 He4].
  generalize dependent (fl (d1 / 2)). intros shift He3 He4.
  rewrite Hhalf in He3, He4.
  split; [apply Qabs_Qle_condition|]; unfold tolerance, eps in *; split; lra.
Qed.

Lemma scale_of_axis (c : Z) (i : positive) (r : Q) :
  (0 <= c)%Z ->
  0 <= r -> r <= fl (inject_Z c / inject_Z (Zpos i)) ->
  0 <= inject_Z (Zpos i) * r /\ inject_Z (Zpos i) * r <= inject_Z c * (1 + eps).
Proof.
  intros Hc Hr0 Hr.
  assert (Hi : 0 < inject_Z (Zpos i)) by reflexivity.
  assert (Hc' : 0 <= inject_Z c) by (change 0 with (inject_Z 0); rewrite <- Zle_Qle; exact Hc).
  assert (Hq : inject_Z (Zpos i) * (inject_Z c / inject_Z (Zpos i)) == inject_Z c).
  { apply Qmult_div_r. intros Hzero. rewrite Hzero in Hi. discriminate. }
  assert (Ha : 0 <= inject_Z c / inject_Z (Zpos i)).
  { apply Qle_shift_div_l; [exact Hi|]. rewrite Qmult_0_l. exact Hc'. }
  destruct (fl_near _ Ha) as [_ Hfl].
  split.
  - apply Qmult_le_0_compat; [apply Qlt_le_weak; exact Hi | exact Hr0].
  - apply Qle_trans with (inject_Z (Zpos i) * (inject_Z c / inject_Z (Zpos i) * (1 + eps))).
    + apply Qmult_le_l; [exact Hi|]. apply Qle_trans with (1 := Hr). exact Hfl.
    + rewrite Qmult_assoc, Hq. apply Qle_refl.
Qed.

(** The smaller of two rounded quotients is the smaller quotient, up to the
    rounding. *)
Lemma min_of_rounded (a b : Q) :
  0 <= a -> 0 <= b ->
  0 <= Qmin (fl a) (fl b) /\
  Qabs (Qmin (fl a) (fl b) - Qmin a b) <= eps * Qmin a b.
Proof.
  intros Ha Hb.
  destruct (fl_near a Ha) as [Ha1 Ha2], (fl_near b Hb) as [Hb1 Hb2].
  generalize dependent (fl a). intros fa Ha1 Ha2.
  generalize dependent (fl b). intros fb Hb1 Hb2.
  destruct (Q.min_spec a b) as [[Hab Hm]|[Hab Hm]],
           (Q.min_spec fa fb) as [[Hfab Hs]|[Hfab Hs]];
    rewrite Hm, Hs; (split; [|apply Qabs_Qle_condition; split]);
    unfold eps in *; lra.
Qed.

Lemma placement_draw (canvas : Canvas.t) (cmd : Canvas.Command) (img : Image.t) :
  placement (Canvas.draw canvas cmd) img = placement canvas img.
Proof. reflexivity. Qed.

Lemma blankCanvas_range (targetWidth : Z) :
  (0 <= Canvas.width (blankCanvas targetWidth) <= 2147483647)%Z /\
  (0 <= Canvas.height (blankCanvas targetWidth) <= 2147483647)%Z.
Proof. split; apply dimension_range; lia. Qed.

(** C5. What [processFinalImage] draws, for every source image and every
    target width: after the background, one [drawImage] of the whole source.
    Both sides are scaled by one factor, the smaller of the two quotients
    canvas width / image width and canvas height / image height (each as
    computed, within the rounding of its exact value). The drawn image lies
    inside the canvas and is centred: the padding on each of the four sides
    is non-negative up to a millionth of a pixel, the left and the right
    padding differ by less than that, hence by less than one pixel, and so
    do the top and the bottom padding. *)
Theorem image_is_contained_and_centred
  (imageDataUrl backgroundColor : string) (targetWidth : Z) (img : Image.t) :
  let canvas := composite imageDataUrl backgroundColor targetWidth img in
  let cw := inject_Z (Canvas.width canvas) in
  let ch := inject_Z (Canvas.height canvas) in
  let iw := inject_Z (Zpos (Image.width img)) in
  let ih := inject_Z (Zpos (Image.height img)) in
  exists (fill : Canvas.Command) (scale left top dWidth dHeight : Q),
    Canvas.commands canvas
      = [fill; Canvas.drawImage imageDataUrl 0 0 iw ih left top dWidth dHeight] /\
    scale = Qmin (fl (cw / iw)) (fl (ch / ih)) /\
    Qabs (scale - Qmin (cw / iw) (ch / ih)) <= eps * Qmin (cw / iw) (ch / ih) /\
    dWidth = fl (iw * scale) /\
    dHeight = fl (ih * scale) /\
    - tolerance <= left /\
    - tolerance <= cw - (left + dWidth) /\
    - tolerance <= top /\
    - tolerance <= ch - (top + dHeight) /\
    Qabs (left - (cw - (left + dWidth))) <= tolerance /\
    Qabs (top - (ch - (top + dHeight))) <= tolerance /\
    Qabs (left - (cw - (left + dWidth))) <= 1 /\
    Qabs (top - (ch - (top + dHeight))) <= 1.
Proof.
  cbv zeta.
  destruct (blankCanvas_range targetWidth) as [[Hw0 Hw] [Hh0 Hh]].
  change (Canvas.width (composite imageDataUrl backgroundColor targetWidth img))
    with (Canvas.width (blankCanvas targetWidth)).
  change (Canvas.height (composite imageDataUrl backgroundColor targetWidth img))
    with (Canvas.height (blankCanvas targetWidth)).
  set (c := blankCanvas targetWidth) in *.
  set (cw := inject_Z (Canvas.width c)).
  set (ch := inject_Z (Canvas.height c)).
  set (iw := inject_Z (Zpos (Image.width img))).
  set (ih := inject_Z (Zpos (Image.height img))).
  assert (Hcw0 : 0 <= cw) by (change 0 with (inject_Z 0); unfold cw; rewrite <- Zle_Qle; lia).
  assert (Hch0 : 0 <= ch) by (change 0 with (inject_Z 0); unfold ch; rewrite <- Zle_Qle; lia).
  assert (Hcw : cw <= 2147483647)
    by (change 2147483647 with (inject_Z 2147483647); unfold cw; rewrite <- Zle_Qle; lia).
  assert (Hch : ch <= 2147483647)
    by (change 2147483647 with (inject_Z 2147483647); unfold ch; rewrite <- Zle_Qle; lia).
  assert (Ha : 0 <= cw / iw) by (apply Qle_shift_div_l; [reflexivity|rewrite Qmult_0_l; exact Hcw0]).
  assert (Hb : 0 <= ch / ih) by (apply Qle_shift_div_l; [reflexivity|rewrite Qmult_0_l; exact Hch0]).
  destruct (min_of_rounded _ _ Ha Hb) as [Hscale0 Hscale].
  set (scale := Qmin (fl (cw / iw)) (fl (ch / ih))) in *.
  destruct (scale_of_axis (Canvas.width c) (Image.width img) scale Hw0 Hscale0 (Q.le_min_l _ _))
    as [Hx0 Hx].
  destruct (scale_of_axis (Canvas.height c) (Image.height img) scale Hh0 Hscale0 (Q.le_min_r _ _))
    as [Hy0 Hy].
  destruct (axis_centred cw (iw * scale) Hcw0 Hcw Hx0 Hx) as (Hxc & Hxl & Hxr).
  destruct (axis_centred ch (ih * scale) Hch0 Hch Hy0 Hy) as (Hyc & Hyl & Hyr).
  eexists _, scale, _, _, _, _.
  split; [reflexivity|].
  split; [reflexivity|].
  split; [exact Hscale|].
  split; [reflexivity|].
  split; [reflexivity|].
  split; [exact Hxl|]. split; [exact Hxr|]. split; [exact Hyl|]. split; [exact Hyr|].
  split; [exact Hxc|]. split; [exact Hyc|].
  split; (eapply Qle_trans; [eassumption|discriminate]).
Qed.

End Compositor.

(** ** Further properties of the flows *)

Section MoreFacts.
Context {runtime : JsRuntime} (table : gmap string Json).

Lemma generate_in_time (o : Oracle) (style : StylePreset) (structuredJson : Json) (s : AppState)
  (t : N) (outcome : JsError + GenerateContentResponse) :
  o NewGoogleGenAI = None ->
  o (GenerateContent (generationRequest style structuredJson)) = Settles t outcome ->
  (t <= GENERATION_TIMEOUT_MS)%N ->
  result_of o (generate style structuredJson) s = Some outcome.
Proof.
  intros Hai Hgen Ht. unfold generate, result_of.
  cbn [run bind act]. rewrite Hai. cbn [run bind act].
  rewrite (race_won _ t outcome _ _ Hgen Ht).
  reflexivity.
Qed.

(** X1. A complete response that arrives in time is published: the flow ends
    with the one variant built from the image part, no error message and the
    loading flag cleared. *)
Theorem generation_succeeds_in_time
  (o : Oracle) (s : AppState) (f : File) (structuredJson : Json)
  (t t' : N) (response : GenerateContentResponse) (blob : Blob) (img : Image.t) :
  originalImage s = Some f ->
  result_of o (extractStructuredJson table f) s = Some (inr structuredJson) ->
  o NewGoogleGenAI = None ->
  o (GenerateContent (generationRequest (stylePreset s) structuredJson)) = Settles t (inr response) ->
  (t <= GENERATION_TIMEOUT_MS)%N ->
  fewer_than_two_parts response = false ->
  lacks_text response = false ->
  response_image response = Some blob ->
  o GetContext2d = true ->
  o (LoadImage (dataUrl blob)) = Settles t' (inr img) ->
  result_of o (handleGenerateVariants table s) s = Some tt /\
  variants (final_state o (handleGenerateVariants table s) s) = [publishedVariant o blob img] /\
  error (final_state o (handleGenerateVariants table s) s) = None /\
  isLoading (final_state o (handleGenerateVariants table s) s) = false.
Proof.
  intros Hf Hextract Hai Hgen Ht Htwo Htext Himage Hctx Hload.
  unfold final_state, states_of, result_of.
  rewrite (handleGenerateVariants_run table o s f Hf). cbv zeta.
  rewrite generateVariantsBody_run.
  rewrite (result_of_state o _ (generationStarted s) s).
  rewrite (requestGeneration_after_extraction table o f _ s structuredJson Hextract).
  rewrite (generate_in_time o _ _ s t _ Hai Hgen Ht).
  unfold publishFromResponse.
  unfold fewer_than_two_parts, lacks_text, response_image in *.
  destruct (response_parts response) as [ps|]; [|discriminate].
  rewrite Htwo.
  apply negb_false_iff in Htext.
  destruct (List.find has_text ps) as [tp|] eqn:Hfind_text.
  2: { apply find_none_existsb in Hfind_text. congruence. }
  destruct (List.find has_inlineData ps) as [ip|]; [|discriminate].
  rewrite Himage, run_bindE.
  unfold processFinalImage_default. rewrite processFinalImage_run, Hctx, Hload.
  repeat split; reflexivity.
Qed.

(** X2. When the extractor returns a description with an error marker, the flow
    ends in Error with the message of the extraction failure and makes no
    request to the Visual Generator: its interactions are those of
    [runOcrOnImage]. *)
Theorem extraction_failure_stops_generation
  (o : Oracle) (s : AppState) (f : File) (structuredJson : Json) :
  originalImage s = Some f ->
  table !! name f = None ->
  result_of o (runOcrOnImage f) s = Some structuredJson ->
  JsValue.error_property_truthy structuredJson = Some true ->
  error (final_state o (handleGenerateVariants table s) s) = Some MSG_OCR_FAILED /\
  variants (final_state o (handleGenerateVariants table s) s) = [] /\
  isLoading (final_state o (handleGenerateVariants table s) s) = false /\
  actions_of o (handleGenerateVariants table s) s = actions_of o (runOcrOnImage f) s.
Proof.
  intros Hf Hfix Hocr Hmarker.
  assert (Hextract : result_of o (extractStructuredJson table f) s
                     = Some (inl (Error MSG_OCR_FAILED))).
  { unfold extractStructuredJson, result_of in *. rewrite Hfix, run_bind.
    destruct (run o (runOcrOnImage f) s) as [[states acts] r]. simpl in Hocr. subst r.
    rewrite Hmarker. reflexivity. }
  assert (Hrequest : result_of o (requestGeneration table f (stylePreset s)) s
                     = Some (inl (Error MSG_OCR_FAILED))).
  { unfold requestGeneration, result_of in *. rewrite run_bindE.
    destruct (run o (extractStructuredJson table f) s) as [[states acts] r].
    simpl in Hextract. subst r. reflexivity. }
  split; [|split; [|split]].
  - unfold final_state, states_of.
    rewrite (handleGenerateVariants_run table o s f Hf). cbv zeta.
    rewrite generateVariantsBody_run, (result_of_state o _ (generationStarted s) s), Hrequest.
    reflexivity.
  - unfold final_state, states_of.
    rewrite (handleGenerateVariants_run table o s f Hf). cbv zeta.
    rewrite generateVariantsBody_run, (result_of_state o _ (generationStarted s) s), Hrequest.
    reflexivity.
  - unfold final_state, states_of.
    rewrite (handleGenerateVariants_run table o s f Hf). cbv zeta.
    rewrite generateVariantsBody_run, (result_of_state o _ (generationStarted s) s), Hrequest.
    reflexivity.
  - rewrite (actions_of_handleGenerateVariants table o s f Hf).
    rewrite generateVariantsBody_actions, Hrequest, app_nil_r.
    rewrite requestGeneration_actions, Hextract, app_nil_r.
    unfold extractStructuredJson. rewrite Hfix, actions_of_bind, Hocr, Hmarker.
    apply app_nil_r.
Qed.

(** X3. An export changes no variant, whatever happens to the download. *)
Theorem export_keeps_variants (o : Oracle) (variantId : string) (s : AppState) :
  Forall (fun st => variants st = variants s) (states_of o (onExportPng variantId s) s).
Proof.
  apply (all_updates_run (fun st => variants st = variants s)); [|reflexivity].
  unfold onExportPng, clickDownload, processFinalImage_default.
  repeat first [apply silent_all_updates, processFinalImage_silent | updates_step];
    simpl; assumption.
Qed.

(** X5. The export control, used while there is no variant, does nothing: no
    setter call, no interaction, hence no download. *)
Theorem export_without_variant_is_guarded (o : Oracle) (s : AppState) :
  variants s = [] ->
  run o (handler table ExportClick s) s = ([], [], Some tt).
Proof. intros Hnone. unfold handler. rewrite Hnone. reflexivity. Qed.

(** X4. In every reachable state there is no variant unless an image was
    uploaded. *)
Theorem no_variant_before_upload (sys : System) :
  reachable table sys -> image_before_variant (state sys).
Proof. intros Hreach. exact (proj1 (reachable_image_before_variant table sys Hreach)). Qed.

End MoreFacts.

Local Close Scope Q_scope.

(** ** More on the flows *)

Section CodeFacts.
Context {runtime : JsRuntime} (table : gmap string Json).

(** X9. The second piece of the text the reader gives, as [fileToBase64] takes
    it: with one comma, the text after it; with no comma, nothing
    ([undefined]). A failed read is passed on as the rejection. *)
Theorem fileToBase64_takes_the_text_after_the_comma (o : Oracle) (f : File) (s : AppState) :
  states_of o (fileToBase64 f) s = [] /\
  actions_of o (fileToBase64 f) s = [ReadAsDataURL f] /\
  (forall t head payload,
      o (ReadAsDataURL f) = Settles t (inr (head ++ String "," payload)%string) ->
      has_char "," head = false -> has_char "," payload = false ->
      result_of o (fileToBase64 f) s = Some (inr (Some payload))) /\
  (forall t url,
      o (ReadAsDataURL f) = Settles t (inr url) ->
      has_char "," url = false ->
      result_of o (fileToBase64 f) s = Some (inr None)) /\
  (forall t e,
      o (ReadAsDataURL f) = Settles t (inl e) ->
      result_of o (fileToBase64 f) s = Some (inl e)).
Proof.
  unfold fileToBase64, states_of, actions_of, result_of, bindE, await, ok, throw.
  cbn [run bind act].
  split; [destruct (o (ReadAsDataURL f)) as [t [e|url]|]; reflexivity|].
  split; [destruct (o (ReadAsDataURL f)) as [t [e|url]|]; reflexivity|].
  split; [|split].
  - intros t head payload -> Hhead Hpayload. cbn.
    rewrite (split_char_app _ _ _ Hhead), (split_char_whole _ _ Hpayload). reflexivity.
  - intros t url -> Hurl. cbn. rewrite (split_char_whole _ _ Hurl). reflexivity.
  - intros t e ->. reflexivity.
Qed.

Lemma runOcrOnImage_stalled (o : Oracle) (f : File) (s : AppState) (t : N) (url : string) :
  o NewGoogleGenAI = None ->
  o (ReadAsDataURL f) = Settles t (inr url) ->
  o (GenerateContent (ocrRequest (nth_error (JsString.split_char "," url) 1) f)) = Pending ->
  result_of o (runOcrOnImage f) s = None.
Proof.
  intros Hai Hread Hgen.
  unfold runOcrOnImage, fileToBase64, result_of, bindE, await, throw, ok.
  cbn [run bind act]. rewrite Hai. cbn [run bind act]. rewrite Hread.
  cbn [run bind act]. rewrite Hgen. reflexivity.
Qed.

(** X10. [runOcrOnImage] never throws and never calls a setter. It is left
    waiting, or it returns: the marked description [ocrFailure] after any
    failure (the client, the reading of the file, the request, a response
    without text, a text that is not JSON), or else the parsed text of the
    response. [ocrFailure] carries the error marker. *)
Theorem extraction_failures_become_the_marker (o : Oracle) (f : File) (s : AppState) :
  states_of o (runOcrOnImage f) s = [] /\
  JsValue.error_property_truthy ocrFailure = Some true /\
  (result_of o (runOcrOnImage f) s = None
   \/ result_of o (runOcrOnImage f) s = Some ocrFailure
   \/ exists t url t' response answer json,
        o NewGoogleGenAI = None /\
        o (ReadAsDataURL f) = Settles t (inr url) /\
        o (GenerateContent (ocrRequest (nth_error (JsString.split_char "," url) 1) f))
          = Settles t' (inr response) /\
        response_text response = Some answer /\
        JSON_parse (trim answer) = inr json /\
        result_of o (runOcrOnImage f) s = Some json).
Proof.
  split; [apply silent_run, runOcrOnImage_silent|]. split; [reflexivity|].
  unfold runOcrOnImage, fileToBase64, result_of, bindE, await, throw, ok.
  cbn [run bind act].
  destruct (o NewGoogleGenAI) as [e|] eqn:Hai; cbn [run bind act];
    [right; left; reflexivity|].
  destruct (o (ReadAsDataURL f)) as [t [e|url]|] eqn:Hread; cbn [run bind act];
    [right; left; reflexivity| |left; reflexivity].
  destruct (o (GenerateContent (ocrRequest (nth_error (JsString.split_char "," url) 1) f)))
    as [t' [e|response]|] eqn:Hgen; cbn [run bind act];
    [right; left; reflexivity| |left; reflexivity].
  destruct (response_text response) as [answer|] eqn:Htext; cbn [run bind act];
    [|right; left; reflexivity].
  destruct (JSON_parse (trim answer)) as [e|json] eqn:Hparse; cbn [run bind act];
    [right; left; reflexivity|].
  right; right. exists t, url, t', response, answer, json. repeat split; auto.
Qed.

Lemma requestGeneration_stalled (o : Oracle) (f : File) (style : StylePreset) (s : AppState) :
  table !! name f = None ->
  result_of o (runOcrOnImage f) s = None ->
  result_of o (requestGeneration table f style) s = None.
Proof.
  intros Hfix Hocr. unfold requestGeneration, extractStructuredJson, result_of in *.
  rewrite Hfix, run_bindE, run_bind.
  destruct (run o (runOcrOnImage f) s) as [[states acts] r]. simpl in Hocr. subst r.
  reflexivity.
Qed.

(** X11. Only the request to the Visual Generator is raced against the timer:
    when the request to the extraction model never settles, the generation
    flow never returns, and the loading flag stays set. *)
Theorem extraction_has_no_timeout (o : Oracle) (s : AppState) (f : File) (t : N) (url : string) :
  originalImage s = Some f ->
  table !! name f = None ->
  o NewGoogleGenAI = None ->
  o (ReadAsDataURL f) = Settles t (inr url) ->
  o (GenerateContent (ocrRequest (nth_error (JsString.split_char "," url) 1) f)) = Pending ->
  result_of o (handleGenerateVariants table s) s = None /\
  isLoading (final_state o (handleGenerateVariants table s) s) = true /\
  error (final_state o (handleGenerateVariants table s) s) = None /\
  variants (final_state o (handleGenerateVariants table s) s) = [].
Proof.
  intros Hf Hfix Hai Hread Hgen.
  pose proof (requestGeneration_stalled o f (stylePreset s) s Hfix
                (runOcrOnImage_stalled o f s t url Hai Hread Hgen)) as Hstalled.
  unfold final_state, states_of, result_of.
  rewrite (handleGenerateVariants_run table o s f Hf). cbv zeta.
  rewrite generateVariantsBody_run, (result_of_state o _ (generationStarted s) s), Hstalled.
  repeat split; reflexivity.
Qed.

(** X12. The edit flow has no timer: when the Visual Generator never settles the
    flow never returns, the flag [isTweaking] stays set and the variants are
    as they were. *)
Theorem edit_has_no_timeout
  (o : Oracle) (variantId tweakText : string) (s : AppState) (v : Variant) (m d : string) :
  List.find (fun v => String.eqb (id v) variantId) (variants s) = Some v ->
  o NewGoogleGenAI = None ->
  JsString.match_data_url (sourceGraphicUrl v) = Some (m, d) ->
  o (GenerateContent (tweakRequestParameters m d tweakText)) = Pending ->
  result_of o (handleApplyTweak variantId tweakText s) s = None /\
  isTweaking (final_state o (handleApplyTweak variantId tweakText s) s) = true /\
  error (final_state o (handleApplyTweak variantId tweakText s) s) = None /\
  variants (final_state o (handleApplyTweak variantId tweakText s) s) = variants s.
Proof.
  intros Hfind Hai Hmatch Hgen.
  assert (Hstalled : forall s', result_of o (requestTweak v tweakText) s' = None).
  { intros s'. unfold requestTweak, result_of. cbn [run bind act]. rewrite Hai, Hmatch.
    cbn [run bind act]. rewrite Hgen. reflexivity. }
  unfold final_state, states_of, result_of.
  rewrite handleApplyTweak_run. cbv zeta. rewrite Hfind.
  rewrite applyTweakBody_run, Hstalled.
  repeat split; reflexivity.
Qed.

Lemma generate_settles (o : Oracle) (style : StylePreset) (structuredJson : Json) (s : AppState) :
  exists r, result_of o (generate style structuredJson) s = Some r.
Proof.
  unfold generate, result_of. cbn [run bind act].
  destruct (o NewGoogleGenAI); [eexists; reflexivity|]. cbn [run bind act].
  unfold Promise_race, rejectAfter, fold_right, race2.
  destruct (o (GenerateContent (generationRequest style structuredJson))) as [t out|];
    [destruct (t <=? GENERATION_TIMEOUT_MS)%N|]; eexists; reflexivity.
Qed.

(** X13. The request to the Visual Generator never leaves the flow waiting: the
    race settles within [GENERATION_TIMEOUT_MS], with the answer of the
    generator when that came in time and with the rejection of the timer
    otherwise. *)
Theorem generation_request_always_settles
  (o : Oracle) (style : StylePreset) (structuredJson : Json) (s : AppState) :
  exists r,
    result_of o (generate style structuredJson) s = Some r /\
    (o NewGoogleGenAI = None ->
     exists t,
       Promise_race [o (GenerateContent (generationRequest style structuredJson));
                     rejectAfter GENERATION_TIMEOUT_MS (Error MSG_TIMED_OUT)] = Settles t r /\
       (t <= GENERATION_TIMEOUT_MS)%N /\
       match o (GenerateContent (generationRequest style structuredJson)) with
       | Settles t' out =>
           if (t' <=? GENERATION_TIMEOUT_MS)%N then r = out else r = inl (Error MSG_TIMED_OUT)
       | Pending => r = inl (Error MSG_TIMED_OUT)
       end).
Proof.
  unfold generate, result_of. cbn [run bind act].
  destruct (o NewGoogleGenAI); [eexists; split; [reflexivity|discriminate]|].
  cbn [run bind act]. unfold Promise_race, rejectAfter, fold_right, race2.
  destruct (o (GenerateContent (generationRequest style structuredJson))) as [t out|].
  - destruct (t <=? GENERATION_TIMEOUT_MS)%N eqn:Ht.
    + eexists. split; [reflexivity|]. intros _. exists t.
      split; [reflexivity|]. split; [apply N.leb_le; exact Ht|reflexivity].
    + eexists. split; [reflexivity|]. intros _. exists GENERATION_TIMEOUT_MS.
      split; [reflexivity|]. split; [reflexivity|reflexivity].
  - eexists. split; [reflexivity|]. intros _. exists GENERATION_TIMEOUT_MS.
    split; [reflexivity|]. split; reflexivity.
Qed.

Lemma publishFromResponse_waits (o : Oracle) (response : GenerateContentResponse) (s : AppState) :
  result_of o (publishFromResponse response) s = None ->
  exists blob, o GetContext2d = true /\ o (LoadImage (dataUrl blob)) = Pending.
Proof.
  unfold publishFromResponse, result_of.
  destruct (response_parts response) as [ps|]; [|discriminate].
  destruct (length ps <? 2)%nat; [discriminate|].
  destruct (List.find has_text ps) as [tp|];
    [|destruct (List.find has_inlineData ps); discriminate].
  destruct (List.find has_inlineData ps) as [ip|]; [|discriminate].
  destruct (inlineData ip) as [blob|]; [|discriminate].
  rewrite run_bindE. unfold processFinalImage_default. rewrite processFinalImage_run.
  destruct (o GetContext2d); [|discriminate].
  destruct (o (LoadImage (dataUrl blob))) as [t [e|img]|] eqn:Hload; try discriminate.
  intros _. exists blob. split; [reflexivity|exact Hload].
Qed.

(** X14. A generation flow that never returns is waiting for the extraction or
    for the image of the response to load, not for the Visual Generator. *)
Theorem generation_waits_only_outside_the_race (o : Oracle) (s : AppState) (f : File) :
  originalImage s = Some f ->
  result_of o (handleGenerateVariants table s) s = None ->
  result_of o (extractStructuredJson table f) s = None \/
  exists blob, o GetContext2d = true /\ o (LoadImage (dataUrl blob)) = Pending.
Proof.
  intros Hf. unfold result_of at 1.
  rewrite (handleGenerateVariants_run table o s f Hf). cbv zeta.
  rewrite generateVariantsBody_run, (result_of_state o _ (generationStarted s) s).
  destruct (result_of o (requestGeneration table f (stylePreset s)) s)
    as [[e|response]|] eqn:Hrequest; [discriminate| |].
  - rewrite run_eta.
    destruct (result_of o (publishFromResponse response) (generationStarted s))
      as [[e|[]]|] eqn:Hpublish; try discriminate.
    intros _. right. exact (publishFromResponse_waits o response _ Hpublish).
  - intros _. left.
    destruct (result_of o (extractStructuredJson table f) s) as [[e|json]|] eqn:Hextract;
      [|exfalso|reflexivity].
    + unfold requestGeneration, result_of in *. rewrite run_bindE in Hrequest.
      destruct (run o (extractStructuredJson table f) s) as [[states acts] r].
      simpl in Hextract. subst r. discriminate.
    + rewrite (requestGeneration_after_extraction table o f _ s json Hextract) in Hrequest.
      destruct (generate_settles o (stylePreset s) json s) as [r Hr]. congruence.
Qed.

(** X15. Whatever the [try] block of the generation flow throws is caught: the
    flow returns, the message shown is that of the exception when it has a
    non-empty one and the default text otherwise, no variant is held and the
    loading flag is cleared. *)
Theorem generation_exception_is_surfaced (o : Oracle) (s : AppState) (f : File) (e : JsError) :
  originalImage s = Some f ->
  result_of o (generateVariantsBody table f (stylePreset s)) s = Some (inl e) ->
  let final := final_state o (handleGenerateVariants table s) s in
  result_of o (handleGenerateVariants table s) s = Some tt /\
  error final = Some (message_or e MSG_GENERATE_DEFAULT) /\
  (forall m, message e = Some m -> m <> EmptyString -> error final = Some m) /\
  (message e = None \/ message e = Some EmptyString -> error final = Some MSG_GENERATE_DEFAULT) /\
  variants final = [] /\
  isLoading final = false.
Proof.
  intros Hf Hthrown. cbv zeta.
  rewrite (result_of_state o _ s (generationStarted s)) in Hthrown.
  assert (Herror : error (final_state o (handleGenerateVariants table s) s)
                   = Some (message_or e MSG_GENERATE_DEFAULT) /\
                   result_of o (handleGenerateVariants table s) s = Some tt /\
                   variants (final_state o (handleGenerateVariants table s) s) = [] /\
                   isLoading (final_state o (handleGenerateVariants table s) s) = false).
  { unfold final_state, states_of, result_of.
    rewrite (handleGenerateVariants_run table o s f Hf). cbv zeta.
    rewrite run_eta, Hthrown.
    destruct (generateVariantsBody_cases table o f (stylePreset s) (generationStarted s))
      as [(e' & Hstates & _) | [[_ Hresult] | (blob & t & img & _ & _ & Hresult)]];
      [|congruence|congruence].
    rewrite Hstates. repeat split; reflexivity. }
  destruct Herror as (Herror & Hresult & Hvariants & Hloading).
  repeat split; auto.
  - intros m Hm Hnonempty. rewrite Herror. unfold message_or. rewrite Hm.
    destruct m; [contradiction|reflexivity].
  - intros [Hm|Hm]; rewrite Herror; unfold message_or; rewrite Hm; reflexivity.
Qed.

(** X16. When the extraction model answers [null], reading the marker throws: the
    flow ends with the message of that [TypeError] (or the default text), not
    with the message of a failed extraction, and makes no request to the
    Visual Generator. *)
Theorem null_description_is_a_type_error (o : Oracle) (s : AppState) (f : File) :
  originalImage s = Some f ->
  table !! name f = None ->
  result_of o (runOcrOnImage f) s = Some JNull ->
  error (final_state o (handleGenerateVariants table s) s)
    = Some (message_or typeError MSG_GENERATE_DEFAULT) /\
  variants (final_state o (handleGenerateVariants table s) s) = [] /\
  isLoading (final_state o (handleGenerateVariants table s) s) = false /\
  actions_of o (handleGenerateVariants table s) s = actions_of o (runOcrOnImage f) s.
Proof.
  intros Hf Hfix Hocr.
  assert (Hextract : result_of o (extractStructuredJson table f) s = Some (inl typeError)).
  { unfold extractStructuredJson, result_of in *. rewrite Hfix, run_bind.
    destruct (run o (runOcrOnImage f) s) as [[states acts] r]. simpl in Hocr. subst r.
    reflexivity. }
  assert (Hrequest : result_of o (requestGeneration table f (stylePreset s)) s
                     = Some (inl typeError)).
  { unfold requestGeneration, result_of in *. rewrite run_bindE.
    destruct (run o (extractStructuredJson table f) s) as [[states acts] r].
    simpl in Hextract. subst r. reflexivity. }
  assert (Hrun : run o (handleGenerateVariants table s) s
                 = (failedGeneration (message_or typeError MSG_GENERATE_DEFAULT) s,
                    actions_of o (requestGeneration table f (stylePreset s)) (generationStarted s),
                    Some tt)).
  { rewrite (handleGenerateVariants_run table o s f Hf). cbv zeta.
    rewrite generateVariantsBody_run, (result_of_state o _ (generationStarted s) s), Hrequest.
    reflexivity. }
  unfold final_state, states_of. rewrite Hrun.
  split; [reflexivity|]. split; [reflexivity|]. split; [reflexivity|].
  rewrite (actions_of_handleGenerateVariants table o s f Hf).
  rewrite generateVariantsBody_actions, Hrequest, app_nil_r.
  rewrite requestGeneration_actions, Hextract, app_nil_r.
  unfold extractStructuredJson. rewrite Hfix, actions_of_bind, Hocr.
  apply app_nil_r.
Qed.

(** X17. The compositor calls no setter. Without a drawing context it rejects at
    once and never loads the image; with one it loads the image and rejects
    when that fails, waits while it does not load, and otherwise resolves
    with the data URL of the composite. *)
Theorem compositor_outcomes (o : Oracle) (src bg : string) (w : Z) (s : AppState) :
  states_of o (processFinalImage src bg w) s = [] /\
  (o GetContext2d = false ->
   actions_of o (processFinalImage src bg w) s = [GetContext2d] /\
   result_of o (processFinalImage src bg w) s
     = Some (inl (Error "Could not get canvas context"))) /\
  (o GetContext2d = true ->
   actions_of o (processFinalImage src bg w) s = [GetContext2d; LoadImage src] /\
   (forall t e, o (LoadImage src) = Settles t (inl e) ->
      result_of o (processFinalImage src bg w) s
        = Some (inl (Error "Failed to load image for processing."))) /\
   (o (LoadImage src) = Pending -> result_of o (processFinalImage src bg w) s = None) /\
   (forall t img, o (LoadImage src) = Settles t (inr img) ->
      result_of o (processFinalImage src bg w) s
        = Some (inr (toDataURL (composite src bg w img))))).
Proof.
  unfold states_of, actions_of, result_of. rewrite processFinalImage_run.
  split; [destruct (o GetContext2d); reflexivity|].
  split; intros ->; [split; reflexivity|].
  split; [reflexivity|]. split; [|split].
  - intros t e ->. reflexivity.
  - intros ->. reflexivity.
  - intros t img ->. reflexivity.
Qed.

(** X18. With an image uploaded, the loading flag follows the generation flow:
    it is set while the flow is under way, also when the flow is left waiting
    for ever, and it is cleared, with the comparison turned off, whenever the
    flow returns. *)
Theorem loading_flag_follows_the_flow (o : Oracle) (s : AppState) (f : File) :
  originalImage s = Some f ->
  let flow := handleGenerateVariants table s in
  (result_of o flow s = None -> isLoading (final_state o flow s) = true) /\
  (result_of o flow s = Some tt ->
   isLoading (final_state o flow s) = false /\ compareOn (final_state o flow s) = false) /\
  (exists first rest, states_of o flow s = first :: rest /\ isLoading first = true).
Proof.
  intros Hf. cbv zeta. unfold final_state, states_of, result_of.
  rewrite (handleGenerateVariants_run table o s f Hf). cbv zeta.
  rewrite run_eta.
  destruct (generateVariantsBody_cases table o f (stylePreset s) (generationStarted s))
    as [(e & -> & ->) | [[-> ->] | (blob & t & img & _ & -> & ->)]].
  - split; [discriminate|]. split; [intros _; split; reflexivity|].
    eexists _, _. split; reflexivity.
  - split; [reflexivity|]. split; [discriminate|].
    eexists _, _. split; reflexivity.
  - split; [discriminate|]. split; [intros _; split; reflexivity|].
    eexists _, _. split; reflexivity.
Qed.

(** X19. With a variant on display and an instruction typed in, the Improve
    control edits the first variant, and the edit finds it: a flow that
    returns has cleared [isTweaking], kept the number of variants, and ends
    with no message or with [MSG_TWEAK_FAILED], never with
    [MSG_TWEAK_NOT_FOUND]; it asks for no extraction and no generation from a
    description. *)
Theorem improve_edits_the_variant_on_display
  (o : Oracle) (s : AppState) (first : Variant) (rest : list Variant) :
  variants s = first :: rest ->
  JsString.truthy (trim (tweakRequest s)) = true ->
  let flow := handleImproveSlide table s in
  flow = handleApplyTweak (id first) (tweakRequest s) s /\
  (result_of o flow s = Some tt ->
   isTweaking (final_state o flow s) = false /\
   length (variants (final_state o flow s)) = length (variants s) /\
   (error (final_state o flow s) = None \/
    error (final_state o flow s) = Some MSG_TWEAK_FAILED)) /\
  Forall (fun a => is_extractor_action a = false /\
                   forall style json, a <> GenerateContent (generationRequest style json))
    (actions_of o flow s).
Proof.
  intros Hvariants Htext. cbv zeta.
  assert (Hflow : handleImproveSlide table s = handleApplyTweak (id first) (tweakRequest s) s).
  { unfold handleImproveSlide. rewrite Hvariants, Htext. reflexivity. }
  rewrite Hflow. split; [reflexivity|].
  assert (Hfind : List.find (fun v => String.eqb (id v) (id first)) (variants s) = Some first).
  { rewrite Hvariants. simpl. rewrite String.eqb_refl. reflexivity. }
  unfold final_state, states_of, actions_of, result_of.
  rewrite handleApplyTweak_run. cbv zeta. rewrite Hfind.
  set (s2 := setError (fun _ => None) (setIsTweaking (fun _ => true) s)).
  assert (Hacts : Forall (fun a => is_extractor_action a = false /\
                     forall style json, a <> GenerateContent (generationRequest style json))
                    (actions_of o (applyTweakBody first (id first) (tweakRequest s)) s2)).
  { unfold actions_of. rewrite applyTweakBody_run.
    assert (Hrequest : Forall (fun a => is_extractor_action a = false /\
                          forall style json, a <> GenerateContent (generationRequest style json))
                         (actions_of o (requestTweak first (tweakRequest s)) s2)).
    { unfold requestTweak, actions_of. cbn [run bind act].
      destruct (o NewGoogleGenAI); [repeat constructor; discriminate|].
      destruct (JsString.match_data_url (sourceGraphicUrl first)) as [[m d]|];
        [|repeat constructor; discriminate].
      cbn [run bind act].
      destruct (o (GenerateContent (tweakRequestParameters m d (tweakRequest s))))
        as [t [e|response]|]; repeat constructor; discriminate. }
    destruct (result_of o (requestTweak first (tweakRequest s)) s2) as [[e|response]|];
      try exact Hrequest.
    rewrite run_eta. cbn [fst snd]. apply Forall_app. split; [exact Hrequest|].
    unfold applyResponse, actions_of.
    destruct (response_image response) as [blob|]; [|constructor].
    rewrite run_bindE. unfold processFinalImage_default. rewrite processFinalImage_run.
    destruct (o GetContext2d); [|repeat constructor; discriminate].
    destruct (o (LoadImage (dataUrl blob))) as [t [e|img]|]; repeat constructor; discriminate. }
  unfold actions_of in Hacts.
  rewrite run_eta in *. cbn [fst snd] in Hacts.
  destruct (applyTweakBody_cases o first (id first) (tweakRequest s) s2)
    as [(e & -> & ->) | [[-> ->] | (response & blob & t & img & _ & _ & _ & -> & ->)]].
  - split; [|exact Hacts]. intros _. repeat split. right. reflexivity.
  - split; [|exact Hacts]. discriminate.
  - split; [|exact Hacts]. intros _. split; [reflexivity|]. split; [|left; reflexivity].
    cbn. unfold applyTweak. apply List.length_map.
Qed.

(** X20. An export of a variant that has its display image makes one interaction,
    the download of that image under the fixed file name, and no compositing;
    it changes the state only when the download throws, by the export
    message. *)
Theorem export_downloads_the_display_image
  (o : Oracle) (variantId : string) (s : AppState) (v : Variant) :
  List.find (fun v => String.eqb (id v) variantId) (variants s) = Some v ->
  JsString.truthy (displayImageUrl v) = true ->
  actions_of o (onExportPng variantId s) s
    = [ClickDownloadLink (displayImageUrl v) "slide_surgeon_export.png"] /\
  result_of o (onExportPng variantId s) s = Some tt /\
  final_state o (onExportPng variantId s) s
    = match o (ClickDownloadLink (displayImageUrl v) "slide_surgeon_export.png") with
      | Some _ => setError (fun _ => Some MSG_EXPORT_FAILED) s
      | None => s
      end.
Proof.
  intros Hfind Hdisplay.
  unfold onExportPng, clickDownload, final_state, states_of, actions_of, result_of.
  rewrite Hfind, Hdisplay. cbn [run bind act].
  destruct (o (ClickDownloadLink (displayImageUrl v) "slide_surgeon_export.png"));
    repeat split; reflexivity.
Qed.

(** X21. An export of a variant without display image composes the raw image
    first and downloads the result; when the compositing fails the export
    message for it is set and nothing is downloaded. An export of an
    identifier that no variant has sets the message for that and interacts
    with nothing. *)
Theorem export_falls_back_to_the_raw_image
  (o : Oracle) (variantId : string) (s : AppState) :
  match List.find (fun v => String.eqb (id v) variantId) (variants s) with
  | None =>
      run o (onExportPng variantId s) s
      = ([setError (fun _ => Some MSG_EXPORT_NOT_FOUND) s], [], Some tt)
  | Some v =>
      displayImageUrl v = EmptyString ->
      match result_of o (processFinalImage_default (sourceGraphicUrl v)) s with
      | Some (inr exportUrl) =>
          actions_of o (onExportPng variantId s) s
          = [GetContext2d; LoadImage (sourceGraphicUrl v);
             ClickDownloadLink exportUrl "slide_surgeon_export.png"]
      | Some (inl _) =>
          states_of o (onExportPng variantId s) s
            = [setError (fun _ => Some MSG_EXPORT_PROCESS) s] /\
          Forall (fun a => forall href download, a <> ClickDownloadLink href download)
            (actions_of o (onExportPng variantId s) s)
      | None =>
          run o (onExportPng variantId s) s
          = ([], [GetContext2d; LoadImage (sourceGraphicUrl v)], None)
      end
  end.
Proof.
  unfold onExportPng.
  destruct (List.find _ (variants s)) as [v|]; [|reflexivity].
  intros ->. cbn [JsString.truthy].
  unfold states_of, actions_of, result_of. rewrite run_bind.
  unfold processFinalImage_default. rewrite processFinalImage_run.
  destruct (o GetContext2d); [|cbn; split; [reflexivity|repeat constructor; discriminate]].
  destruct (o (LoadImage (sourceGraphicUrl v))) as [t [e|img]|]; cbn.
  - split; [reflexivity|repeat constructor; discriminate].
  - unfold clickDownload. cbn [run bind act].
    destruct (o (ClickDownloadLink _ _)); reflexivity.
  - reflexivity.
Qed.

(** X22. An upload, with or without a file, empties the list of variants, clears
    the message and turns the comparison off, and touches nothing else but
    the image: with a file chosen that becomes the image, with none the image
    stays. The flags, the style and the instruction stay as they are; so
    after an upload the Improve control starts a generation, also when an
    instruction is still typed in. *)
Theorem upload_resets_the_results (o : Oracle) (files : option (list File)) (s : AppState) :
  let final := final_state o (handleImageUpload files) s in
  result_of o (handleImageUpload files) s = Some tt /\
  actions_of o (handleImageUpload files) s = [] /\
  variants final = [] /\ error final = None /\ compareOn final = false /\
  originalImage final
    = match files with
      | Some (file :: _) => Some file
      | _ => originalImage s
      end /\
  stylePreset final = stylePreset s /\ tweakRequest final = tweakRequest s /\
  isLoading final = isLoading s /\ isTweaking final = isTweaking s /\
  handleImproveSlide table final = handleGenerateVariants table final.
Proof. destruct files as [[|file files]|]; repeat split; reflexivity. Qed.

(** *** What the updates of the flows keep *)

Lemma all_updates_bindE_returns {A B : Type} P (m : Async (JsError + A))
  (k : A -> Async (JsError + B)) :
  all_updates P m -> (forall a, returns m (inr a) -> all_updates P (k a)) ->
  all_updates P (bindE m k).
Proof.
  unfold bindE. intros Hm Hk.
  induction m as [r|f m IH|a h IH|]; simpl in *.
  - destruct r as [e|a]; [exact I|]. apply Hk. reflexivity.
  - destruct Hm as [Hf Hm]. split; [exact Hf|]. apply IH; assumption.
  - intros r. apply IH; [apply Hm|]. intros a0 Hret. apply Hk. exists r. exact Hret.
  - exact I.
Qed.

Lemma processFinalImage_returns (src bg : string) (w : Z) (url : string) :
  returns (processFinalImage src bg w) (inr url) ->
  exists img, url = toDataURL (composite src bg w img).
Proof.
  unfold processFinalImage. simpl. intros [ctx Hctx].
  destruct ctx; simpl in Hctx; [|discriminate].
  destruct Hctx as [loaded Hloaded].
  destruct loaded as [t [e|img]|]; simpl in Hloaded; try discriminate; [|contradiction].
  exists img. congruence.
Qed.

Lemma applyTweak_composed (variantId : string) (blob : Blob) (img : Image.t) (l : list Variant) :
  Forall composed l ->
  Forall composed
    (applyTweak variantId (dataUrl blob)
       (toDataURL (composite (dataUrl blob) "#FFFFFF" 1920 img)) l).
Proof.
  unfold applyTweak. induction 1 as [|v l Hv Hl IH]; simpl; constructor; auto.
  destruct (String.eqb (id v) variantId); [|exact Hv].
  split; simpl; eauto.
Qed.

(** The structure of every handler, down to the setter calls, with what the
    compositor can have returned where its result is used. *)
Ltac flow_updates :=
  unfold handler, handleImageUpload, handleStylePresetChange, onCompareToggle,
    handleImproveSlide, handleGenerateVariants, handleApplyTweak, onExportPng,
    clickDownload, try_finally, try_catch, generateVariantsBody, applyTweakBody,
    publishFromResponse, applyResponse, processFinalImage_default;
  repeat first
    [ apply silent_all_updates, requestGeneration_silent
    | apply silent_all_updates, requestTweak_silent
    | match goal with
      | |- all_updates _ (bindE (processFinalImage _ _ _) _) =>
          apply all_updates_bindE_returns;
          [ apply silent_all_updates, processFinalImage_silent
          | let url := fresh "url" in
            let Hurl := fresh "Hurl" in
            let img := fresh "img" in
            intros url Hurl; apply processFinalImage_returns in Hurl;
            destruct Hurl as [img ->] ]
      end
    | apply silent_all_updates, processFinalImage_silent
    | updates_step ].

Lemma handlers_keep_well_composed (ev : Event) (snap : AppState) :
  all_updates (keeps well_composed) (handler table ev snap).
Proof.
  flow_updates;
    try (intros x Hx; unfold well_composed in *; simpl; auto; fail).
  - intros x Hx. unfold well_composed. simpl. constructor; [|constructor].
    split; simpl; eauto.
  - intros x Hx. unfold well_composed in *. simpl. apply applyTweak_composed. exact Hx.
  - intros x Hx. unfold well_composed. simpl. constructor; [|constructor].
    split; simpl; eauto.
Qed.

(** X23. In every reachable state the two images of every variant belong
    together: the raw image is the data URL of an image part of a response,
    and the display image is the composite of that same raw image on the
    white 1920-pixel canvas. No interleaving of generations and edits pairs a
    display image with another raw image. *)
Theorem variant_images_belong_together (sys : System) :
  reachable table sys ->
  forall v, In v (variants (state sys)) ->
    (exists blob, sourceGraphicUrl v = dataUrl blob) /\
    (exists img,
        displayImageUrl v = toDataURL (composite (sourceGraphicUrl v) "#FFFFFF" 1920 img)).
Proof.
  intros Hreach v Hv.
  destruct (reachable_invariant table well_composed (List.Forall_nil _)
              handlers_keep_well_composed sys Hreach) as [Hstate _].
  unfold well_composed in Hstate. rewrite List.Forall_forall in Hstate.
  exact (Hstate v Hv).
Qed.

(** X24. An edit changes no variant but those with the identifier it was asked
    for, whatever state its updates meet: in every state the flow goes
    through, the list of variants has the length it had and every variant
    with another identifier is where and what it was. So an edit that
    completes after its variant was replaced changes nothing. *)
Theorem edit_touches_only_its_variant
  (o : Oracle) (variantId tweakText : string) (snap s : AppState) :
  Forall (fun st =>
            length (variants st) = length (variants s) /\
            forall (i : nat) (v : Variant),
              variants s !! i = Some v -> id v <> variantId -> variants st !! i = Some v)
    (states_of o (handleApplyTweak variantId tweakText snap) s).
Proof.
  set (Inv := fun st : AppState =>
                length (variants st) = length (variants s) /\
                forall (i : nat) (v : Variant),
                  variants s !! i = Some v -> id v <> variantId ->
                  variants st !! i = Some v).
  apply (all_updates_run Inv); [|split; auto].
  change (all_updates (keeps Inv) (handleApplyTweak variantId tweakText snap)).
  flow_updates; try (intros x Hx; exact Hx).
  intros x [Hlen Hsame]. unfold Inv. simpl. split.
  - unfold applyTweak. rewrite List.length_map. exact Hlen.
  - intros i kept Hkept Hid. rewrite applyTweak_lookup, (Hsame i kept Hkept Hid).
    destruct (String.eqb (id kept) variantId) eqn:Heq; [|reflexivity].
    apply String.eqb_eq in Heq. contradiction.
Qed.

(** X25. The Improve control and the export leave the user's inputs alone: in
    every state their flows go through, the uploaded image, the style and
    the instruction are what they were. In particular the instruction is not
    cleared by a successful edit. *)
Theorem flows_leave_the_inputs_alone
  (o : Oracle) (variantId : string) (snap s : AppState) :
  let untouched st :=
    originalImage st = originalImage s /\ stylePreset st = stylePreset s /\
    tweakRequest st = tweakRequest s in
  Forall untouched (states_of o (handleImproveSlide table snap) s) /\
  Forall untouched (states_of o (onExportPng variantId snap) s).
Proof.
  cbv zeta.
  set (Inv := fun st : AppState =>
                originalImage st = originalImage s /\ stylePreset st = stylePreset s /\
                tweakRequest st = tweakRequest s).
  split.
  - apply (all_updates_run Inv); [|unfold Inv; auto].
    change (all_updates (keeps Inv) (handleImproveSlide table snap)).
    flow_updates; intros x Hx; exact Hx.
  - apply (all_updates_run Inv); [|unfold Inv; auto].
    change (all_updates (keeps Inv) (onExportPng variantId snap)).
    flow_updates; intros x Hx; exact Hx.
Qed.

(** *** The fixtures, the prompt, the canvas *)

Lemma foldl_insert_keeps_key (entries : list (string * Json)) (m : gmap string Json) (k : string) :
  is_Some (m !! k) ->
  is_Some (foldl (fun m entry => <[entry.1 := entry.2]> m) m entries !! k).
Proof.
  revert m. induction entries as [|entry entries IH]; intros m Hk; [exact Hk|].
  simpl. apply IH. apply lookup_insert_is_Some'. right. exact Hk.
Qed.

(** X26. Whatever the part of [demo-data.ts] that is not at hand holds, the three
    names it shows are keys of the table, so for an uploaded file of one of
    these names the generation flow performs no interaction of the Content
    Extractor. The match is on the exact name: in the table as far as the
    file shows it, no other name is a key. *)
Theorem shown_fixture_names_skip_extraction
  (more_edges : list Json) (more_entries : list (string * Json)) :
  (forall (o : Oracle) (s : AppState) (f : File),
      originalImage s = Some f ->
      name f = "roadmap.png" \/ name f = "survey.png" \/ name f = "flowchart.png" ->
      Forall (fun a => is_extractor_action a = false)
        (actions_of o (handleGenerateVariants (DEMO_DATA more_edges more_entries) s) s)) /\
  (forall k : string,
      k <> "roadmap.png" -> k <> "survey.png" -> k <> "flowchart.png" ->
      DEMO_DATA more_edges [] !! k = None).
Proof.
  split.
  - intros o s f Hf Hname.
    assert (Hkey : is_Some (DEMO_DATA more_edges more_entries !! name f)).
    { unfold DEMO_DATA. rewrite foldl_app. apply foldl_insert_keeps_key. simpl.
      destruct Hname as [-> | [-> | ->]];
        repeat first [ apply lookup_insert_is_Some'; left; reflexivity
                     | apply lookup_insert_is_Some'; right ]. }
    destruct Hkey as [fixture Hfix].
    destruct (fixture_actions (DEMO_DATA more_edges more_entries) o s f fixture Hf Hfix)
      as (rest & -> & Hrest).
    apply Forall_app. split.
    + rewrite generate_actions. destruct (o NewGoogleGenAI); repeat constructor.
    + eapply List.Forall_impl; [|exact Hrest].
      intros a. apply generator_side_not_extractor.
  - intros k Hroadmap Hsurvey Hflowchart. unfold DEMO_DATA. simpl.
    rewrite !lookup_insert_ne by congruence. apply lookup_empty.
Qed.

(** X27. The prompt sent to the Visual Generator is the master prompt with the
    name of the style in the place of its first placeholder and the JSON
    text in the place of the second, both verbatim, provided the JSON text
    holds no dollar sign (which [replace] would read as a pattern). *)
Theorem finalPrompt_inserts_style_and_data :
  exists head middle tail : string,
    MASTER_RECONSTRUCT_PROMPT
      = (head ++ "{{stylePreset}}" ++ middle ++ "{{jsonData}}" ++ tail)%string /\
    forall (style : StylePreset) (structuredJson : Json),
      has_char "$" (JSON_stringify structuredJson) = false ->
      finalPrompt style structuredJson
      = (head ++ StylePreset_text style ++ middle
           ++ JSON_stringify structuredJson ++ tail)%string.
Proof.
  destruct (JsString.split_first "{{stylePreset}}" MASTER_RECONSTRUCT_PROMPT)
    as [[head rest]|] eqn:Hfirst; [|vm_compute in Hfirst; discriminate].
  destruct (JsString.split_first "{{jsonData}}" rest)
    as [[middle tail]|] eqn:Hsecond.
  2: { vm_compute in Hfirst. injection Hfirst as <- <-. vm_compute in Hsecond. discriminate. }
  exists head, middle, tail.
  pose proof (split_first_spec "{{stylePreset}}" MASTER_RECONSTRUCT_PROMPT) as Hmaster.
  rewrite Hfirst in Hmaster. destruct Hmaster as [Hmaster _].
  pose proof (split_first_spec "{{jsonData}}" rest) as Hrest.
  rewrite Hsecond in Hrest. destruct Hrest as [Hrest _].
  split; [rewrite <- Hrest; exact Hmaster|].
  intros style structuredJson Hplain. unfold finalPrompt.
  assert (Hstyled : JsString.replace "{{stylePreset}}" (StylePreset_text style)
                      MASTER_RECONSTRUCT_PROMPT
                    = (head ++ StylePreset_text style ++ rest)%string).
  { unfold JsString.replace. rewrite Hfirst.
    rewrite (expand_replacement_plain _ _ _ _ (StylePreset_text_plain style)). reflexivity. }
  rewrite Hstyled.
  assert (Hdata : JsString.split_first "{{jsonData}}" (head ++ StylePreset_text style ++ rest)
                  = Some ((head ++ StylePreset_text style ++ middle)%string, tail)).
  { vm_compute in Hfirst. injection Hfirst as <- <-.
    vm_compute in Hsecond. injection Hsecond as <- <-.
    destruct style; vm_compute; reflexivity. }
  unfold JsString.replace. rewrite Hdata, (expand_replacement_plain _ _ _ _ Hplain).
  rewrite !string_app_assoc. reflexivity.
Qed.

(** X28. The canvas has the requested width exactly for the integer widths from 0
    to 2^31 - 1. For the other widths within 32 bits around them the width
    attribute falls back to its default of 300 pixels. *)
Theorem canvas_width_is_kept_only_in_range (targetWidth : Z) :
  (Canvas.width (blankCanvas targetWidth) = targetWidth
   <-> (0 <= targetWidth <= 2147483647)%Z) /\
  ((-2147483648 <= targetWidth < 0)%Z \/ (2147483647 < targetWidth < 4294967296)%Z ->
   Canvas.width (blankCanvas targetWidth) = 300%Z).
Proof.
  split; [split|].
  - intros Hw. pose proof (proj1 (blankCanvas_range targetWidth)) as Hrange.
    rewrite Hw in Hrange. exact Hrange.
  - intros Hw. unfold blankCanvas, Canvas.create. cbn [Canvas.width].
    apply dimension_of_integer. exact Hw.
  - intros Hw. unfold blankCanvas, Canvas.create. cbn [Canvas.width].
    unfold Canvas.dimension, Canvas.to_unsigned_long. cbv zeta.
    rewrite Qfloor_Z, Qceiling_Z.
    assert (Hmod : (2147483647 < targetWidth mod 4294967296)%Z).
    { destruct Hw as [Hw|Hw].
      - rewrite <- (Z_mod_plus_full targetWidth 1 4294967296).
        rewrite Z.mod_small by lia. lia.
      - rewrite Z.mod_small by lia. lia. }
    destruct (Qle_bool 0 (inject_Z targetWidth));
      destruct (Z.leb_spec (targetWidth mod 4294967296) 2147483647); try reflexivity; lia.
Qed.


End CodeFacts.

(** ** The properties at sample inputs *)

(** C1 fails as stated: a response with no part lacks both the title and the
    image, a response with the title alone lacks exactly one of them, and the
    flow ends with the same message for the two. *)
Lemma same_message_for_both_missing_and_one_missing :
  lacks_text emptyResponse = true /\ lacks_image emptyResponse = true /\
  lacks_text titleOnlyResponse = false /\ lacks_image titleOnlyResponse = true /\
  error (final_state (promptOracle emptyResponse)
           (handleGenerateVariants (runtime := sampleRuntime) shownFixtures (uploaded roadmapFile))
           (uploaded roadmapFile))
  = error (final_state (promptOracle titleOnlyResponse)
             (handleGenerateVariants (runtime := sampleRuntime) shownFixtures (uploaded roadmapFile))
             (uploaded roadmapFile)).
Proof. repeat split; vm_compute; reflexivity. Qed.

(** The response with the image alone: the flow ends in Error. *)
Lemma image_only_response_is_rejected :
  lacks_text imageOnlyResponse = true /\
  error (final_state (promptOracle imageOnlyResponse)
           (handleGenerateVariants (runtime := sampleRuntime) shownFixtures (uploaded roadmapFile))
           (uploaded roadmapFile))
  = Some MSG_NOT_BOTH /\
  variants (final_state (promptOracle imageOnlyResponse)
              (handleGenerateVariants (runtime := sampleRuntime) shownFixtures (uploaded roadmapFile))
              (uploaded roadmapFile))
  = [].
Proof.
  split; [reflexivity|].
  destruct (generation_rejects_incomplete_response (runtime := sampleRuntime) shownFixtures
              (promptOracle imageOnlyResponse) (uploaded roadmapFile) roadmapFile imageOnlyResponse)
    as (_ & Herror & Hvariants & _).
  - reflexivity.
  - vm_compute. reflexivity.
  - left. reflexivity.
  - split; [exact Herror | exact Hvariants].
Defined.


(** The generation from [roadmap.png], a fixture: no interaction of the
    extractor, and the one request to the Visual Generator holds the JSON
    text of the fixture between the parts of the master prompt. The
    generation from [photo.png], no fixture: the file is read and the
    extraction model is asked with its data. *)
Lemma roadmap_fixture_skips_extractor :
  let fixtureFlow :=
    handleGenerateVariants (runtime := printingRuntime) shownFixtures (uploaded roadmapFile) in
  let photoFlow :=
    handleGenerateVariants (runtime := printingRuntime) shownFixtures (uploaded photoFile) in
  shownFixtures !! name roadmapFile = Some roadmap_png /\
  has_char "$" (stringify EmptyString roadmap_png) = false /\
  Forall (fun a => is_extractor_action a = false)
    (actions_of (promptOracle fullResponse) fixtureFlow (uploaded roadmapFile)) /\
  (exists head middle tail : string,
      MASTER_RECONSTRUCT_PROMPT
        = (head ++ "{{stylePreset}}" ++ middle ++ "{{jsonData}}" ++ tail)%string /\
      In (GenerateContent
            {| model := "gemini-2.5-flash-image-preview";
               contents :=
                 [textPart (head ++ "Workshop" ++ middle
                              ++ stringify EmptyString roadmap_png ++ tail)];
               config := responseModalities [IMAGE; TEXT] |})
        (actions_of (promptOracle fullResponse) fixtureFlow (uploaded roadmapFile))) /\
  shownFixtures !! name photoFile = None /\
  In (GenerateContent
        {| model := "gemini-2.5-flash";
           contents :=
             [imagePart {| mimeType := Some "image/png"; data := Some "iVBORw0KGgo=" |};
              textPart ocrPrompt];
           config := responseMimeType "application/json" |})
    (actions_of (promptOracle fullResponse) photoFlow (uploaded photoFile)).
Proof.
  cbv zeta.
  assert (Hfix : shownFixtures !! name roadmapFile = Some roadmap_png)
    by (vm_compute; reflexivity).
  assert (Hplain : has_char "$" (stringify EmptyString roadmap_png) = false)
    by (vm_compute; reflexivity).
  assert (Hphoto : shownFixtures !! name photoFile = None) by (vm_compute; reflexivity).
  split; [exact Hfix|]. split; [exact Hplain|].
  pose proof (fixture_bypasses_extractor (runtime := printingRuntime) shownFixtures
                (promptOracle fullResponse) (uploaded roadmapFile) roadmapFile eq_refl) as Hclaim.
  rewrite Hfix in Hclaim.
  destruct Hclaim
    as (Hnone & _ & Hmade & head & middle & tail & submitted & Hmaster & _ & Hverbatim & Hrequest).
  split; [exact Hnone|]. split.
  - exists head, middle, tail. split; [exact Hmaster|].
    specialize (Hmade eq_refl).
    pose proof (Hrequest _ Hmade) as Hshape.
    rewrite (Hverbatim Hplain) in Hshape.
    change (StylePreset_text (stylePreset (uploaded roadmapFile))) with "Workshop" in Hshape.
    change (JSON_stringify roadmap_png) with (stringify EmptyString roadmap_png) in Hshape.
    rewrite <- Hshape. exact Hmade.
  - split; [exact Hphoto|].
    pose proof (fixture_bypasses_extractor (runtime := printingRuntime) shownFixtures
                  (promptOracle fullResponse) (uploaded photoFile) photoFile eq_refl) as Hother.
    rewrite Hphoto in Hother.
    destruct Hother as (ocr & rest & _ & _ & _ & Hasked).
    destruct (Hasked 5%N "data:image/png;base64,iVBORw0KGgo=" eq_refl eq_refl)
      as (_ & _ & Hin).
    exact Hin.
Defined.

(** The default width: a canvas of 1920 by 1080. *)
Lemma default_canvas_is_1920_by_1080 :
  Canvas.width (composite "data:image/png;base64,iVBORw0KGgo="
                  "#FFFFFF" 1920 squareImage) = 1920%Z /\
  Canvas.height (composite "data:image/png;base64,iVBORw0KGgo="
                   "#FFFFFF" 1920 squareImage) = 1080%Z.
Proof.
  destruct (canvas_is_sixteen_by_nine (runtime := sampleRuntime)
              "data:image/png;base64,iVBORw0KGgo=" "#FFFFFF" 1920) as [Hcanvas _].
  - lia.
  - destruct (Hcanvas squareImage) as (Hwidth & Hheight & _).
    split; [exact Hwidth | exact Hheight].
Defined.

(** A square image on the default canvas: the padding left and right. *)
Lemma square_image_is_centred :
  exists (fill : Canvas.Command) (left top dWidth dHeight : Q),
    Canvas.commands (composite "data:image/png;base64,iVBORw0KGgo="
                       "#FFFFFF" 1920 squareImage)
    = [fill; Canvas.drawImage "data:image/png;base64,iVBORw0KGgo=" 0 0 1024 1024
               left top dWidth dHeight] /\
    (Qabs (left - (1920 - (left + dWidth))) <= 1)%Q /\
    (Qabs (top - (1080 - (top + dHeight))) <= 1)%Q.
Proof.
  destruct (image_is_contained_and_centred
              "data:image/png;base64,iVBORw0KGgo=" "#FFFFFF" 1920 squareImage)
    as (fill & scale & left & top & dWidth & dHeight & Hcommands & _ & _ & _ & _
        & _ & _ & _ & _ & _ & _ & Hx & Hy).
  exists fill, left, top, dWidth, dHeight.
  split; [exact Hcommands|]. split; [exact Hx | exact Hy].
Defined.

(** A state with an uploaded image satisfies the premise of C6. *)
Lemma generation_from_upload_all_or_nothing :
  image_before_variant (uploaded roadmapFile) /\
  exists blob img,
    variants generatedState = [publishedVariant (runtime := sampleRuntime) (promptOracle fullResponse) blob img] /\
    truthLockStatus (publishedVariant (runtime := sampleRuntime) (promptOracle fullResponse) blob img)
    = verified.
Proof.
  assert (Hpremise : image_before_variant (uploaded roadmapFile))
    by (intros Hnone; discriminate Hnone).
  split; [exact Hpremise|].
  destruct (generation_publishes_all_or_nothing (runtime := sampleRuntime) shownFixtures
              (promptOracle fullResponse) (uploaded roadmapFile) Hpremise)
    as [(msg & _ & Herror & _) | [(Hresult & _) | (blob & t & img & _ & _ & _ & Hv & Hs & _)]].
  - vm_compute in Herror. discriminate Herror.
  - vm_compute in Hresult. discriminate Hresult.
  - exists blob, img. split; [exact Hv | exact Hs].
Defined.

(** An edit of the generated variant that the service answers with an image. *)
Lemma edit_of_generated_variant_is_modified :
  truthLockStatus generatedVariant = verified /\
  variants generatedState !! 0%nat = Some generatedVariant /\
  exists v',
    variants (final_state (promptOracle fullResponse) (sampleEdit generatedState) generatedState)
      !! 0%nat = Some v' /\
    id v' = sampleId /\ truthLockStatus v' = modified.
Proof.
  assert (Hv : variants generatedState !! 0%nat = Some generatedVariant)
    by (vm_compute; reflexivity).
  split; [reflexivity|]. split; [exact Hv|].
  destruct (successful_edit_marks_modified (runtime := sampleRuntime)
              (promptOracle fullResponse) sampleId "make the bars blue" generatedState)
    as (_ & _ & Hall).
  - vm_compute. reflexivity.
  - vm_compute. reflexivity.
  - destruct (Hall 0%nat generatedVariant Hv) as (v' & Hv' & Hid & Hmod & _).
    exists v'. split; [exact Hv'|]. split; [exact Hid | exact (Hmod eq_refl)].
Defined.

(** An edit that the service answers with a title and no image. *)
Lemma edit_without_image_keeps_variant :
  response_image titleOnlyResponse = None /\
  error (final_state (promptOracle titleOnlyResponse) (sampleEdit generatedState) generatedState)
  = Some MSG_TWEAK_FAILED /\
  isTweaking (final_state (promptOracle titleOnlyResponse) (sampleEdit generatedState) generatedState)
  = false /\
  Forall (fun st => variants st = [generatedVariant])
    (states_of (promptOracle titleOnlyResponse) (sampleEdit generatedState) generatedState).
Proof.
  split; [reflexivity|].
  destruct (failed_edit_keeps_variant (runtime := sampleRuntime)
              (promptOracle titleOnlyResponse) sampleId "make the bars blue" generatedState)
    as (_ & _ & Hno_image).
  destruct (Hno_image generatedVariant titleOnlyResponse) as (_ & Herror & Hflag & Hsame).
  - vm_compute. reflexivity.
  - vm_compute. reflexivity.
  - reflexivity.
  - split; [exact Herror|]. split; [exact Hflag|]. exact Hsame.
Defined.

Lemma uploadedSystem_reachable : reachable (runtime := sampleRuntime) shownFixtures uploadedSystem.
Proof.
  apply (event_reachable (runtime := sampleRuntime) shownFixtures (promptOracle fullResponse)
           (FileChange (Some [roadmapFile])) initialState).
  - apply reachable_initial.
  - reflexivity.
Qed.

Lemma generatedSystem_reachable : reachable (runtime := sampleRuntime) shownFixtures generatedSystem.
Proof.
  apply (event_reachable (runtime := sampleRuntime) shownFixtures (promptOracle fullResponse)
           Improve (uploaded roadmapFile)).
  - apply uploadedSystem_reachable.
  - vm_compute. reflexivity.
Qed.

(** The application after a generation holds one variant. *)
Lemma generated_system_holds_one_variant :
  (length (variants (state generatedSystem)) <= 1)%nat.
Proof.
  exact (proj1 (variant_store_holds_at_most_one (runtime := sampleRuntime) shownFixtures)
           generatedSystem generatedSystem_reachable).
Defined.

(** The variant the application holds after a generation is not [verifying]. *)
Lemma generated_system_is_settled :
  Forall (fun v => truthLockStatus v <> verifying) (variants (state generatedSystem)).
Proof.
  exact (proj1 (proj2 (verifying_is_never_stored (runtime := sampleRuntime) shownFixtures
                         generatedSystem generatedSystem_reachable))).
Defined.

(** The response with title and image, after 1.2 seconds: the variant is
    published. *)
Lemma prompt_full_response_is_published :
  variants generatedState = [generatedVariant] /\
  error generatedState = None /\
  isLoading generatedState = false.
Proof.
  destruct (generation_succeeds_in_time (runtime := sampleRuntime) shownFixtures
              (promptOracle fullResponse) (uploaded roadmapFile) roadmapFile roadmap_png
              1200 1 fullResponse pngBlob squareImage)
    as (_ & Hvariants & Herror & Hloading);
    try (vm_compute; first [reflexivity | discriminate]).
  split; [exact Hvariants|]. split; [exact Herror | exact Hloading].
Defined.

(** A file that is no fixture and cannot be read: extraction fails, and the
    Visual Generator is not called. *)
Lemma unreadable_file_stops_generation :
  shownFixtures !! name photoFile = None /\
  error (final_state unreadableOracle
           (handleGenerateVariants (runtime := sampleRuntime) shownFixtures (uploaded photoFile))
           (uploaded photoFile))
  = Some MSG_OCR_FAILED /\
  actions_of unreadableOracle
    (handleGenerateVariants (runtime := sampleRuntime) shownFixtures (uploaded photoFile))
    (uploaded photoFile)
  = [NewGoogleGenAI; ReadAsDataURL photoFile].
Proof.
  assert (Hfix : shownFixtures !! name photoFile = None) by (vm_compute; reflexivity).
  split; [exact Hfix|].
  destruct (extraction_failure_stops_generation (runtime := sampleRuntime) shownFixtures
              unreadableOracle (uploaded photoFile) photoFile ocrFailure)
    as (Herror & _ & _ & Hactions);
    try (vm_compute; first [reflexivity | discriminate]).
  split; [exact Herror | exact Hactions].
Defined.

(** After the generation the application has an image and a variant. *)
Lemma generated_system_has_image :
  image_before_variant (state generatedSystem).
Proof.
  exact (no_variant_before_upload (runtime := sampleRuntime) shownFixtures
           generatedSystem generatedSystem_reachable).
Defined.

(** Before any upload the export control does nothing. *)
Lemma export_before_upload_does_nothing :
  run (promptOracle fullResponse) (handler (runtime := sampleRuntime) shownFixtures ExportClick initialState)
      initialState
  = ([], [], Some tt).
Proof.
  exact (export_without_variant_is_guarded (runtime := sampleRuntime) shownFixtures
           (promptOracle fullResponse) initialState eq_refl).
Defined.

(** *** The further properties at sample inputs *)

(** In a text with two placeholders only the first is replaced. *)
Lemma placeholder_is_replaced_once :
  exists before after : string,
    "1{{x}}2{{x}}3" = (before ++ "{{x}}" ++ after)%string /\
    JsString.replace "{{x}}" "a" "1{{x}}2{{x}}3" = (before ++ "a" ++ after)%string.
Proof.
  destruct (replace_changes_first_occurrence_only "{{x}}" "a" "1{{x}}2{{x}}3" eq_refl)
    as [[Hnone _] | (before & after & Heq & _ & Hreplaced)].
  - exfalso. apply (Hnone "1" "2{{x}}3"). reflexivity.
  - exists before, after. split; [exact Heq | exact Hreplaced].
Defined.

(** The data URL of a PNG image is accepted, and it is made of its groups. *)
Lemma png_data_url_is_made_of_its_groups :
  JsString.match_data_url "data:image/png;base64,iVBORw0KGgo="
    = Some ("image/png", "iVBORw0KGgo=") /\
  "data:image/png;base64,iVBORw0KGgo="
    = ("data:" ++ "image/png" ++ ";base64," ++ "iVBORw0KGgo=")%string.
Proof.
  assert (Hmatch : JsString.match_data_url "data:image/png;base64,iVBORw0KGgo="
                   = Some ("image/png", "iVBORw0KGgo=")) by (vm_compute; reflexivity).
  split; [exact Hmatch|].
  exact (proj1 (match_data_url_sound _ _ _ Hmatch)).
Defined.

(** The data URL of the sample image part is read back as its parts. *)
Lemma png_blob_round_trip :
  JsString.match_data_url (dataUrl pngBlob) = Some ("image/png", "iVBORw0KGgo=").
Proof.
  apply (data_url_round_trip "image/png" "iVBORw0KGgo=");
    first [discriminate | vm_compute; reflexivity].
Defined.

(** With the extraction model silent, the generation from a file that is no
    fixture never ends, and the application stays loading. *)
Lemma silent_extractor_leaves_the_flow_loading :
  shownFixtures !! name photoFile = None /\
  result_of stalledOracle
    (handleGenerateVariants (runtime := sampleRuntime) shownFixtures (uploaded photoFile))
    (uploaded photoFile) = None /\
  isLoading (final_state stalledOracle
               (handleGenerateVariants (runtime := sampleRuntime) shownFixtures (uploaded photoFile))
               (uploaded photoFile)) = true.
Proof.
  assert (Hfix : shownFixtures !! name photoFile = None) by (vm_compute; reflexivity).
  split; [exact Hfix|].
  destruct (extraction_has_no_timeout (runtime := sampleRuntime) shownFixtures
              stalledOracle (uploaded photoFile) photoFile 5
              "data:image/png;base64,iVBORw0KGgo=")
    as (Hresult & Hloading & _);
    try (vm_compute; first [reflexivity | discriminate]).
  split; [exact Hresult | exact Hloading].
Defined.

(** With the Visual Generator silent, the edit of the generated variant
    never ends, and the application stays tweaking. *)
Lemma silent_generator_leaves_the_edit_tweaking :
  result_of stalledOracle (sampleEdit generatedState) generatedState = None /\
  isTweaking (final_state stalledOracle (sampleEdit generatedState) generatedState) = true /\
  variants (final_state stalledOracle (sampleEdit generatedState) generatedState)
    = [generatedVariant].
Proof.
  destruct (edit_has_no_timeout (runtime := sampleRuntime) stalledOracle sampleId
              "make the bars blue" generatedState generatedVariant "image/png" "iVBORw0KGgo=")
    as (Hresult & Htweaking & _ & Hvariants);
    try (vm_compute; first [reflexivity | discriminate]).
  split; [exact Hresult|]. split; [exact Htweaking|].
  etransitivity; [exact Hvariants | vm_compute; reflexivity].
Defined.

(** A generation left waiting with a fixture and a silent image decoder waits
    for the image. *)
Lemma undecoded_image_leaves_the_flow_waiting :
  exists blob : Blob,
    undecodedOracle GetContext2d = true /\ undecodedOracle (LoadImage (dataUrl blob)) = Pending.
Proof.
  destruct (generation_waits_only_outside_the_race (runtime := sampleRuntime) shownFixtures
              undecodedOracle (uploaded roadmapFile) roadmapFile)
    as [Hextract | Himage].
  - reflexivity.
  - vm_compute. reflexivity.
  - vm_compute in Hextract. discriminate.
  - exact Himage.
Defined.

(** A rejection without message is shown as the default text. *)
Lemma refusal_without_message_shows_the_default :
  error (final_state refusingOracle
           (handleGenerateVariants (runtime := sampleRuntime) shownFixtures (uploaded roadmapFile))
           (uploaded roadmapFile))
  = Some MSG_GENERATE_DEFAULT.
Proof.
  destruct (generation_exception_is_surfaced (runtime := sampleRuntime) shownFixtures
              refusingOracle (uploaded roadmapFile) roadmapFile {| message := None |})
    as (_ & _ & _ & Hdefault & _).
  - reflexivity.
  - vm_compute. reflexivity.
  - apply Hdefault. left. reflexivity.
Defined.

(** The answer [null] of the extraction model is shown as the type error. *)
Lemma null_answer_shows_the_type_error :
  error (final_state (promptOracle fullResponse)
           (handleGenerateVariants (runtime := nullRuntime) shownFixtures (uploaded photoFile))
           (uploaded photoFile))
  = Some "Cannot read properties of null (reading 'error')".
Proof.
  assert (Hfix : shownFixtures !! name photoFile = None) by (vm_compute; reflexivity).
  assert (Hocr : result_of (promptOracle fullResponse)
                   (runOcrOnImage (runtime := nullRuntime) photoFile) (uploaded photoFile)
                 = Some JNull) by (vm_compute; reflexivity).
  exact (proj1 (null_description_is_a_type_error (runtime := nullRuntime) shownFixtures
                  (promptOracle fullResponse) (uploaded photoFile) photoFile
                  eq_refl Hfix Hocr)).
Defined.

(** The generation from the uploaded fixture sets the flag first and ends
    with the flag cleared. *)
Lemma sample_generation_clears_the_flag :
  isLoading generatedState = false /\ compareOn generatedState = false.
Proof.
  destruct (loading_flag_follows_the_flow (runtime := sampleRuntime) shownFixtures
              (promptOracle fullResponse) (uploaded roadmapFile) roadmapFile eq_refl)
    as (_ & Hended & _).
  apply Hended. vm_compute. reflexivity.
Defined.

(** With the instruction typed in, Improve edits the generated variant. *)
Lemma improve_with_instruction_edits :
  handleImproveSlide (runtime := sampleRuntime) shownFixtures instructedState
  = handleApplyTweak (runtime := sampleRuntime) sampleId "make the bars blue" instructedState.
Proof.
  assert (Hvariants : variants instructedState = [generatedVariant])
    by (vm_compute; reflexivity).
  exact (proj1 (improve_edits_the_variant_on_display (runtime := sampleRuntime) shownFixtures
                  (promptOracle fullResponse) instructedState generatedVariant []
                  Hvariants eq_refl)).
Defined.

(** The export of the generated variant downloads its display image. *)
Lemma generated_variant_is_downloaded :
  actions_of (promptOracle fullResponse)
    (onExportPng (runtime := sampleRuntime) sampleId generatedState) generatedState
  = [ClickDownloadLink "data:image/png;base64,iVBORw0KGgo=" "slide_surgeon_export.png"].
Proof.
  assert (Hfind : List.find (fun v => String.eqb (id v) sampleId) (variants generatedState)
                  = Some generatedVariant) by (vm_compute; reflexivity).
  exact (proj1 (export_downloads_the_display_image (runtime := sampleRuntime)
                  (promptOracle fullResponse) sampleId generatedState generatedVariant
                  Hfind eq_refl)).
Defined.

(** The export of a variant without display image composes it first. *)
Lemma bare_variant_is_composed_for_export :
  actions_of (promptOracle fullResponse)
    (onExportPng (runtime := sampleRuntime) sampleId bareState) bareState
  = [GetContext2d; LoadImage "data:image/png;base64,iVBORw0KGgo=";
     ClickDownloadLink "data:image/png;base64,iVBORw0KGgo=" "slide_surgeon_export.png"].
Proof.
  exact (export_falls_back_to_the_raw_image (runtime := sampleRuntime)
           (promptOracle fullResponse) sampleId bareState eq_refl).
Defined.

(** The images of the generated variant belong together. *)
Lemma generated_variant_images_belong_together :
  (exists blob, sourceGraphicUrl generatedVariant = dataUrl blob) /\
  (exists img,
      displayImageUrl generatedVariant
      = toDataURL (JsRuntime := sampleRuntime)
          (composite (sourceGraphicUrl generatedVariant) "#FFFFFF" 1920 img)).
Proof.
  apply (variant_images_belong_together (runtime := sampleRuntime) shownFixtures
           generatedSystem generatedSystem_reachable generatedVariant).
  left. vm_compute. reflexivity.
Defined.


(** ** Checks of the string functions and of the rounding *)

Example survey_datum_as_text :
  let q := JsString.dquote in
  stringify EmptyString (survey_datum "Very Satisfied" 45)
  = ("{
  " ++ q ++ "label" ++ q ++ ": " ++ q ++ "Very Satisfied" ++ q ++ ",
  " ++ q ++ "value" ++ q ++ ": 45
}")%string.
Proof. reflexivity. Qed.

Example replace_first_occurrence :
  JsString.replace "{{x}}" "a" "1{{x}}2{{x}}3" = "1a2{{x}}3".
Proof. reflexivity. Qed.

Example replace_dollar_patterns :
  JsString.replace "{{x}}" "[$$|$&|$`|$'|$1]" "1{{x}}2" = "1[$|{{x}}|1|2|$1]2".
Proof. reflexivity. Qed.

Example split_data_url :
  nth_error (JsString.split_char "," "data:image/png;base64,iVBORw0KGgo=") 1
  = Some "iVBORw0KGgo=".
Proof. reflexivity. Qed.

Example match_png_data_url :
  JsString.match_data_url "data:image/png;base64,iVBORw0KGgo="
  = Some ("image/png", "iVBORw0KGgo=").
Proof. reflexivity. Qed.

Example match_takes_last_separator :
  JsString.match_data_url "data:a;base64,b;base64,c" = Some ("a;base64,b", "c").
Proof. reflexivity. Qed.

Example match_needs_data :
  JsString.match_data_url "data:image/png;base64," = None.
Proof. reflexivity. Qed.

Example undefined_fields_give_a_data_url :
  dataUrl {| mimeType := None; data := None |} = "data:undefined;base64,undefined".
Proof. reflexivity. Qed.

Example one_tenth_as_a_number :
  Qred (fl (1 # 10)) = (3602879701896397 # 36028797018963968)%Q.
Proof. vm_compute. reflexivity. Qed.

(** An image of 29 by 1 pixels on the default canvas: the computed width is
    1920.0000000000002, so the horizontal shift is below zero, by about
    10^-13 pixel. *)
Example rounding_can_overshoot :
  let p := placement (blankCanvas 1920) {| Image.width := 29; Image.height := 1 |} in
  (1920 < drawnWidth p)%Q /\ (centerShift_x p < 0)%Q /\ (- tolerance <= centerShift_x p)%Q.
Proof. cbv zeta. repeat split; vm_compute; first [reflexivity | discriminate]. Qed.

